(** * minimap-js: a shallow embedding of [src/minimap.js] and [src/jquery-ports.js]

    The development follows the layout of the JavaScript sources:

    - [JsNumber], [JsValue]: the numbers, values, texts, objects and
      exceptions the code computes with;
    - [FindSuppression]: the markup rewriting of [_disableFind];
    - [Dom]: the document, with the helpers of jquery-ports.js on classes,
      styles and selections;
    - [Host]: what the sources ask of the browser and do not define;
    - [Validators]: the [propValidators] table and [_validateProps];
    - [State]: the window, the document and the instance as one state;
    - [MiniMapJs]: the constructor, the handlers and the methods of the
      class, as transformers of that state;
    - [Sample]: a page and a browser to run the class on;
    - [Spec]: the statements of the specification in its own words.

    Numbers are exact rationals extended with the two infinities and NaN.
    The rounding of IEEE doubles and the sign of zero are not represented;
    zero behaves as [+0]: what is proved of a number is proved of the
    expression the code computes it with, and an identity between two
    such expressions holds of the code up to the rounding of each
    operation. Strings are strings of 8-bit characters. *)

From Stdlib Require Import ZArith QArith Qround Qabs Lqa Lia.
From Stdlib Require Qcanon.
From Stdlib Require Import Bool List Permutation String Ascii.
Import ListNotations.

Set Warnings "-register-all".

Local Open Scope Z_scope.
Local Open Scope Q_scope.
Local Open Scope string_scope.

(* ===================================================================== *)
(** ** JavaScript numbers *)
(* ===================================================================== *)

Module JsNumber.

Inductive num : Type :=
| Finite (q : Q)
| PosInf
| NegInf
| NaN.

Definition ofZ (z : Z) : num := Finite (inject_Z z).

Definition isNaN (n : num) : bool :=
  match n with NaN => true | _ => false end.

Definition isFiniteNum (n : num) : bool :=
  match n with Finite _ => true | _ => false end.

(** [Qsgn] as a three-way test used by the operations on infinities. *)
Definition Qpositive (q : Q) : bool := (0 <? Qnum q)%Z.
Definition Qnegative (q : Q) : bool := (Qnum q <? 0)%Z.
Definition Qzero (q : Q) : bool := (Qnum q =? 0)%Z.

Definition neg (n : num) : num :=
  match n with
  | Finite q => Finite (Qred (- q))
  | PosInf => NegInf
  | NegInf => PosInf
  | NaN => NaN
  end.

Definition add (a b : num) : num :=
  match a, b with
  | NaN, _ | _, NaN => NaN
  | Finite x, Finite y => Finite (Qred (x + y))
  | PosInf, NegInf | NegInf, PosInf => NaN
  | PosInf, _ | _, PosInf => PosInf
  | NegInf, _ | _, NegInf => NegInf
  end.

Definition sub (a b : num) : num := add a (neg b).

(** An infinity with the sign of [q]; [0 * Infinity] is NaN. *)
Definition signedInf (positive : bool) (q : Q) : num :=
  if Qzero q then NaN
  else if Bool.eqb positive (Qpositive q) then PosInf else NegInf.

Definition mul (a b : num) : num :=
  match a, b with
  | NaN, _ | _, NaN => NaN
  | Finite x, Finite y => Finite (Qred (x * y))
  | Finite x, PosInf | PosInf, Finite x => signedInf true x
  | Finite x, NegInf | NegInf, Finite x => signedInf false x
  | PosInf, PosInf | NegInf, NegInf => PosInf
  | PosInf, NegInf | NegInf, PosInf => NegInf
  end.

(** Division. A finite non-zero number over zero is an infinity of the
    sign of the numerator (the divisor is read as [+0]); [0 / 0] and
    [Infinity / Infinity] are NaN; a finite number over an infinity is 0. *)
Definition div (a b : num) : num :=
  match a, b with
  | NaN, _ | _, NaN => NaN
  | Finite x, Finite y =>
      if Qzero y then
        (if Qzero x then NaN else if Qpositive x then PosInf else NegInf)
      else Finite (Qred (x / y))
  | Finite _, PosInf | Finite _, NegInf => Finite 0
  | PosInf, Finite y => if Qnegative y then NegInf else PosInf
  | NegInf, Finite y => if Qnegative y then PosInf else NegInf
  | PosInf, PosInf | PosInf, NegInf | NegInf, PosInf | NegInf, NegInf => NaN
  end.

(** [Math.abs]. *)
Definition abs (n : num) : num :=
  match n with
  | Finite q => Finite (Qabs q)
  | PosInf | NegInf => PosInf
  | NaN => NaN
  end.

(** The relational operators on numbers; every comparison with NaN is
    false. *)
Definition ltb (a b : num) : bool :=
  match a, b with
  | NaN, _ | _, NaN => false
  | Finite x, Finite y => negb (Qle_bool y x)
  | _, NegInf => false
  | NegInf, _ => true
  | PosInf, _ => false
  | _, PosInf => true
  end.

Definition leb (a b : num) : bool :=
  match a, b with
  | NaN, _ | _, NaN => false
  | Finite x, Finite y => Qle_bool x y
  | NegInf, _ => true
  | _, PosInf => true
  | _, NegInf => false
  | PosInf, _ => false
  end.

Definition gtb (a b : num) : bool := ltb b a.
Definition geb (a b : num) : bool := leb b a.

(** [===] on two numbers. *)
Definition eqb (a b : num) : bool :=
  match a, b with
  | Finite x, Finite y => Qeq_bool x y
  | PosInf, PosInf | NegInf, NegInf => true
  | _, _ => false
  end.

(** [Math.max] and [Math.min] of two numbers: NaN if either is NaN,
    otherwise one of the two arguments. *)
Definition Math_max (a b : num) : num :=
  match a, b with
  | NaN, _ | _, NaN => NaN
  | _, _ => if leb a b then b else a
  end.

Definition Math_min (a b : num) : num :=
  match a, b with
  | NaN, _ | _, NaN => NaN
  | _, _ => if leb a b then a else b
  end.

(** Truncation of a rational toward zero. *)
Definition Qtrunc (q : Q) : Z := Z.quot (Qnum q) (Z.pos (Qden q)).

(** The first digit of the decimal expansion of a positive rational:
    one below 1 is multiplied by ten until it is at least 1, one from 10
    on is divided by ten until it is below 10. The number of bits of the
    denominator, respectively of the numerator, is enough fuel. *)
Fixpoint firstDigitBelowOne (fuel : nat) (q : Q) : Z :=
  match fuel with
  | O => Qfloor q
  | S k => if Qle_bool 1 q then Qfloor q else firstDigitBelowOne k (Qred (q * 10))
  end.

Fixpoint firstDigitFromTen (fuel : nat) (q : Q) : Z :=
  match fuel with
  | O => Qfloor q
  | S k => if Qle_bool 10 q then firstDigitFromTen k (Qred (q / 10)) else Qfloor q
  end.

Definition leadingDigit (q : Q) : Z :=
  if Qle_bool 1 q
  then firstDigitFromTen (Pos.size_nat (Z.to_pos (Qnum q))) q
  else firstDigitBelowOne (Pos.size_nat (Qden q)) q.

(** Whether [Number.prototype.toString] prints a number with an
    exponent: it does for a magnitude that is not zero and is below
    [1e-6] or at least [1e21], as in [4.76837158203125e-7]. *)
Definition printsWithExponent (q : Q) : bool :=
  negb (Qzero q)
  && (negb (Qle_bool (1 # 1000000) (Qabs q))
      || Qle_bool (inject_Z (10 ^ 21)) (Qabs q)).

(** The integer [parseInt] reads from the text of a finite number. A
    number printed without exponent gives its integer part. One printed
    with an exponent gives its first digit, with its sign: the text is
    that digit followed by a point or by the letter [e], where the
    reading stops. The text is the one of the exact value. *)
Definition readInt (q : Q) : Z :=
  if printsWithExponent q
  then (Z.sgn (Qnum q) * leadingDigit (Qabs q))%Z
  else Qtrunc q.

(** [parseInt] applied to a number: the number is printed and the leading
    integer of the text is read back. NaN and the infinities print as
    words and read back as NaN. *)
Definition parseInt (n : num) : num :=
  match n with
  | Finite q => ofZ (readInt q)
  | _ => NaN
  end.

(** [Math.floor]. *)
Definition Math_floor (n : num) : num :=
  match n with
  | Finite q => ofZ (Qfloor q)
  | other => other
  end.

(** [ToInt32], the conversion behind [x | 0]: truncate, reduce modulo
    [2^32] and read the result as a signed 32-bit integer; NaN and the
    infinities give 0. *)
Definition wrap32 (z : Z) : Z :=
  let m := (z mod 2 ^ 32)%Z in
  if (m <? 2 ^ 31)%Z then m else (m - 2 ^ 32)%Z.

Definition ToInt32 (n : num) : num :=
  match n with
  | Finite q => ofZ (wrap32 (Qtrunc q))
  | _ => ofZ 0
  end.

(** Whether a number is an integer. *)
Definition isInteger (n : num) : bool :=
  match n with
  | Finite q => Qeq_bool (inject_Z (Qfloor q)) q
  | _ => false
  end.

End JsNumber.

(* ===================================================================== *)
(** ** JavaScript values, texts, objects and exceptions *)
(* ===================================================================== *)

Module JsValue.
Import JsNumber.

(** The values a configuration field can hold. A function is known by
    its name only. An object that is not a function (an array, a boxed
    number, an object literal) is known by its identity and by what the
    two conversions that the sources apply to a value make of it:
    [String(o)] and [Number(o)], as for the array [[0.5]] the text
    ['0.5'] and the number 0.5. The conversions of an object are taken
    to return, and to return the same each time; the object has no
    method [toLowerCase]. Symbols, BigInts and String objects are not
    values of this development. *)
Inductive value : Type :=
| VUndefined
| VNull
| VBool (b : bool)
| VNum (n : num)
| VStr (s : string)
| VFun (name : string)
| VObj (identity : nat) (asString : string) (asNumber : num).

(** A text built by concatenation: literal pieces and values that the
    [+] operator or a template turns into text. [Shown v] stands for
    the text that the operation makes of [v]; for a value that is not an
    object this is [String(v)]. *)
Inductive piece : Type :=
| Lit (s : string)
| Shown (v : value).

Definition text : Type := list piece.

(** What a [throw] carries: [new Error(message)], or a [TypeError] of
    the engine (a call of something that is not a function, a property
    read on [undefined]). *)
Inductive exn : Type :=
| Error (message : text)
| TypeError (what : string).

Inductive result (A : Type) : Type :=
| Ok (a : A)
| Throw (e : exn).

Arguments Ok {A} a.
Arguments Throw {A} e.

Definition isOk {A} (r : result A) : bool :=
  match r with Ok _ => true | Throw _ => false end.

(** [a === b]. *)
Definition strict_eq (a b : value) : bool :=
  match a, b with
  | VUndefined, VUndefined | VNull, VNull => true
  | VBool x, VBool y => Bool.eqb x y
  | VNum x, VNum y => JsNumber.eqb x y
  | VStr x, VStr y => String.eqb x y
  | VFun x, VFun y => String.eqb x y
  | VObj x _ _, VObj y _ _ => Nat.eqb x y
  | _, _ => false
  end.

Definition strict_neq (a b : value) : bool := negb (strict_eq a b).

(** [ToBoolean]. *)
Definition truthy (v : value) : bool :=
  match v with
  | VUndefined | VNull => false
  | VBool b => b
  | VNum (Finite q) => negb (Qzero q)
  | VNum NaN => false
  | VNum _ => true
  | VStr s => negb (String.eqb s "")
  | VFun _ => true
  | VObj _ _ _ => true
  end.

(** [typeof fn === 'function'] (jquery-ports.js, isFunction). *)
Definition isFunction (fn : value) : bool :=
  match fn with VFun _ => true | _ => false end.

(** [String.prototype.toLowerCase] on the letters A to Z. *)
Definition lowerAscii (c : ascii) : ascii :=
  let n := nat_of_ascii c in
  if (65 <=? n)%nat && (n <=? 90)%nat then ascii_of_nat (n + 32) else c.

Fixpoint toLowerCase (s : string) : string :=
  match s with
  | EmptyString => EmptyString
  | String c rest => String (lowerAscii c) (toLowerCase rest)
  end.

(** A plain object with string keys, as the list of its own properties
    in the order of their creation. *)
Definition object : Type := list (string * value).

Fixpoint get (o : object) (key : string) : value :=
  match o with
  | [] => VUndefined
  | (k, v) :: rest => if String.eqb k key then v else get rest key
  end.

(** [o[key] = v]: an existing key keeps its place, a new one goes last. *)
Fixpoint set (o : object) (key : string) (v : value) : object :=
  match o with
  | [] => [(key, v)]
  | (k, w) :: rest =>
      if String.eqb k key then (k, v) :: rest else (k, w) :: set rest key v
  end.

(** An array index: the decimal text, without sign and without a
    leading zero, of an integer from 0 to [2^32 - 2]. *)
Definition digit (c : ascii) : option N :=
  let n := N_of_ascii c in
  if (48 <=? n)%N && (n <=? 57)%N then Some (n - 48)%N else None.

Fixpoint digits (s : string) (acc : N) : option N :=
  match s with
  | EmptyString => Some acc
  | String c rest =>
      match digit c with
      | Some d => digits rest (10 * acc + d)%N
      | None => None
      end
  end.

Definition arrayIndex (key : string) : option N :=
  match key with
  | EmptyString => None
  | String c rest =>
      if Ascii.eqb c "0" && negb (String.eqb rest "") then None
      else match digits key 0 with
           | Some n => if (n <? 2 ^ 32 - 1)%N then Some n else None
           | None => None
           end
  end.

Definition isArrayIndex (key : string) : bool :=
  match arrayIndex key with Some _ => true | None => false end.

Fixpoint insertIndex (i : N) (key : string) (l : list (N * string))
  : list (N * string) :=
  match l with
  | [] => [(i, key)]
  | (j, k) :: rest =>
      if (i <? j)%N then (i, key) :: l else (j, k) :: insertIndex i key rest
  end.

(** The keys that are array indices, in ascending order. *)
Definition indexKeys (keys : list string) : list string :=
  map snd
      (fold_left (fun acc key =>
                    match arrayIndex key with
                    | Some i => insertIndex i key acc
                    | None => acc
                    end)
                 keys []).

(** [Object.keys(o)]: the keys that are array indices first, in
    ascending order, then the other keys in the order of their
    creation. *)
Definition Object_keys (o : object) : list string :=
  (indexKeys (map fst o)
     ++ filter (fun key => negb (isArrayIndex key)) (map fst o))%list.

(** [Object.assign(target, source)]. The key [__proto__] is copied
    like any other. *)
Definition assign1 (target source : object) : object :=
  fold_left (fun acc kv => set acc (fst kv) (snd kv)) source target.

Definition Object_assign (target : object) (sources : list object) : object :=
  fold_left assign1 sources target.

End JsValue.

(* ===================================================================== *)
(** ** The find-suppression transform of [_disableFind] *)
(* ===================================================================== *)

Module FindSuppression.

Definition dquote : string := String (ascii_of_nat 34) EmptyString.

(** ['<span style="position:absolute; right:-999999999px;">' + '.' + '</span>'] *)
Definition decoy : string :=
  ("<span style=" ++ dquote ++ "position:absolute; right:-999999999px;"
     ++ dquote ++ ">") ++ "." ++ "</span>".

(** The body of the [for] loop, one character at a time, with the two
    variables it updates: [stop] and [newHTML]. *)
Fixpoint rewriteFrom (html : string) (stop : bool) (newHTML : string) : string :=
  match html with
  | EmptyString => newHTML
  | String c rest =>
      let newHTML := newHTML ++ String c EmptyString in
      let stop := if Ascii.eqb c "<" then true else stop in
      let stop := if Ascii.eqb c ">" then false else stop in
      let newHTML := if negb stop then newHTML ++ decoy else newHTML in
      let newHTML := if Ascii.eqb c " " then newHTML ++ " " else newHTML in
      rewriteFrom rest stop newHTML
  end.

(** The markup written back to [innerHTML] for the markup [html]. *)
Definition rewriteHTML (html : string) : string := rewriteFrom html false "".

(** The same loop, keeping apart what it appends: a character of the
    source, a decoy, or the extra space. *)
Inductive appended : Type :=
| Source (c : ascii)
| Decoy
| ExtraSpace.

Fixpoint appendedFrom (html : string) (stop : bool) : list appended :=
  match html with
  | EmptyString => []
  | String c rest =>
      let stop := if Ascii.eqb c "<" then true else stop in
      let stop := if Ascii.eqb c ">" then false else stop in
      [Source c]
        ++ (if negb stop then [Decoy] else [])
        ++ (if Ascii.eqb c " " then [ExtraSpace] else [])
        ++ appendedFrom rest stop
  end.

Definition render1 (a : appended) : string :=
  match a with
  | Source c => String c EmptyString
  | Decoy => decoy
  | ExtraSpace => " "
  end.

Definition render (l : list appended) : string :=
  fold_right (fun a acc => render1 a ++ acc) "" l.

(** The characters of the output that are not part of a decoy. *)
Fixpoint nonDecoy (l : list appended) : string :=
  match l with
  | [] => ""
  | Source c :: rest => String c (nonDecoy rest)
  | Decoy :: rest => nonDecoy rest
  | ExtraSpace :: rest => String " " (nonDecoy rest)
  end.

(** Whether the character at each position lies inside a tag: from a
    ['<'] up to, and not including, the next ['>']. *)
Fixpoint insideTag (html : string) (open : bool) : list bool :=
  match html with
  | EmptyString => []
  | String c rest =>
      let inside :=
        if Ascii.eqb c ">" then false
        else if Ascii.eqb c "<" then true else open in
      inside :: insideTag rest inside
  end.

(** Whether the loop has [stop] set after the character at [i], for a
    loop entered with [stop = open]. *)
Definition stopAfter (html : string) (open : bool) (i : nat) : bool :=
  nth i (insideTag html open) false.

(** The markup with every space written twice. *)
Fixpoint doubleSpaces (html : string) : string :=
  match html with
  | EmptyString => EmptyString
  | String c rest =>
      if Ascii.eqb c " " then String c (String " " (doubleSpaces rest))
      else String c (doubleSpaces rest)
  end.

Fixpoint countDecoys (l : list appended) : nat :=
  match l with
  | [] => 0
  | Decoy :: rest => S (countDecoys rest)
  | _ :: rest => countDecoys rest
  end.

(** The pieces up to the next character of the source. *)
Fixpoint upToSource (l : list appended) : list appended :=
  match l with
  | [] => []
  | Source _ :: _ => []
  | a :: rest => a :: upToSource rest
  end.

(** What follows the source character number [i] in the output, up to
    the next source character. *)
Fixpoint afterSource (l : list appended) (i : nat) : list appended :=
  match l with
  | [] => []
  | Source _ :: rest =>
      match i with
      | O => upToSource rest
      | S j => afterSource rest j
      end
  | _ :: rest => afterSource rest i
  end.

End FindSuppression.

(* ===================================================================== *)
(** ** The document *)
(* ===================================================================== *)

Module Dom.
Import JsNumber JsValue.

(** An element carries its [className], the properties assigned to its
    [style] ([None] for an assigned [null]) and its child nodes. *)
Inductive Node : Type :=
| Text (data : string)
| Element (tagName : string) (className : string)
          (style : list (string * option text)) (childNodes : list Node).

(** A node is referred to by the positions leading to it from the body. *)
Definition path : Type := list nat.

Definition path_eqb (p q : path) : bool :=
  if list_eq_dec Nat.eq_dec p q then true else false.

Fixpoint nodeAt (n : Node) (p : path) : option Node :=
  match p with
  | [] => Some n
  | i :: rest =>
      match n with
      | Text _ => None
      | Element _ _ _ kids =>
          match nth_error kids i with
          | Some k => nodeAt k rest
          | None => None
          end
      end
  end.

Fixpoint updateNth {A} (i : nat) (f : A -> A) (l : list A) : list A :=
  match l, i with
  | [], _ => []
  | x :: rest, O => f x :: rest
  | x :: rest, S j => x :: updateNth j f rest
  end.

Fixpoint updateAt (p : path) (f : Node -> Node) (n : Node) : Node :=
  match p with
  | [] => f n
  | i :: rest =>
      match n with
      | Text _ => n
      | Element t c s kids => Element t c s (updateNth i (updateAt rest f) kids)
      end
  end.

Definition isElement (n : Node) : bool :=
  match n with Element _ _ _ _ => true | Text _ => false end.

Definition classNameOf (n : Node) : string :=
  match n with Element _ c _ _ => c | Text _ => "" end.

(** *** Classes (jquery-ports.js: hasClass, addClass, removeClass) *)

(** [\s] on 8-bit characters. *)
Definition isSpace (c : ascii) : bool :=
  let n := nat_of_ascii c in
  (n =? 32)%nat || ((9 <=? n)%nat && (n <=? 13)%nat).

(** [s] starts with [name] followed by [(\s|$)]. *)
Fixpoint startsWithWord (name s : string) : bool :=
  match name, s with
  | EmptyString, EmptyString => true
  | EmptyString, String c _ => isSpace c
  | String a name', String c s' => Ascii.eqb a c && startsWithWord name' s'
  | String _ _, EmptyString => false
  end.

(** A match of [(\s|^)name(\s|$)] somewhere in [s]; [boundary] tells
    whether the position before [s] is the start or a space. *)
Fixpoint matchFrom (name s : string) (boundary : bool) : bool :=
  (boundary && startsWithWord name s)
  || match s with
     | EmptyString => false
     | String c rest => matchFrom name rest (isSpace c)
     end.

Definition classMatch (className name : string) : bool :=
  matchFrom name className true.

Definition hasClass (el : Node) (className : string) : bool :=
  classMatch (classNameOf el) className.

Definition addClass (el : Node) (className : string) : Node :=
  match el with
  | Text _ => el
  | Element t c s kids =>
      if hasClass el className then el
      else Element t (c ++ " " ++ className) s kids
  end.

Fixpoint dropChars (n : nat) (s : string) : string :=
  match n, s with
  | O, _ => s
  | S m, EmptyString => EmptyString
  | S m, String _ rest => dropChars m rest
  end.

(** What is left of [s] after [name] and the one space that may follow. *)
Definition afterWord (name s : string) : string :=
  match dropChars (String.length name) s with
  | EmptyString => EmptyString
  | String _ rest => rest
  end.

(** [s.replace(reg, ' ')]: the first match gives way to one space. *)
Fixpoint replaceFirst (name s : string) (atStart : bool) : string :=
  if atStart && startsWithWord name s then " " ++ afterWord name s
  else match s with
       | EmptyString => EmptyString
       | String c rest =>
           if isSpace c && startsWithWord name rest
           then " " ++ afterWord name rest
           else String c (replaceFirst name rest false)
       end.

Definition removeClass (el : Node) (className : string) : Node :=
  match el with
  | Text _ => el
  | Element t c s kids =>
      if hasClass el className
      then Element t (replaceFirst className c true) s kids
      else el
  end.

(** *** Styles (jquery-ports.js: cssObjAssign, showElement, hideElement,
    toggleElement) *)

Fixpoint setStyle (s : list (string * option text)) (key : string)
         (v : option text) : list (string * option text) :=
  match s with
  | [] => [(key, v)]
  | (k, w) :: rest =>
      if String.eqb k key then (k, v) :: rest else (k, w) :: setStyle rest key v
  end.

Fixpoint getStyle (s : list (string * option text)) (key : string) : option text :=
  match s with
  | [] => None
  | (k, w) :: rest => if String.eqb k key then w else getStyle rest key
  end.

Definition cssObjAssign (element : Node) (properties : list (string * option text))
  : Node :=
  match element with
  | Text _ => element
  | Element t c s kids =>
      Element t c (fold_left (fun st kv => setStyle st (fst kv) (snd kv)) properties s) kids
  end.

Definition showElement (elem : Node) : Node := cssObjAssign elem [("display", None)].

Definition hideElement (elem : Node) : Node :=
  cssObjAssign elem [("display", Some [Lit "none"])].

Definition displayNone (elem : Node) : bool :=
  match elem with
  | Element _ _ s _ =>
      match getStyle s "display" with
      | Some [Lit v] => String.eqb v "none"
      | _ => false
      end
  | Text _ => false
  end.

Definition toggleElement (elem : Node) : Node :=
  if displayNone elem then showElement elem else hideElement elem.

(** *** Selection and removal (jquery-ports.js: selectAll, remove) *)

(** The three selectors of minimap.js: ['.c'] and ['.a .c']. *)
Inductive selector : Type :=
| ByClass (c : string)
| Descendant (ancestor c : string).

Definition ownClass (sel : selector) : string :=
  match sel with ByClass c => c | Descendant _ c => c end.

(** Does an element of class attribute [cls] serve as the ancestor the
    selector asks for? *)
Definition isAncestorFor (sel : selector) (cls : string) : bool :=
  match sel with
  | ByClass _ => false
  | Descendant a _ => classMatch cls a
  end.

(** [anc]: some ancestor of the node carries the ancestor class. *)
Definition matches (sel : selector) (anc : bool) (n : Node) : bool :=
  match n with
  | Text _ => false
  | Element _ cls _ _ =>
      classMatch cls (ownClass sel)
      && match sel with ByClass _ => true | Descendant _ _ => anc end
  end.

(** [element.querySelectorAll(selector)]: the matching descendants of
    [n], in document order. *)
Fixpoint querySelectorAll (sel : selector) (anc : bool) (n : Node) : list path :=
  match n with
  | Text _ => []
  | Element _ cls _ kids =>
      let anc' := anc || isAncestorFor sel cls in
      (fix go (i : nat) (ks : list Node) : list path :=
         match ks with
         | [] => []
         | k :: ks' =>
             ((if matches sel anc' k then [[i]] else [])
                ++ map (cons i) (querySelectorAll sel anc' k)
                ++ go (S i) ks')%list
         end) O kids
  end.

(** [selectAll(selector, element)]. *)
Definition selectAll (sel : selector) (element : Node) : list path :=
  querySelectorAll sel false element.

(** [selectAll(selector)]: [document.querySelectorAll], the body included. *)
Definition selectAllDocument (sel : selector) (body : Node) : list path :=
  ((if matches sel false body then [[]] else [])
     ++ querySelectorAll sel false body)%list.

(** The paths of [ps] that go through child [i], read from that child. *)
Fixpoint below (i : nat) (ps : list path) : list path :=
  match ps with
  | [] => []
  | (j :: rest) :: ps' =>
      if (Nat.eqb i j) then rest :: below i ps' else below i ps'
  | [] :: ps' => below i ps'
  end.

(** [remove(collection)]: every listed node leaves its parent. *)
Fixpoint remove (ps : list path) (n : Node) : Node :=
  match n with
  | Text _ => n
  | Element t c s kids =>
      Element t c s
        ((fix go (i : nat) (ks : list Node) : list Node :=
            match ks with
            | [] => []
            | k :: ks' =>
                ((if existsb (path_eqb [i]) ps then []
                  else [remove (below i ps) k])
                   ++ go (S i) ks')%list
            end) O kids)
  end.

(** [element.cloneNode(true)] *)
Definition cloneNode (element : Node) : Node := element.

Definition appendChild (parent child : Node) : Node :=
  match parent with
  | Text _ => parent
  | Element t c s kids => Element t c s (kids ++ [child])%list
  end.

Definition childCount (n : Node) : nat :=
  match n with Element _ _ _ kids => List.length kids | Text _ => O end.

(** [element.children] are the child nodes that are elements; [f] is
    applied to each of them in place. *)
Definition mapChildren (f : Node -> Node) (n : Node) : Node :=
  match n with
  | Text _ => n
  | Element t c s kids =>
      Element t c s (map (fun k => if isElement k then f k else k) kids)
  end.

(** The number of elements of the tree, the root included, that carry
    the class [c]. *)
Fixpoint countClass (c : string) (n : Node) : nat :=
  match n with
  | Text _ => O
  | Element _ cls _ kids =>
      ((if classMatch cls c then 1 else 0)
       + fold_right (fun k acc => countClass c k + acc) O kids)%nat
  end.

End Dom.

(* ===================================================================== *)
(** ** What the browser provides *)
(* ===================================================================== *)

Module Host.
Import JsNumber JsValue Dom.

(** What [getComputedStyle], [getBoundingClientRect], [offsetTop] and
    [clientHeight] report for one element. *)
Record Measure : Type := {
  rectWidth : num;
  rectHeight : num;
  offsetTop : num;
  marginTop : string;
  marginBottom : string;
  borderWidth : string;
  paddingTop : string;
  paddingBottom : string;
  elemClientHeight : num
}.

(** The services of the engine and of the layout that the sources call
    and do not define: reading a number out of a string, the markup of
    an element, and the measures of an element of the document laid out
    in a viewport of the given width and height. *)
Class Browser : Type := {
  StringToNumber : string -> num;
  parseFloatString : string -> num;
  parseIntString : string -> num;
  innerHTML : Node -> string;
  setInnerHTML : Node -> string -> Node;
  measure : Node -> num -> num -> path -> Measure
}.

Section Coercions.
Context {browser : Browser}.

(** [ToNumber]. *)
Definition ToNumber (v : value) : num :=
  match v with
  | VUndefined => NaN
  | VNull => ofZ 0
  | VBool b => if b then ofZ 1 else ofZ 0
  | VNum n => n
  | VStr s => StringToNumber s
  | VFun _ => NaN
  | VObj _ _ n => n
  end.

(** [parseFloat(v)] reads the number back from the text of [v]; the
    text of a number reads back as that number. *)
Definition parseFloat (v : value) : num :=
  match v with
  | VNum n => n
  | VStr s => parseFloatString s
  | VObj _ s _ => parseFloatString s
  | _ => NaN
  end.

(** [isFinite(v)]. *)
Definition isFinite (v : value) : bool := isFiniteNum (ToNumber v).

(** jquery-ports.js: [!isNaN(parseFloat(n)) && isFinite(n)]. *)
Definition isNumeric (n : value) : bool :=
  negb (isNaN (parseFloat n)) && isFinite n.

(** [v < n] and [v > n] against a number. *)
Definition lessThan (v : value) (n : num) : bool := ltb (ToNumber v) n.
Definition greaterThan (v : value) (n : num) : bool := gtb (ToNumber v) n.
Definition lessOrEqual (v : value) (n : num) : bool := leb (ToNumber v) n.

(** [value | 0]. *)
Definition bitor0 (v : value) : num := ToInt32 (ToNumber v).

End Coercions.

End Host.

(* ===================================================================== *)
(** ** Configuration validation ([propValidators], [_validateProps]) *)
(* ===================================================================== *)

Module Validators.
Import JsNumber JsValue Host.

Definition validPositions : list string := ["right"; "left"].

Definition redrawAttributes : list string :=
  ["heightRatio"; "widthRatio"; "offsetHeightRatio"; "offsetWidthRatio"].

(** [Set.prototype.has] on a set of strings. *)
Definition has (set : list string) (v : value) : bool :=
  match v with
  | VStr s => existsb (String.eqb s) set
  | _ => false
  end.

(** [throw new Error(prefix + value)] *)
Definition invalid {A} (prefix : string) (v : value) : result A :=
  Throw (Error [Lit prefix; Shown v]).

Definition q (z d : Z) : num :=
  Finite (Qred (inject_Z z / inject_Z d)).

Section Table.
Context {browser : Browser}.

Definition validate_allowClick (value : value) : result unit :=
  if strict_neq value (VBool true) && strict_neq value (VBool false)
  then invalid "Invalid allowClick: " value else Ok tt.

Definition validate_fadeHover (value : value) : result unit :=
  if strict_neq value (VBool true) && strict_neq value (VBool false)
  then invalid "Invalid fadeHover: " value else Ok tt.

Definition validate_hoverOpacity (value : value) : result unit :=
  if negb (isNumeric value) || lessThan value (ofZ 0) || greaterThan value (ofZ 1)
  then invalid "Invalid hoverOpacity: " value else Ok tt.

Definition validate_hoverFadeSpeed (value : value) : result unit :=
  if negb (isNumeric value) || lessThan value (ofZ 0)
  then invalid "Invalid hoverFadeSpeed: " value else Ok tt.

Definition validate_disableFind (value : value) : result unit :=
  if strict_neq value (VBool true) && strict_neq value (VBool false)
  then invalid "Invalid disableFind: " value else Ok tt.

Definition validate_heightRatio (value : value) : result unit :=
  if negb (isNumeric value) || lessOrEqual value (ofZ 0) || greaterThan value (ofZ 1)
  then invalid "Invalid heightRatio: " value else Ok tt.

Definition validate_widthRatio (value : value) : result unit :=
  if negb (isNumeric value) || lessOrEqual value (ofZ 0) || greaterThan value (q 1 2)
  then invalid "Invalid widthRatio: " value else Ok tt.

Definition validate_offsetHeightRatio (value : value) : result unit :=
  if negb (isNumeric value) || lessThan value (ofZ 0) || greaterThan value (q 9 10)
  then invalid "Invalid offsetHeightRatio: " value else Ok tt.

Definition validate_offsetWidthRatio (value : value) : result unit :=
  if negb (isNumeric value) || lessThan value (ofZ 0) || greaterThan value (q 9 10)
  then invalid "Invalid offsetWidthRatio: " value else Ok tt.

Definition validate_position (value : value) : result unit :=
  if negb (has validPositions value)
  then invalid "Invalid position: " value else Ok tt.

Definition validate_smoothScrollDelay (value : value) : result unit :=
  if strict_neq (VNum (bitor0 value)) value || lessThan value (ofZ 4)
  then invalid "Invalid smoothScrollDelay(in ms): " value else Ok tt.

Definition validate_touch (value : value) : result unit := Ok tt.

Definition validate_smoothScroll (value : value) : result unit := Ok tt.

Definition validate_onPreviewChange (value : value) : result unit :=
  if negb (truthy value) || negb (isFunction value)
  then invalid "Invalid onPreviewChange: " value else Ok tt.

(** The properties of the object literal [propValidators]. *)
Definition ownValidator (key : string) : option (value -> result unit) :=
  if String.eqb key "allowClick" then Some validate_allowClick
  else if String.eqb key "fadeHover" then Some validate_fadeHover
  else if String.eqb key "hoverOpacity" then Some validate_hoverOpacity
  else if String.eqb key "hoverFadeSpeed" then Some validate_hoverFadeSpeed
  else if String.eqb key "disableFind" then Some validate_disableFind
  else if String.eqb key "heightRatio" then Some validate_heightRatio
  else if String.eqb key "widthRatio" then Some validate_widthRatio
  else if String.eqb key "offsetHeightRatio" then Some validate_offsetHeightRatio
  else if String.eqb key "offsetWidthRatio" then Some validate_offsetWidthRatio
  else if String.eqb key "position" then Some validate_position
  else if String.eqb key "smoothScrollDelay" then Some validate_smoothScrollDelay
  else if String.eqb key "touch" then Some validate_touch
  else if String.eqb key "smoothScroll" then Some validate_smoothScroll
  else if String.eqb key "onPreviewChange" then Some validate_onPreviewChange
  else None.

Definition isObject (v : value) : bool :=
  match v with VFun _ | VObj _ _ _ => true | _ => false end.

Definition needsThis {A} : result A :=
  Throw (TypeError "Cannot convert undefined or null to object").

(** What [propValidators] inherits from [Object.prototype], in an engine
    that has that prototype as the standard defines it, and what each
    member does when [_validateProps] calls it the way it calls a
    validator: as a function of the one value, in strict code, so with
    [this] undefined. [Object(value)] and [toString] return; [isPrototypeOf]
    returns for a value that is not an object; the other methods need a
    [this] and throw; [__proto__] reads as the prototype, which is not a
    function. *)
Definition inheritedMember (key : string) : option (value -> result unit) :=
  if String.eqb key "constructor" then Some (fun _ => Ok tt)
  else if String.eqb key "toString" then Some (fun _ => Ok tt)
  else if String.eqb key "isPrototypeOf"
       then Some (fun v => if isObject v then needsThis else Ok tt)
  else if String.eqb key "toLocaleString" then Some (fun _ => needsThis)
  else if String.eqb key "valueOf" then Some (fun _ => needsThis)
  else if String.eqb key "hasOwnProperty" then Some (fun _ => needsThis)
  else if String.eqb key "propertyIsEnumerable" then Some (fun _ => needsThis)
  else if String.eqb key "__defineGetter__" then Some (fun _ => needsThis)
  else if String.eqb key "__defineSetter__" then Some (fun _ => needsThis)
  else if String.eqb key "__lookupGetter__" then Some (fun _ => needsThis)
  else if String.eqb key "__lookupSetter__" then Some (fun _ => needsThis)
  else if String.eqb key "__proto__"
       then Some (fun _ => Throw (TypeError "validator is not a function"))
  else None.

(** [propValidators[key]]: a property of the literal, or else what the
    literal inherits. *)
Definition propValidators (key : string) : option (value -> result unit) :=
  match ownValidator key with
  | Some validator => Some validator
  | None => inheritedMember key
  end.

(** The [for (let key of keys)] loop of [_validateProps]. *)
Fixpoint validateKeys (props : object) (keys : list string) : result unit :=
  match keys with
  | [] => Ok tt
  | key :: rest =>
      match propValidators key with
      | Some validator =>
          match validator (get props key) with
          | Ok _ => validateKeys props rest
          | Throw e => Throw e
          end
      | None =>
          invalid "Invalid validation property: " (get props key)
      end
  end.

Definition _validateProps (props : object) : result unit :=
  validateKeys props (Object_keys props).

End Table.

Definition noop : value := VFun "noop".

(** The [defaults] of the constructor. *)
Definition defaults : object :=
  [ ("allowClick", VBool true);
    ("fadeHover", VBool false);
    ("hoverOpacity", VNum (q 4 10));
    ("hoverFadeSpeed", VNum (q 5 10));
    ("heightRatio", VNum (q 6 10));
    ("widthRatio", VNum (q 5 100));
    ("offsetHeightRatio", VNum (q 35 1000));
    ("offsetWidthRatio", VNum (q 35 1000));
    ("position", VStr "right");
    ("touch", VBool true);
    ("smoothScroll", VBool true);
    ("smoothScrollDelay", VNum (ofZ 200));
    ("onPreviewChange", noop);
    ("disableFind", VBool false) ].

(** The kinds of value the data model of the specification gives each
    field, and the constraint it states. *)
Inductive fieldKind : Type :=
| KBoolean
| KRatio (lowOpen : bool) (low high : num)
| KSeconds
| KPosition
| KDelay
| KCallback.

Definition spec_kind (key : string) : option fieldKind :=
  if String.eqb key "heightRatio" then Some (KRatio true (ofZ 0) (ofZ 1))
  else if String.eqb key "widthRatio" then Some (KRatio true (ofZ 0) (q 1 2))
  else if String.eqb key "offsetHeightRatio" then Some (KRatio false (ofZ 0) (q 9 10))
  else if String.eqb key "offsetWidthRatio" then Some (KRatio false (ofZ 0) (q 9 10))
  else if String.eqb key "allowClick" then Some KBoolean
  else if String.eqb key "fadeHover" then Some KBoolean
  else if String.eqb key "hoverOpacity" then Some (KRatio false (ofZ 0) (ofZ 1))
  else if String.eqb key "hoverFadeSpeed" then Some KSeconds
  else if String.eqb key "position" then Some KPosition
  else if String.eqb key "touch" then Some KBoolean
  else if String.eqb key "smoothScroll" then Some KBoolean
  else if String.eqb key "smoothScrollDelay" then Some KDelay
  else if String.eqb key "disableFind" then Some KBoolean
  else if String.eqb key "onPreviewChange" then Some KCallback
  else None.

(** The specification's reading of the smooth-scroll delay: "an integer
    greater than or equal to 4". *)
Definition spec_validDelay (v : value) : bool :=
  match v with
  | VNum n => isInteger n && geb n (ofZ 4)
  | _ => false
  end.


End Validators.

(* ===================================================================== *)
(** ** The window, the document and the instance *)
(* ===================================================================== *)

Module State.
Import JsNumber JsValue Dom Host.

(** The variables captured by the [smoothScroll] callback of one animated
    scroll, and the interval it was registered with. *)
Record Timer : Type := {
  next : num;
  count : num;
  direction : bool;
  unitScroll : num;
  target : num;
  unitDelay : num
}.

Inductive eventTarget : Type :=
| Window
| Document
| Elem (p : path).

(** The handlers the constructor generates. *)
Inductive handlerName : Type :=
| onResizeHandler
| onScrollHandler
| onMouseUpHandler
| onMouseMoveHandler
| onMouseDownHandler
| onClickHandler
| touchHandler
| onMouseOverHandler
| onMouseOutHandler.

Record Listener : Type := {
  listensOn : eventTarget;
  eventType : string;
  handler : handlerName;
  useCapture : bool
}.

(** One call of the [onPreviewChange] callback. *)
Record Call : Type := {
  callee : value;
  previewElement : path;
  scaleX : num;
  scaleY : num
}.

Record Page : Type := {
  body : Node;
  clientWidth : num;
  clientHeight : num;
  scrollX : num;
  scrollY : num;
  windowProps : object;
  timers : list (nat * Timer);
  nextTimer : nat;
  listeners : list Listener;
  calls : list Call
}.

Record MiniMap : Type := {
  baseElement : path;
  shown : bool;
  mousedown : bool;
  onSmoothScroll : bool;
  lastTouchType : string;
  settings : object;
  miniElement : path;
  region : path;
  setters : list (string * (string * bool))
}.

Record World : Type := {
  instance : MiniMap;
  page : Page
}.

Record Touch : Type := {
  touchTarget : eventTarget;
  touchClientY : num
}.

(** A mouse or touch event, with the two flags its methods set. Only the
    vertical client coordinate is read by a handler. *)
Record Event : Type := {
  type : string;
  clientY : num;
  changedTouches : list Touch;
  propagationStopped : bool;
  defaultPrevented : bool
}.

(** *** Assignments *)

Definition withBody (pg : Page) (b : Node) : Page :=
  {| body := b; clientWidth := clientWidth pg; clientHeight := clientHeight pg;
     scrollX := scrollX pg; scrollY := scrollY pg; windowProps := windowProps pg;
     timers := timers pg; nextTimer := nextTimer pg; listeners := listeners pg;
     calls := calls pg |}.

(** [window.scrollTo(x, y)]: the page records the offsets it is asked
    for. A browser limits a request to the range the page can scroll
    over, so [scrollX] and [scrollY] of a page are what [window.scrollX]
    and [window.scrollY] read for a request within that range, and the
    request itself otherwise. *)
Definition scrollTo (x y : num) (pg : Page) : Page :=
  {| body := body pg; clientWidth := clientWidth pg; clientHeight := clientHeight pg;
     scrollX := x; scrollY := y; windowProps := windowProps pg;
     timers := timers pg; nextTimer := nextTimer pg; listeners := listeners pg;
     calls := calls pg |}.

Definition withWindowProps (pg : Page) (o : object) : Page :=
  {| body := body pg; clientWidth := clientWidth pg; clientHeight := clientHeight pg;
     scrollX := scrollX pg; scrollY := scrollY pg; windowProps := o;
     timers := timers pg; nextTimer := nextTimer pg; listeners := listeners pg;
     calls := calls pg |}.

Definition withTimers (pg : Page) (ts : list (nat * Timer)) (fresh : nat) : Page :=
  {| body := body pg; clientWidth := clientWidth pg; clientHeight := clientHeight pg;
     scrollX := scrollX pg; scrollY := scrollY pg; windowProps := windowProps pg;
     timers := ts; nextTimer := fresh; listeners := listeners pg;
     calls := calls pg |}.

Definition addEventListener (on : eventTarget) (ty : string) (h : handlerName)
           (capture : bool) (pg : Page) : Page :=
  {| body := body pg; clientWidth := clientWidth pg; clientHeight := clientHeight pg;
     scrollX := scrollX pg; scrollY := scrollY pg; windowProps := windowProps pg;
     timers := timers pg; nextTimer := nextTimer pg;
     listeners := (listeners pg ++ [ {| listensOn := on; eventType := ty;
                                        handler := h; useCapture := capture |} ])%list;
     calls := calls pg |}.

Definition recordCall (c : Call) (pg : Page) : Page :=
  {| body := body pg; clientWidth := clientWidth pg; clientHeight := clientHeight pg;
     scrollX := scrollX pg; scrollY := scrollY pg; windowProps := windowProps pg;
     timers := timers pg; nextTimer := nextTimer pg; listeners := listeners pg;
     calls := (calls pg ++ [c])%list |}.

Definition withShown (m : MiniMap) (b : bool) : MiniMap :=
  {| baseElement := baseElement m; shown := b; mousedown := mousedown m;
     onSmoothScroll := onSmoothScroll m; lastTouchType := lastTouchType m;
     settings := settings m; miniElement := miniElement m; region := region m;
     setters := setters m |}.

Definition withMousedown (m : MiniMap) (b : bool) : MiniMap :=
  {| baseElement := baseElement m; shown := shown m; mousedown := b;
     onSmoothScroll := onSmoothScroll m; lastTouchType := lastTouchType m;
     settings := settings m; miniElement := miniElement m; region := region m;
     setters := setters m |}.

Definition withOnSmoothScroll (m : MiniMap) (b : bool) : MiniMap :=
  {| baseElement := baseElement m; shown := shown m; mousedown := mousedown m;
     onSmoothScroll := b; lastTouchType := lastTouchType m;
     settings := settings m; miniElement := miniElement m; region := region m;
     setters := setters m |}.

Definition withLastTouchType (m : MiniMap) (s : string) : MiniMap :=
  {| baseElement := baseElement m; shown := shown m; mousedown := mousedown m;
     onSmoothScroll := onSmoothScroll m; lastTouchType := s;
     settings := settings m; miniElement := miniElement m; region := region m;
     setters := setters m |}.

Definition withSettings (m : MiniMap) (o : object) : MiniMap :=
  {| baseElement := baseElement m; shown := shown m; mousedown := mousedown m;
     onSmoothScroll := onSmoothScroll m; lastTouchType := lastTouchType m;
     settings := o; miniElement := miniElement m; region := region m;
     setters := setters m |}.

Definition withSetters (m : MiniMap) (l : list (string * (string * bool))) : MiniMap :=
  {| baseElement := baseElement m; shown := shown m; mousedown := mousedown m;
     onSmoothScroll := onSmoothScroll m; lastTouchType := lastTouchType m;
     settings := settings m; miniElement := miniElement m; region := region m;
     setters := l |}.

Definition onInstance (f : MiniMap -> MiniMap) (w : World) : World :=
  {| instance := f (instance w); page := page w |}.

Definition onPage (f : Page -> Page) (w : World) : World :=
  {| instance := instance w; page := f (page w) |}.

(** An assignment to, or a call on, the element a field of the instance
    refers to. *)
Definition onElement (p : path) (f : Node -> Node) (w : World) : World :=
  onPage (fun pg => withBody pg (updateAt p f (body pg))) w.

Definition stopPropagation (e : Event) : Event :=
  {| type := type e; clientY := clientY e; changedTouches := changedTouches e;
     propagationStopped := true; defaultPrevented := defaultPrevented e |}.

Definition preventDefault (e : Event) : Event :=
  {| type := type e; clientY := clientY e; changedTouches := changedTouches e;
     propagationStopped := propagationStopped e; defaultPrevented := true |}.

(** *** Measures (jquery-ports.js: width, height, outerHeight) *)

Section Measures.
Context {browser : Browser}.

Definition measureOf (pg : Page) (p : path) : Measure :=
  measure (body pg) (clientWidth pg) (clientHeight pg) p.

Definition width (pg : Page) (element : eventTarget) : num :=
  match element with
  | Window => clientWidth pg
  | Document => NaN
  | Elem p => rectWidth (measureOf pg p)
  end.

Definition height (pg : Page) (element : eventTarget) : num :=
  match element with
  | Window => clientHeight pg
  | Document => NaN
  | Elem p => rectHeight (measureOf pg p)
  end.

(** [string.substring(0, string.length - 2)] *)
Definition _removePx (s : string) : string :=
  substring 0 (String.length s - 2) s.

Definition outerHeight (pg : Page) (elem : path) : num :=
  let style := measureOf pg elem in
  let marginTop := parseIntString (_removePx (marginTop style)) in
  let marginBottom := parseIntString (_removePx (marginBottom style)) in
  let margin := add marginTop marginBottom in
  let border := parseIntString (_removePx (borderWidth style)) in
  let paddingTop := parseIntString (_removePx (paddingTop style)) in
  let paddingBottom := parseIntString (_removePx (paddingBottom style)) in
  let padding := add paddingTop paddingBottom in
  let clientHeight := elemClientHeight style in
  add (add (add margin padding) border) clientHeight.

End Measures.

End State.

(* ===================================================================== *)
(** ** The class [MiniMap] *)
(* ===================================================================== *)

Module MiniMapJs.
Import JsNumber JsValue Dom Host Validators FindSuppression State.

(** The object a function body reaches through [this]. The methods and
    the arrow functions of the class run with the instance; a plain
    [function] run by an interval timer runs with the window. *)
Inductive receiver : Type :=
| ThisInstance
| ThisWindow.

Definition px (n : num) : option text := Some [Shown (VNum n); Lit "px"].

Definition literal (s : string) : option text := Some [Lit s].

(** [css[key] = v] for a key held in a configuration field. *)
Definition setComputed (css : list (string * option text)) (key : value)
           (v : option text) : list (string * option text) :=
  match key with
  | VStr k => setStyle css k v
  | _ => css
  end.

Definition upperAscii (c : ascii) : ascii :=
  let n := nat_of_ascii c in
  if (97 <=? n)%nat && (n <=? 122)%nat then ascii_of_nat (n - 32) else c.

(** [setter.substring(0, 1).toUpperCase() + setter.substring(1)] *)
Definition capitalize (setter : string) : string :=
  match setter with
  | EmptyString => EmptyString
  | String c rest => String (upperAscii c) rest
  end.

Fixpoint lookupTimer (id : nat) (ts : list (nat * Timer)) : option Timer :=
  match ts with
  | [] => None
  | (i, t) :: rest => if Nat.eqb i id then Some t else lookupTimer id rest
  end.

Definition storeTimer (id : nat) (t : Timer) (ts : list (nat * Timer))
  : list (nat * Timer) :=
  map (fun it => if Nat.eqb (fst it) id then (id, t) else it) ts.

(** [clearInterval(timer)] *)
Definition clearInterval (id : nat) (w : World) : World :=
  onPage (fun pg =>
            withTimers pg
              (filter (fun it => negb (Nat.eqb (fst it) id)) (timers pg))
              (nextTimer pg)) w.

(** [window.setInterval(callback, delay)], the callback given by the
    variables it captures; the result is the world and the timer. *)
Definition setInterval (t : Timer) (w : World) : World * nat :=
  let id := nextTimer (page w) in
  (onPage (fun pg => withTimers pg (timers pg ++ [(id, t)])%list (S id)) w, id).

(** [this.onSmoothScroll = b] *)
Definition assignOnSmoothScroll (this : receiver) (b : bool) (w : World) : World :=
  match this with
  | ThisInstance => onInstance (fun m => withOnSmoothScroll m b) w
  | ThisWindow =>
      onPage (fun pg =>
                withWindowProps pg (set (windowProps pg) "onSmoothScroll" (VBool b))) w
  end.

(** Line 532: [Math.max(target, Math.min(target, maxTarget))]. *)
Definition clampTarget (target maxTarget : num) : num :=
  Math_max target (Math_min target maxTarget).

(** Lines 536 to 550: the step, the interval and the number of steps. *)
Definition stepParameters (delay distance : num) : num * num * num :=
  let r := div delay distance in
  let unitScroll := ofZ 1 in
  let unitDelay := ofZ 4 in
  let '(unitScroll, unitDelay) :=
    if geb r (ofZ 4) then (unitScroll, parseInt unitScroll)
    else if geb r (ofZ 1) then (mul (parseInt r) (ofZ 4), unitDelay)
    else (div (ofZ 4) r, unitDelay) in
  let count := parseInt (div distance unitScroll) in
  (unitScroll, unitDelay, count).

(** The [smoothScroll] callback of [scrollTop], a plain [function]:
    [timer] is the interval it clears and [t] holds its variables. *)
Definition smoothScroll (this : receiver) (timer : nat) (t : Timer) (w : World)
  : World :=
  let next := add (next t) (if direction t then unitScroll t else neg (unitScroll t)) in
  let count := sub (count t) (ofZ 1) in
  let finished := leb count (ofZ 0) in
  let next := if finished then target t else next in
  let t' := {| next := next; count := count; direction := direction t;
               unitScroll := unitScroll t; target := target t;
               unitDelay := unitDelay t |} in
  let w := onPage (fun pg => withTimers pg (storeTimer timer t' (timers pg))
                               (nextTimer pg)) w in
  let w := if finished
           then assignOnSmoothScroll this false (clearInterval timer w)
           else w in
  let curScrollX := scrollX (page w) in
  onPage (scrollTo curScrollX next) w.

(** One firing of the interval timer [timer]: the browser calls the
    registered function with the window as [this]. A cleared timer does
    not fire. *)
Definition fire (timer : nat) (w : World) : World :=
  match lookupTimer timer (timers (page w)) with
  | Some t => smoothScroll ThisWindow timer t w
  | None => w
  end.

Fixpoint fireTimes (n : nat) (timer : nat) (w : World) : World :=
  match n with
  | O => w
  | S k => fireTimes k timer (fire timer w)
  end.

Section Methods.
Context {browser : Browser}.

Definition setting (w : World) (key : string) : value :=
  get (settings (instance w)) key.

Definition base (w : World) : eventTarget := Elem (baseElement (instance w)).

(** [_scale]: the pair [(x, y)]. *)
Definition _scale (w : World) : num * num :=
  let pg := page w in
  (mul (div (width pg Window) (width pg (base w)))
       (ToNumber (setting w "widthRatio")),
   mul (div (height pg Window) (height pg (base w)))
       (ToNumber (setting w "heightRatio"))).

(** The handler made by [_genOnResizeHandler]: the layout pass. *)
Definition _genOnResizeHandler (w : World) : World :=
  if negb (shown (instance w)) then w
  else
    let pg := page w in
    let scale := _scale w in
    let scaleCssString :=
      Some [Lit "scale("; Shown (VNum (fst scale)); Lit ",";
            Shown (VNum (snd scale)); Lit ")"] in
    let offsetTop := mul (height pg Window) (ToNumber (setting w "offsetHeightRatio")) in
    let offsetLeftRight :=
      mul (width pg Window) (ToNumber (setting w "offsetWidthRatio")) in
    let top :=
      add (div (mul (height pg (base w)) (sub (snd scale) (ofZ 1))) (ofZ 2))
          offsetTop in
    let leftRight :=
      add (div (mul (width pg (base w)) (sub (fst scale) (ofZ 1))) (ofZ 2))
          offsetLeftRight in
    let thisWidth :=
      mul (mul (width pg Window) (div (ofZ 1) (fst scale)))
          (ToNumber (setting w "widthRatio")) in
    let thisHeight :=
      mul (mul (height pg Window) (div (ofZ 1) (snd scale)))
          (ToNumber (setting w "heightRatio")) in
    let miniElementCss :=
      setComputed
        [ ("-webkit-transform", scaleCssString);
          ("-moz-transform", scaleCssString);
          ("-ms-transform", scaleCssString);
          ("-o-transform", scaleCssString);
          ("transform", scaleCssString);
          ("top", px top);
          ("width", px thisWidth);
          ("height", px thisHeight);
          ("margin", literal "0px");
          ("padding", literal "0px") ]
        (setting w "position") (px leftRight) in
    let w := onElement (miniElement (instance w))
                       (fun el => cssObjAssign el miniElementCss) w in
    let pg := page w in
    let regionTop := mul (Host.offsetTop (measureOf pg (baseElement (instance w)))) (snd scale) in
    let regionElementCss :=
      setComputed
        [ ("width", px (width pg (Elem (miniElement (instance w)))));
          ("height", px (mul (height pg Window) (snd scale)));
          ("margin", literal "0px");
          ("top", px (sub (add (mul (scrollY pg) (snd scale)) offsetTop) regionTop)) ]
        (setting w "position") (px offsetLeftRight) in
    let w := onElement (region (instance w))
                       (fun el => cssObjAssign el regionElementCss) w in
    onPage (recordCall {| callee := setting w "onPreviewChange";
                          previewElement := miniElement (instance w);
                          scaleX := fst scale; scaleY := snd scale |}) w.

(** The handler made by [_genOnScrollHandler]. *)
Definition _genOnScrollHandler (w : World) : World :=
  if negb (shown (instance w)) then w
  else
    let pg := page w in
    let scale := _scale w in
    let offsetTop := mul (height pg Window) (ToNumber (setting w "offsetHeightRatio")) in
    let top := mul (Host.offsetTop (measureOf pg (baseElement (instance w)))) (snd scale) in
    let pos := mul (scrollY pg) (snd scale) in
    let regionHeight := outerHeight pg (region (instance w)) in
    let bottom := add (mul (outerHeight pg (baseElement (instance w))) (snd scale)) top in
    if ltb (add (add pos regionHeight) offsetTop) top || gtb pos bottom
    then onElement (region (instance w))
                   (fun el => cssObjAssign el [("display", literal "none")]) w
    else onElement (region (instance w))
                   (fun el => cssObjAssign el [("top", px (add offsetTop pos));
                                               ("display", literal "block")]) w.

(** The handler made by [_genOnMouseUpHandler]. *)
Definition _genOnMouseUpHandler (w : World) : World :=
  let w := onInstance (fun m => withMousedown m false) w in
  let w := onElement (baseElement (instance w)) (fun el => removeClass el "noselect") w in
  onElement (region (instance w)) (fun el => removeClass el "dragging") w.

(** The handler made by [_genOnMouseDownHandler]. *)
Definition _genOnMouseDownHandler (w : World) : World :=
  let w := onInstance (fun m => withMousedown m true) w in
  let w := onElement (baseElement (instance w)) (fun el => addClass el "noselect") w in
  onElement (region (instance w)) (fun el => addClass el "dragging") w.

(** The target offset of line 525. *)
Definition scrollTarget (w : World) (e : Event) : num :=
  let pg := page w in
  let scale := _scale w in
  let offsetTop := mul (height pg Window) (ToNumber (setting w "offsetHeightRatio")) in
  let top := mul (Host.offsetTop (measureOf pg (baseElement (instance w)))) (snd scale) in
  let regionHeight := outerHeight pg (region (instance w)) in
  div (add (sub (sub (clientY e) (div regionHeight (ofZ 2))) offsetTop) top)
      (snd scale).

(** The branch of [scrollTop] taken on a click with smooth scroll on
    (lines 530 to 565); the result is the world and the timer. *)
Definition startSmoothScroll (target : num) (w : World) : World * nat :=
  let current := scrollY (page w) in
  let maxTarget := outerHeight (page w) (baseElement (instance w)) in
  let target := clampTarget target maxTarget in
  let direction := gtb target current in
  let delay := ToNumber (setting w "smoothScrollDelay") in
  let distance := JsNumber.abs (sub current target) in
  let w := assignOnSmoothScroll ThisInstance false w in
  let '(unitScroll, unitDelay, count) := stepParameters delay distance in
  let next := current in
  let w := assignOnSmoothScroll ThisInstance true w in
  setInterval {| next := next; count := count; direction := direction;
                 unitScroll := unitScroll; target := target;
                 unitDelay := unitDelay |} w.

(** [scrollTop(e)] *)
Definition scrollTop (w : World) (e : Event) : World * Event :=
  if negb (shown (instance w)) then (w, e)
  else
    let target := scrollTarget w e in
    let w :=
      if String.eqb (type e) "click" && truthy (setting w "smoothScroll")
      then fst (startSmoothScroll target w)
      else
        let curScrollX := scrollX (page w) in
        onPage (scrollTo curScrollX target) w in
    (w, stopPropagation e).

(** The handler made by [_genOnMouseMoveHandler]. *)
Definition _genOnMouseMoveHandler (w : World) (e : Event) : World * Event :=
  if negb (mousedown (instance w)) || onSmoothScroll (instance w) then (w, e)
  else scrollTop w e.

(** The handler made by [_genOnClickHandler]. *)
Definition _genOnClickHandler (w : World) (e : Event) : World * Event :=
  let '(w, e) := scrollTop w e in
  (onInstance (fun m => withMousedown m false) w, e).

(** The handler made by [_genMouseOverHandler]. *)
Definition _genMouseOverHandler (w : World) : World :=
  let opacity := setting w "hoverOpacity" in
  let filter :=
    Some [Lit "alpha(opacity=";
          Shown (VNum (mul (ToNumber opacity) (ofZ 100))); Lit ")"] in
  let css := [("opacity", Some [Shown opacity]); ("filter", filter)] in
  let w := onElement (miniElement (instance w)) (fun el => cssObjAssign el css) w in
  onElement (region (instance w)) (fun el => cssObjAssign el css) w.

(** The handler made by [_genMouseOutHandler]. *)
Definition _genMouseOutHandler (w : World) : World :=
  let css := [("opacity", None); ("filter", None)] in
  let w := onElement (miniElement (instance w)) (fun el => cssObjAssign el css) w in
  onElement (region (instance w)) (fun el => cssObjAssign el css) w.

(** The function a listener runs on a mouse event. The touch handler
    is registered for touch events only and is run by [touch]. *)
Definition handle (h : handlerName) (w : World) (e : Event) : World * Event :=
  match h with
  | onResizeHandler => (_genOnResizeHandler w, e)
  | onScrollHandler => (_genOnScrollHandler w, e)
  | onMouseUpHandler => (_genOnMouseUpHandler w, e)
  | onMouseMoveHandler => _genOnMouseMoveHandler w e
  | onMouseDownHandler => (_genOnMouseDownHandler w, e)
  | onClickHandler => _genOnClickHandler w e
  | onMouseOverHandler => (_genMouseOverHandler w, e)
  | onMouseOutHandler => (_genMouseOutHandler w, e)
  | touchHandler => (w, e)
  end.

Definition target_eqb (a b : eventTarget) : bool :=
  match a, b with
  | Window, Window | Document, Document => true
  | Elem p, Elem p' => path_eqb p p'
  | _, _ => false
  end.

(** The listeners registered on [on] for the type of [e], run in the
    order of their registration. *)
Fixpoint runListeners (ls : list Listener) (on : eventTarget) (w : World) (e : Event)
  : World * Event :=
  match ls with
  | [] => (w, e)
  | l :: rest =>
      if target_eqb (listensOn l) on && String.eqb (eventType l) (type e)
      then let '(w, e) := handle (handler l) w e in runListeners rest on w e
      else runListeners rest on w e
  end.

(** The element, its ancestors up to the body, the document and the
    window: the way a bubbling event travels. *)
Fixpoint upward (p : path) (fuel : nat) : list eventTarget :=
  match fuel with
  | O => [Elem p]
  | S k => match p with
           | [] => [Elem p]
           | _ => Elem p :: upward (removelast p) k
           end
  end.

Definition propagationPath (on : eventTarget) : list eventTarget :=
  match on with
  | Elem p => (upward p (List.length p) ++ [Document; Window])%list
  | Document => [Document; Window]
  | Window => [Window]
  end.

Fixpoint bubble (route : list eventTarget) (w : World) (e : Event) : World * Event :=
  match route with
  | [] => (w, e)
  | on :: rest =>
      let '(w, e) := runListeners (listeners (page w)) on w e in
      if propagationStopped e then (w, e) else bubble rest w e
  end.

(** [target.dispatchEvent(e)] for a bubbling mouse event. *)
Definition dispatchEvent (on : eventTarget) (w : World) (e : Event) : World * Event :=
  bubble (propagationPath on) w e.

(** The handler made by [_genTouchHandler]. A touch event has at
    least one changed touch. *)
Definition _genTouchHandler (w : World) (e : Event) : World * Event :=
  match changedTouches e with
  | [touch] =>
      let typeOf :=
        if String.eqb (type e) "touchstart" then Some "mousedown"
        else if String.eqb (type e) "touchmove" then Some "mousemove"
        else if String.eqb (type e) "touchend" then Some "mouseup"
        else None in
      match typeOf with
      | None => (w, e)
      | Some type =>
          let type :=
            if String.eqb (State.type e) "touchend"
               && String.eqb (lastTouchType (instance w)) "touchstart"
            then "click" else type in
          let simulatedEvent :=
            {| type := type; clientY := touchClientY touch; changedTouches := [];
               propagationStopped := false; defaultPrevented := false |} in
          let w := fst (dispatchEvent (touchTarget touch) w simulatedEvent) in
          (onInstance (fun m => withLastTouchType m (State.type e)) w,
           preventDefault e)
      end
  | _ => (w, e)
  end.

(** [_disableFind(selectAll('.unsearchable'))] on the document. The
    collection is fixed before the loop, so an element inside another
    listed element is rewritten after it left the document: in the
    document only the outermost marked elements change. *)
Fixpoint _disableFind (n : Node) : Node :=
  match n with
  | Text _ => n
  | Element t c s kids =>
      if classMatch c "unsearchable"
      then setInnerHTML n (rewriteHTML (innerHTML n))
      else Element t c s (map _disableFind kids)
  end.

(** [addSetters(setters)]: the name of each added method with the
    field it sets and whether it redraws. *)
Definition addSetters (names : list string) (m : MiniMap) : MiniMap :=
  withSetters m
    (setters m ++
       map (fun setter =>
              (String.append "set" (capitalize setter),
               (setter, existsb (String.eqb setter) redrawAttributes)))
           names)%list.

(** The function made by [_genSetPropertyFunction(prop, redraw)]. *)
Definition _genSetPropertyFunction (prop : string) (redraw : bool)
           (value : value) (w : World) : result unit * World :=
  match propValidators prop with
  | None => (Throw (TypeError "validator is not a function"), w)
  | Some validator =>
      match validator value with
      | Throw e => (Throw e, w)
      | Ok _ =>
          let w := onInstance (fun m => withSettings m (set (settings m) prop value)) w in
          (Ok tt, if redraw then _genOnResizeHandler w else w)
      end
  end.

(** A call of a method added by [addSetters]. *)
Definition callSetter (name : string) (value : value) (w : World)
  : result unit * World :=
  match find (fun s => String.eqb (fst s) name) (setters (instance w)) with
  | Some (_, (prop, redraw)) => _genSetPropertyFunction prop redraw value w
  | None => (Throw (TypeError "not a function"), w)
  end.

(** [setPosition(position)] *)
Definition setPosition (position : value) (w : World) : result unit * World :=
  let oldValue := setting w "position" in
  match validate_position position with
  | Throw e => (Throw e, w)
  | Ok _ =>
      let w := onInstance (fun m => withSettings m (set (settings m) "position" position)) w in
      if strict_neq oldValue (setting w "position") then
        let css := setComputed [] oldValue (literal "") in
        let w := _genOnResizeHandler w in
        let w := onElement (region (instance w)) (fun el => cssObjAssign el css) w in
        (Ok tt, onElement (miniElement (instance w)) (fun el => cssObjAssign el css) w)
      else (Ok tt, w)
  end.

(** [show()], [hide()], [toggle()] *)
Definition show (w : World) : World :=
  if negb (shown (instance w)) then
    let w := onElement (miniElement (instance w)) showElement w in
    let w := onElement (region (instance w)) showElement w in
    let w := onInstance (fun m => withShown m true) w in
    _genOnResizeHandler w
  else w.

Definition hide (w : World) : World :=
  if shown (instance w) then
    let w := onElement (miniElement (instance w)) hideElement w in
    let w := onElement (region (instance w)) hideElement w in
    onInstance (fun m => withShown m false) w
  else w.

Definition toggle (w : World) : World :=
  let w := onElement (miniElement (instance w)) toggleElement w in
  let w := onElement (region (instance w)) toggleElement w in
  let w := onInstance (fun m => withShown m (negb (shown m))) w in
  if shown (instance w) then _genOnResizeHandler w else w.

(** The listeners added when [settings.allowClick] holds. *)
Definition clickListeners (region miniElement : path) (pg : Page) : Page :=
  let pg := addEventListener Document "mouseup" onMouseUpHandler false pg in
  let pg := addEventListener Document "mousemove" onMouseMoveHandler false pg in
  let pg := addEventListener (Elem region) "mousedown" onMouseDownHandler false pg in
  let pg := addEventListener (Elem region) "mouseup" onMouseUpHandler false pg in
  let pg := addEventListener (Elem region) "mousemove" onMouseMoveHandler false pg in
  let pg := addEventListener (Elem region) "click" onClickHandler false pg in
  let pg := addEventListener (Elem miniElement) "mousedown" onMouseDownHandler false pg in
  let pg := addEventListener (Elem miniElement) "mouseup" onMouseUpHandler false pg in
  let pg := addEventListener (Elem miniElement) "mousemove" onMouseMoveHandler false pg in
  let pg := addEventListener (Elem miniElement) "click" onClickHandler false pg in
  let pointer := fun el => cssObjAssign el [("cursor", literal "pointer")] in
  let pg := withBody pg (updateAt miniElement pointer (body pg)) in
  withBody pg (updateAt region pointer (body pg)).

(** The listeners added when [settings.touch] holds. *)
Definition touchListeners (pg : Page) : Page :=
  let pg := addEventListener Document "touchstart" touchHandler true pg in
  let pg := addEventListener Document "touchmove" touchHandler true pg in
  let pg := addEventListener Document "touchend" touchHandler true pg in
  addEventListener Document "touchcancel" touchHandler true pg.

(** The styles and listeners added when [settings.fadeHover] holds. *)
Definition hoverListeners (fadeSpeed : value) (region miniElement : path) (pg : Page)
  : Page :=
  let transition :=
    fun el => cssObjAssign el
                [("transition", Some [Lit "opacity "; Shown fadeSpeed; Lit "s"])] in
  let pg := withBody pg (updateAt miniElement transition (body pg)) in
  let pg := withBody pg (updateAt region transition (body pg)) in
  let pg := addEventListener (Elem miniElement) "mouseover" onMouseOverHandler false pg in
  let pg := addEventListener (Elem miniElement) "mouseout" onMouseOutHandler false pg in
  let pg := addEventListener (Elem region) "mouseover" onMouseOverHandler false pg in
  addEventListener (Elem region) "mouseout" onMouseOutHandler false pg.

(** The part of the constructor that follows the validation (lines
    159 to 266), for the element [base] found at [baseElement]. The
    region and the preview are the last two children of the body and
    the instance refers to them by that position. *)
Definition build (baseElement : path) (base : Node) (settings : object) (pg : Page)
  : MiniMap * Page :=
  let miniElement := cloneNode base in
  let miniElement :=
    remove (selectAll (Descendant "minimap" "noselect") miniElement) miniElement in
  let miniElement :=
    remove (selectAll (ByClass "miniregion") miniElement) miniElement in
  let miniElement := addClass miniElement "minimap noselect" in
  let miniElement :=
    if strict_eq (get settings "disableFind") (VBool true)
    then mapChildren (fun current => addClass current "unsearchable") miniElement
    else miniElement in
  let miniElement :=
    mapChildren (fun current => cssObjAssign current [("pointer-events", literal "none")])
                miniElement in
  let region := addClass (Element "div" "" [] []) "miniregion" in
  let regionPath := [childCount (body pg)] in
  let miniPath := [S (childCount (body pg))] in
  let pg := withBody pg (appendChild (body pg) region) in
  let pg := withBody pg (appendChild (body pg) miniElement) in
  let pg := withBody pg (_disableFind (body pg)) in
  let this :=
    {| State.baseElement := baseElement; shown := false; mousedown := false;
       onSmoothScroll := false; lastTouchType := "";
       State.settings := settings; State.miniElement := miniPath;
       State.region := regionPath; setters := [] |} in
  let w := _genOnResizeHandler {| instance := this; page := pg |} in
  let this := instance w in
  let pg := page w in
  let pg := addEventListener Window "resize" onResizeHandler false pg in
  let pg := addEventListener Window "scroll" onScrollHandler false pg in
  let pg := if truthy (get settings "allowClick")
            then clickListeners regionPath miniPath pg else pg in
  let pg := if truthy (get settings "touch") then touchListeners pg else pg in
  let pg := if truthy (get settings "fadeHover")
            then hoverListeners (get settings "hoverFadeSpeed") regionPath miniPath pg
            else pg in
  (addSetters ["heightRatio"; "widthRatio"; "offsetHeightRatio"; "offsetWidthRatio";
               "smoothScroll"; "smoothScrollDelay"] this,
   pg).

(** [new MiniMap(baseElement, options)]: the instance, or what was
    thrown, and the page as the constructor left it. *)
Definition constructor (baseElement : path) (options : object) (pg : Page)
  : result MiniMap * Page :=
  let settings := Object_assign [] [defaults; options] in
  match get settings "position" with
  | VStr position =>
      let settings := set settings "position" (VStr (toLowerCase position)) in
      match _validateProps settings with
      | Throw e => (Throw e, pg)
      | Ok _ =>
          match nodeAt (body pg) baseElement with
          | Some (Element t c s kids) =>
              let '(this, pg) := build baseElement (Element t c s kids) settings pg in
              (Ok this, pg)
          | _ => (Throw (TypeError "baseElement is not an element"), pg)
          end
      end
  | _ => (Throw (TypeError "settings.position.toLowerCase is not a function"), pg)
  end.

End Methods.
End MiniMapJs.

(* ===================================================================== *)
(** ** A page to run the class on *)
(* ===================================================================== *)

Module Sample.
Import JsNumber JsValue Dom Host Validators State MiniMapJs.

(** The value of a run of decimal digits. *)
Fixpoint digitsFrom (s : string) (acc : Z) (seen : bool) : option Z :=
  match s with
  | EmptyString => if seen then Some acc else None
  | String c rest =>
      let n := nat_of_ascii c in
      if (48 <=? n)%nat && (n <=? 57)%nat
      then digitsFrom rest (10 * acc + Z.of_nat (n - 48))%Z true
      else if seen then Some acc else None
  end.

Definition leadingInteger (s : string) : num :=
  match digitsFrom s 0%Z false with
  | Some z => ofZ z
  | None => NaN
  end.

Definition box (height : Z) : Measure :=
  {| rectWidth := ofZ 1000; rectHeight := ofZ height; offsetTop := ofZ 0;
     marginTop := "0px"; marginBottom := "0px"; borderWidth := "0px";
     paddingTop := "0px"; paddingBottom := "0px"; elemClientHeight := ofZ height |}.

(** A browser for the examples. Strings are read as whole decimal
    numbers, the markup of an element is left as it is, the body is 3600
    pixels high and every other element 60. *)
Definition sampleBrowser : Browser :=
  {| StringToNumber := leadingInteger;
     parseFloatString := leadingInteger;
     parseIntString := leadingInteger;
     innerHTML := fun _ => "";
     setInnerHTML := fun n _ => n;
     measure := fun _ _ _ p => match p with [] => box 3600 | _ => box 60 end |}.

Definition paragraph : Node := Element "p" "" [] [Text "minimap"].

(** A page with one paragraph, in a viewport of 1000 by 600, not
    scrolled. *)
Definition emptyPage : Page :=
  {| body := Element "body" "" [] [paragraph];
     clientWidth := ofZ 1000; clientHeight := ofZ 600;
     scrollX := ofZ 0; scrollY := ofZ 0; windowProps := [];
     timers := []; nextTimer := O; listeners := []; calls := [] |}.

Definition mouse (type : string) (y : Z) : Event :=
  {| State.type := type; clientY := ofZ y; changedTouches := [];
     propagationStopped := false; defaultPrevented := false |}.

(** The world after [new MiniMap(document.body, options)]. Where the
    constructor throws there is no instance; the page then comes with an
    instance that has no settings and no elements. *)
Definition newMiniMap `{Browser} (options : object) (pg : Page) : World :=
  match constructor [] options pg with
  | (Ok this, pg) => {| instance := this; page := pg |}
  | (Throw _, pg) =>
      {| instance := {| baseElement := []; shown := false; mousedown := false;
                        onSmoothScroll := false; lastTouchType := "";
                        settings := []; miniElement := []; region := [];
                        setters := [] |};
         page := pg |}
  end.

(** [new MiniMap(document.body, {})] on the sample page, in the sample
    browser, and the same after [show()]. *)
Definition hiddenWorld : World := @newMiniMap sampleBrowser [] emptyPage.

Definition shownWorld : World := @show sampleBrowser hiddenWorld.

Definition touchEvent (type : string) (on : eventTarget) (y : Z) : Event :=
  {| State.type := type; clientY := NaN;
     changedTouches := [ {| touchTarget := on; touchClientY := ofZ y |} ];
     propagationStopped := false; defaultPrevented := false |}.



End Sample.

(* ===================================================================== *)
(** ** The statements of the specification, in its own words *)
(* ===================================================================== *)

Module Spec.
Import JsNumber JsValue Dom Host Validators FindSuppression State MiniMapJs.

(** The step parameters as the specification words them: from
    [r = delay / distance], a step of 1 every 1 ms when [r >= 4], of
    [floor(r) * 4] every 4 ms when [r >= 1], and of [4 / r] every 4 ms
    otherwise; the number of steps is [floor(distance / stepSize)]. *)
Definition spec_stepParameters (delay distance : num) : num * num * num :=
  let r := div delay distance in
  let stepSize :=
    if geb r (ofZ 4) then ofZ 1
    else if geb r (ofZ 1) then mul (Math_floor r) (ofZ 4)
    else div (ofZ 4) r in
  let interval := if geb r (ofZ 4) then ofZ 1 else ofZ 4 in
  (stepSize, interval, Math_floor (div distance stepSize)).



(** Position [i] of the markup lies inside a tag: a ['<'] at or before
    it has no ['>'] after it up to [i]. *)
Definition InTag (html : string) (i : nat) : Prop :=
  exists j, (j <= i)%nat
            /\ String.get j html = Some "<"%char
            /\ forall k, (j < k <= i)%nat -> String.get k html <> Some ">"%char.

(** What the loop of [_disableFind] appends after the character [c]
    when it is, or is not, inside a tag. *)
Definition followers (inside : bool) (c : ascii) : list appended :=
  ((if inside then [] else [Decoy])
     ++ (if Ascii.eqb c " " then [ExtraSpace] else []))%list.

(** No timer of the page carries the number the next timer will get. *)
Definition freshTimer (w : World) : Prop :=
  lookupTimer (nextTimer (page w)) (timers (page w)) = None.

(** The timers of the page were all numbered before the next number. *)
Definition timersBelow (w : World) : Prop :=
  Forall (fun it => (fst it < nextTimer (page w))%nat) (timers (page w)).

Definition running (timer : nat) (w : World) : bool :=
  match lookupTimer timer (timers (page w)) with
  | Some _ => true
  | None => false
  end.

(** What a hidden minimap must leave alone: the scroll offsets and the
    timers of the window. *)
Definition sameScrolling (w w' : World) : Prop :=
  scrollX (page w') = scrollX (page w)
  /\ scrollY (page w') = scrollY (page w)
  /\ timers (page w') = timers (page w)
  /\ nextTimer (page w') = nextTimer (page w).

(** What a handler run on a hidden minimap leaves as it was: the flag,
    the scrolling and the event. *)
Definition quiet (w : World) (e : Event) (r : World * Event) : Prop :=
  shown (instance (fst r)) = false /\ sameScrolling w (fst r) /\ snd r = e.

(** A body with the children [kids] followed by two more: a region and
    a preview. *)
Definition extends (t c : string) (s : list (string * option text))
           (kids : list Node) (b : Node) : Prop :=
  exists r m, b = Element t c s (kids ++ [r; m]).

End Spec.

(* ===================================================================== *)
(** ** The validation of the earlier implementation ([src/minimap-old.js]) *)
(* ===================================================================== *)

Module Legacy.
Import JsNumber JsValue Host Validators.

(** [const position = ['right', 'left']] *)
Definition position : list string := ["right"; "left"].

(** [position.indexOf(p) === -1] *)
Definition notListed (p : string) : bool := negb (existsb (String.eqb p) position).

Section ValidateProp.
Context {browser : Browser}.

(** [validateProp(prop, value)], a [switch] on [prop]; it reads and, for
    the position, writes the [settings] of the enclosing function, which
    are passed in and returned. *)
Definition validateProp (prop : string) (value : value) (settings : object)
  : result object :=
  if String.eqb prop "disableFind" then
    if strict_neq value (VBool true) && strict_neq value (VBool false)
    then invalid "Invalid disableFind: " value else Ok settings
  else if String.eqb prop "heightRatio" then
    if negb (isNumeric value) || lessOrEqual value (ofZ 0) || greaterThan value (ofZ 1)
    then invalid "Invalid heightRatio: " value else Ok settings
  else if String.eqb prop "widthRatio" then
    if negb (isNumeric value) || lessOrEqual value (ofZ 0) || greaterThan value (q 1 2)
    then invalid "Invalid widthRatio: " value else Ok settings
  else if String.eqb prop "offsetHeightRatio" then
    if negb (isNumeric value) || lessThan value (ofZ 0) || greaterThan value (q 9 10)
    then invalid "Invalid offsetHeightRatio: " value else Ok settings
  else if String.eqb prop "offsetWidthRatio" then
    if negb (isNumeric value) || lessThan value (ofZ 0) || greaterThan value (q 9 10)
    then invalid "Invalid offsetWidthRatio: " value else Ok settings
  else if String.eqb prop "position" then
    match value with
    | VStr s =>
        let p := toLowerCase s in
        if notListed p
        then invalid "Invalid position: " (get settings "position")
        else Ok (set settings "position" (VStr p))
    | _ => Throw (TypeError "value.toLowerCase is not a function")
    end
  else if String.eqb prop "smoothScrollDelay" then
    if strict_neq (VNum (bitor0 value)) value || lessThan value (ofZ 4)
    then invalid "Invalid smoothScrollDelay(in ms): " value else Ok settings
  else if String.eqb prop "touch" then Ok settings
  else if String.eqb prop "smoothScroll" then Ok settings
  else if String.eqb prop "onPreviewChange" then
    if negb (truthy value) || negb (isFunction value)
    then invalid "Invalid onPreviewChange: " value else Ok settings
  else invalid "Invalid validation property: " (VStr prop).

(** [for (var prop in settings) validateProp(prop, settings[prop])] over
    the keys the loop started with. *)
Fixpoint validateAll (keys : list string) (settings : object) : result object :=
  match keys with
  | [] => Ok settings
  | prop :: rest =>
      match validateProp prop (get settings prop) settings with
      | Ok settings => validateAll rest settings
      | Throw e => Throw e
      end
  end.

(** What [setPosition(pos)] and the functions made by [setProperty] do
    to the settings. *)
Definition setPosition (pos : value) (settings : object) : result object :=
  validateProp "position" pos settings.

Definition setProperty (propName : string) (value : value) (settings : object)
  : result object :=
  match validateProp propName value settings with
  | Ok settings => Ok (set settings propName value)
  | Throw e => Throw e
  end.

End ValidateProp.

(** The [defaults] of the earlier implementation. *)
Definition defaults : object :=
  [ ("heightRatio", VNum (q 6 10));
    ("widthRatio", VNum (q 5 100));
    ("offsetHeightRatio", VNum (q 35 1000));
    ("offsetWidthRatio", VNum (q 35 1000));
    ("position", VStr "right");
    ("touch", VBool true);
    ("smoothScroll", VBool true);
    ("smoothScrollDelay", VNum (ofZ 200));
    ("onPreviewChange", VFun "fn");
    ("disableFind", VBool false) ].

End Legacy.

(* ===================================================================== *)
(** ** Words for the behaviour of the class *)
(* ===================================================================== *)

Module Behaviour.
Import JsNumber JsValue Dom Host Validators FindSuppression State MiniMapJs Spec.

(** The validator of [key] exists and accepts what [props] holds for it. *)
Definition accepted `{Browser} (props : object) (key : string) : Prop :=
  exists validator,
    propValidators key = Some validator /\ validator (get props key) = Ok tt.

(** The settings pass [_validateProps]. *)
Definition validSettings `{Browser} (o : object) : Prop :=
  _validateProps o = Ok tt.

(** The fields the constructor passes to [addSetters]. *)
Definition setterFields : list string :=
  ["heightRatio"; "widthRatio"; "offsetHeightRatio"; "offsetWidthRatio";
   "smoothScroll"; "smoothScrollDelay"].

(** Whether [key] is bound in [o]. *)
Definition bound (o : object) (key : string) : bool :=
  existsb (String.eqb key) (Object_keys o).

(** The methods [addSetters] installs for [setterFields]. *)
Definition installedSetters : list (string * (string * bool)) :=
  setters (addSetters setterFields
             {| baseElement := []; shown := false; mousedown := false;
                onSmoothScroll := false; lastTouchType := ""; settings := [];
                miniElement := []; region := []; setters := [] |}).

(** What the document shows at a path: whether an element is there, its
    class attribute, a property of its style, whether it is set not to
    display. *)
Definition elementAt (b : Node) (p : path) : bool :=
  match nodeAt b p with
  | Some (Element _ _ _ _) => true
  | _ => false
  end.

Definition classAt (b : Node) (p : path) : string :=
  match nodeAt b p with
  | Some n => classNameOf n
  | None => ""
  end.

Definition styleAt (b : Node) (p : path) (key : string) : option text :=
  match nodeAt b p with
  | Some (Element _ _ s _) => getStyle s key
  | _ => None
  end.

Definition hiddenAt (b : Node) (p : path) : bool :=
  match nodeAt b p with
  | Some n => displayNone n
  | None => false
  end.

Fixpoint noSpace (s : string) : bool :=
  match s with
  | EmptyString => true
  | String c rest => negb (isSpace c) && noSpace rest
  end.

(** The characters of the class names that minimap.js passes to
    [hasClass], [addClass] and [removeClass]: letters, digits, the hyphen
    and the underscore. None of them has a meaning of its own in the
    regular expression that the three functions build from the name. *)
Definition isNameChar (c : ascii) : bool :=
  let n := nat_of_ascii c in
  ((97 <=? n)%nat && (n <=? 122)%nat)
  || ((65 <=? n)%nat && (n <=? 90)%nat)
  || ((48 <=? n)%nat && (n <=? 57)%nat)
  || (n =? 45)%nat || (n =? 95)%nat.

Fixpoint isName (s : string) : bool :=
  match s with
  | EmptyString => true
  | String c rest => isNameChar c && isName rest
  end.

(** A class name proper: one or more name characters. *)
Definition isToken (s : string) : bool :=
  negb (String.eqb s "") && isName s.

(** Names separated by single blanks, as in ['minimap noselect']. *)
Fixpoint isPlain (s : string) : bool :=
  match s with
  | EmptyString => true
  | String c rest => (isNameChar c || Ascii.eqb c " ") && isPlain rest
  end.

(** A change of an element that leaves its children, and a text node,
    as they are. *)
Definition shallow (f : Node -> Node) : Prop :=
  forall n,
    match n, f n with
    | Element _ _ _ kids, Element _ _ _ kids' => kids' = kids
    | Text d, Text d' => d' = d
    | _, _ => False
    end.

(** The preview and the region are two elements of the document, and the
    source element is neither of them. *)
Definition attached (w : World) : Prop :=
  elementAt (body (page w)) (miniElement (instance w)) = true
  /\ elementAt (body (page w)) (region (instance w)) = true
  /\ miniElement (instance w) <> region (instance w)
  /\ baseElement (instance w) <> region (instance w)
  /\ baseElement (instance w) <> miniElement (instance w).

(** The fields of the instance that no handler assigns. *)
Definition sameConfiguration (w w' : World) : Prop :=
  settings (instance w') = settings (instance w)
  /\ setters (instance w') = setters (instance w)
  /\ baseElement (instance w') = baseElement (instance w)
  /\ miniElement (instance w') = miniElement (instance w)
  /\ region (instance w') = region (instance w).

Section Steps.
Context {browser : Browser}.

(** One thing that happens to a minimap after its construction: a call
    of one of its methods, an event dispatched in the document, a touch
    event, a firing of an interval timer, or the user scrolling the
    window. A method that throws leaves the world it returns with. *)
Inductive step : World -> World -> Prop :=
| step_setter (name : string) (v : value) (w : World) :
    step w (snd (callSetter name v w))
| step_setPosition (v : value) (w : World) :
    step w (snd (setPosition v w))
| step_show (w : World) : step w (show w)
| step_hide (w : World) : step w (hide w)
| step_toggle (w : World) : step w (toggle w)
| step_event (on : eventTarget) (e : Event) (w : World) :
    step w (fst (dispatchEvent on w e))
| step_touch (e : Event) (w : World) :
    step w (fst (_genTouchHandler w e))
| step_timer (timer : nat) (w : World) : step w (fire timer w)
| step_scrolled (x y : num) (w : World) : step w (onPage (scrollTo x y) w).

(** The worlds a minimap can be in: the one its constructor returned
    with, and those that follow by steps. *)
Inductive reachable : World -> Prop :=
| reachable_new (base : path) (options : object) (pg pg' : Page) (this : MiniMap) :
    constructor base options pg = (Ok this, pg') ->
    reachable {| instance := this; page := pg' |}
| reachable_step (w w' : World) : reachable w -> step w w' -> reachable w'.

End Steps.

(** Text of 7-bit characters: the blanks of such a text are the
    characters that [isSpace] knows. *)
Fixpoint isAsciiText (s : string) : bool :=
  match s with
  | EmptyString => true
  | String c rest => (nat_of_ascii c <? 128)%nat && isAsciiText rest
  end.

(** What an element shows of itself: its tag, class attribute and
    style. *)
Definition surface (n : Node) : option (string * string * list (string * option text)) :=
  match n with
  | Element t c s _ => Some (t, c, s)
  | Text _ => None
  end.

(** The value a list of assignments gives [key] last, if it gives one. *)
Definition lastAssigned (properties : list (string * option text)) (key : string)
  : option (option text) :=
  fold_left (fun acc kv => if String.eqb (fst kv) key then Some (snd kv) else acc)
            properties None.

(** The handlers that call [scrollTop]. *)
Definition scrolls (h : handlerName) : bool :=
  match h with
  | onMouseMoveHandler | onClickHandler => true
  | _ => false
  end.

(** The scrolling and the listeners of the page are as they were. *)
Definition undisturbed (w w' : World) : Prop :=
  sameScrolling w w' /\ listeners (page w') = listeners (page w).

(** The listeners the constructor registers on the window, and for the
    touch and hover options. *)
Definition windowListeners : list Listener :=
  [ {| listensOn := Window; eventType := "resize"; handler := onResizeHandler;
       useCapture := false |};
    {| listensOn := Window; eventType := "scroll"; handler := onScrollHandler;
       useCapture := false |} ].

Definition documentTouchListeners : list Listener :=
  map (fun ty => {| listensOn := Document; eventType := ty; handler := touchHandler;
                    useCapture := true |})
      ["touchstart"; "touchmove"; "touchend"; "touchcancel"].

Definition hoverListenersOf (region miniElement : path) : list Listener :=
  [ {| listensOn := Elem miniElement; eventType := "mouseover";
       handler := onMouseOverHandler; useCapture := false |};
    {| listensOn := Elem miniElement; eventType := "mouseout";
       handler := onMouseOutHandler; useCapture := false |};
    {| listensOn := Elem region; eventType := "mouseover";
       handler := onMouseOverHandler; useCapture := false |};
    {| listensOn := Elem region; eventType := "mouseout";
       handler := onMouseOutHandler; useCapture := false |} ].

(** The listeners the constructor registers when clicks are allowed. *)
Definition clickListenersOf (region miniElement : path) : list Listener :=
  [ {| listensOn := Document; eventType := "mouseup"; handler := onMouseUpHandler;
       useCapture := false |};
    {| listensOn := Document; eventType := "mousemove"; handler := onMouseMoveHandler;
       useCapture := false |};
    {| listensOn := Elem region; eventType := "mousedown";
       handler := onMouseDownHandler; useCapture := false |};
    {| listensOn := Elem region; eventType := "mouseup";
       handler := onMouseUpHandler; useCapture := false |};
    {| listensOn := Elem region; eventType := "mousemove";
       handler := onMouseMoveHandler; useCapture := false |};
    {| listensOn := Elem region; eventType := "click";
       handler := onClickHandler; useCapture := false |};
    {| listensOn := Elem miniElement; eventType := "mousedown";
       handler := onMouseDownHandler; useCapture := false |};
    {| listensOn := Elem miniElement; eventType := "mouseup";
       handler := onMouseUpHandler; useCapture := false |};
    {| listensOn := Elem miniElement; eventType := "mousemove";
       handler := onMouseMoveHandler; useCapture := false |};
    {| listensOn := Elem miniElement; eventType := "click";
       handler := onClickHandler; useCapture := false |} ].

(** All the listeners of one construction with the settings [st]. *)
Definition constructedListeners (st : object) (region miniElement : path)
  : list Listener :=
  (windowListeners
     ++ (if truthy (get st "allowClick") then clickListenersOf region miniElement
         else [])
     ++ (if truthy (get st "touch") then documentTouchListeners else [])
     ++ (if truthy (get st "fadeHover") then hoverListenersOf region miniElement
         else []))%list.

(** The class attribute at [p] holds the class [c]. *)
Definition hasClassAt (b : Node) (p : path) (c : string) : bool :=
  classMatch (classAt b p) c.

Section Handlers.
Context {browser : Browser}.

(** The handlers of the listeners registered on [on] for the type [ty],
    in the order of their registration, and their run. *)
Definition handlersFor (ls : list Listener) (on : eventTarget) (ty : string)
  : list handlerName :=
  map handler
      (filter (fun l => target_eqb (listensOn l) on && String.eqb (eventType l) ty) ls).

Fixpoint runHandlers (hs : list handlerName) (w : World) (e : Event) : World * Event :=
  match hs with
  | [] => (w, e)
  | h :: rest => let '(w, e) := handle h w e in runHandlers rest w e
  end.

End Handlers.

(** The fields the earlier implementation knows. *)
Definition legacyFields : list string :=
  ["heightRatio"; "widthRatio"; "offsetHeightRatio"; "offsetWidthRatio"; "position";
   "touch"; "smoothScroll"; "smoothScrollDelay"; "onPreviewChange"; "disableFind"].

(** The same error, or the two errors for a position: the earlier
    implementation shows the position it holds, the class the
    lower-cased position it was given. *)
Definition sameError (held given : value) (old new : exn) : Prop :=
  new = old
  \/ (old = Error [Lit "Invalid position: "; Shown held]
      /\ new = Error [Lit "Invalid position: "; Shown given]).

(** No element on the way from [n] to the node at [p], that node
    included, carries the class ['unsearchable']. *)
Fixpoint unmarkedAlong (n : Node) (p : path) : bool :=
  match n with
  | Text _ => true
  | Element _ c _ kids =>
      negb (classMatch c "unsearchable")
      && match p with
         | [] => true
         | i :: rest =>
             match nth_error kids i with
             | Some k => unmarkedAlong k rest
             | None => true
             end
         end
  end.

(** The elements of the document are still elements, the listeners are
    the same, and the instance refers to the same three elements. *)
Definition sameElements (w w' : World) : Prop :=
  (forall q, elementAt (body (page w')) q = elementAt (body (page w)) q)
  /\ listeners (page w') = listeners (page w)
  /\ baseElement (instance w') = baseElement (instance w)
  /\ miniElement (instance w') = miniElement (instance w)
  /\ region (instance w') = region (instance w).

Section Runs.
Context {browser : Browser}.

(** Any number of steps. *)
Inductive steps : World -> World -> Prop :=
| steps_none (w : World) : steps w w
| steps_more (w w' w'' : World) : steps w w' -> step w' w'' -> steps w w''.

End Runs.

(** The loops of [querySelectorAll] and [remove] over the children of
    an element, from the child numbered [i] on. *)
Fixpoint selectFrom (sel : selector) (anc : bool) (i : nat) (ks : list Node)
  : list path :=
  match ks with
  | [] => []
  | k :: ks' =>
      ((if matches sel anc k then [[i]] else [])
         ++ map (cons i) (querySelectorAll sel anc k)
         ++ selectFrom sel anc (S i) ks')%list
  end.

Fixpoint removeFrom (ps : list path) (i : nat) (ks : list Node) : list Node :=
  match ks with
  | [] => []
  | k :: ks' =>
      ((if existsb (path_eqb [i]) ps then [] else [remove (below i ps) k])
         ++ removeFrom ps (S i) ks')%list
  end.

(** The first index of every path is at least [i], or below [i]. *)
Definition headsFrom (i : nat) (ps : list path) : Prop :=
  Forall (fun p => match p with [] => False | j :: _ => (i <= j)%nat end) ps.

Definition headsBelow (i : nat) (ps : list path) : Prop :=
  Forall (fun p => match p with [] => True | j :: _ => (j < i)%nat end) ps.

(** One firing of the interval timer in the earlier implementation
    ([src/minimap-old.js]). Its [scrollTop] is the one of the class, with
    the flags held in variables of the enclosing function: the callback
    is a closure over [onSmoothScroll], so its assignment reaches the
    flag whatever the timer binds [this] to. *)
Definition fireEarlier (timer : nat) (w : World) : World :=
  match lookupTimer timer (timers (page w)) with
  | Some t => smoothScroll ThisInstance timer t w
  | None => w
  end.

Fixpoint fireEarlierTimes (n : nat) (timer : nat) (w : World) : World :=
  match n with
  | O => w
  | S k => fireEarlierTimes k timer (fireEarlier timer w)
  end.

(** Two worlds with the same timers and the same scroll offsets. *)
Definition sameTimers (w w' : World) : Prop :=
  timers (page w') = timers (page w)
  /\ nextTimer (page w') = nextTimer (page w)
  /\ scrollX (page w') = scrollX (page w)
  /\ scrollY (page w') = scrollY (page w).

(** The value reads as the finite number [x]: [parseFloat] reads a
    number from its text, and the value converts to [x]. *)
Definition readsAsNumber `{Browser} (v : value) (x : Q) : Prop :=
  isNaN (parseFloat v) = false /\ ToNumber v = Finite x.

(** A string or an object: what can read as a number without being
    one. *)
Definition isCoercible (v : value) : bool :=
  match v with VStr _ | VObj _ _ _ => true | _ => false end.



(** A field the configuration does not know, under a name that
    [propValidators] does not inherit either. *)
Definition unknownField (key : string) : Prop :=
  spec_kind key = None /\ inheritedMember key = None.

End Behaviour.

(* ===================================================================== *)
(** ** Arithmetic of the number model *)
(* ===================================================================== *)

Import JsNumber JsValue Dom Host Validators FindSuppression State MiniMapJs.
Import Spec Sample Behaviour.

Lemma Qred_inject_Z (z : Z) : Qred (inject_Z z) = inject_Z z.
Proof.
  apply Qcanon.Qred_identity. simpl. apply Z.gcd_1_r.
Qed.

Lemma sub_ofZ (a b : Z) : sub (ofZ a) (ofZ b) = ofZ (a - b).
Proof.
  unfold sub, neg, add, ofZ.
  replace (- inject_Z b) with (inject_Z (- b)) by reflexivity.
  rewrite Qred_inject_Z.
  replace (inject_Z a + inject_Z (- b)) with (inject_Z (a * 1 + - b * 1)) by reflexivity.
  rewrite Qred_inject_Z. f_equal. f_equal. lia.
Qed.

Lemma leb_ofZ (a b : Z) : leb (ofZ a) (ofZ b) = (a <=? b)%Z.
Proof.
  unfold leb, ofZ, Qle_bool. simpl. now rewrite !Z.mul_1_r.
Qed.

Lemma Qtrunc_inject_Z (q : Q) (z : Z) : q == inject_Z z -> Qtrunc q = z.
Proof.
  unfold Qeq, Qtrunc. simpl. intros H. rewrite Z.mul_1_r in H. rewrite H.
  apply Z.quot_mul. discriminate.
Qed.

Lemma Qtrunc_floor (q : Q) : 0 <= q -> Qtrunc q = Qfloor q.
Proof.
  destruct q as [n d]. unfold Qle, Qtrunc, Qfloor. simpl. intros H.
  rewrite Z.mul_1_r in H. apply Z.quot_div_nonneg; lia.
Qed.

Lemma wrap32_range (z : Z) : (- 2 ^ 31 <= wrap32 z < 2 ^ 31)%Z.
Proof.
  unfold wrap32.
  pose proof (Z.mod_pos_bound z (2 ^ 32) ltac:(lia)) as B.
  destruct (z mod 2 ^ 32 <? 2 ^ 31)%Z eqn:E.
  - apply Z.ltb_lt in E. lia.
  - apply Z.ltb_ge in E. lia.
Qed.

Lemma wrap32_small (z : Z) : (- 2 ^ 31 <= z < 2 ^ 31)%Z -> wrap32 z = z.
Proof.
  intros H. unfold wrap32.
  destruct (Z_lt_le_dec z 0) as [Hneg | Hpos].
  - assert (E : (z mod 2 ^ 32 = z + 2 ^ 32)%Z).
    { symmetry. apply Z.mod_unique_pos with (q := (-1)%Z); lia. }
    rewrite E. destruct (z + 2 ^ 32 <? 2 ^ 31)%Z eqn:L.
    + apply Z.ltb_lt in L. lia.
    + lia.
  - rewrite Z.mod_small by lia.
    destruct (z <? 2 ^ 31)%Z eqn:L; [reflexivity | apply Z.ltb_ge in L; lia].
Qed.

(* ===================================================================== *)
(** ** The validator of [smoothScrollDelay] *)
(* ===================================================================== *)

Section SmoothScrollDelay.
Context {browser : Browser}.

(** What the validator accepts is a finite number. *)
Lemma validDelay_number (v : value) :
  isOk (validate_smoothScrollDelay v) = true ->
  exists d, v = VNum (Finite d)
            /\ Qeq_bool (inject_Z (wrap32 (Qtrunc d))) d = true
            /\ Qle_bool (inject_Z 4) d = true.
Proof.
  unfold validate_smoothScrollDelay, invalid, strict_neq, lessThan, bitor0.
  destruct v as [ | | b | n | s | f | i s n]; simpl; try discriminate.
  destruct n as [d | | | ]; simpl; try discriminate.
  destruct (Qeq_bool (inject_Z (wrap32 (Qtrunc d))) d) eqn:E; simpl; try discriminate.
  destruct (Qle_bool (inject_Z 4) d) eqn:L; simpl; try discriminate.
  intros _. exists d. auto.
Qed.

Lemma validDelay_at_least_4 (v : value) :
  isOk (validate_smoothScrollDelay v) = true ->
  exists d, ToNumber v = Finite d /\ 4 <= d.
Proof.
  intros H. destruct (validDelay_number v H) as (d & -> & _ & L).
  exists d. split; [reflexivity | ]. apply Qle_bool_iff in L. exact L.
Qed.


End SmoothScrollDelay.

(** C5 (as stated, refuted): 2147483648 is an integer greater than or
    equal to 4, and the validator throws on it. *)
Lemma smoothScrollDelay_rejects_large_integer :
  spec_validDelay (VNum (ofZ 2147483648)) = true
  /\ @validate_smoothScrollDelay sampleBrowser (VNum (ofZ 2147483648))
     = Throw (Error [Lit "Invalid smoothScrollDelay(in ms): ";
                     Shown (VNum (ofZ 2147483648))]).
Proof.
  split; vm_compute; reflexivity.
Qed.

(** C5 (amended): the validator of [smoothScrollDelay] accepts a value if
    and only if it is a number that is an integer between 4 and
    2147483647; it throws on 3, 4.5 and -5 and accepts 4 and 500. *)
Theorem smoothScrollDelay_accepts_int32_from_4 (browser : Browser) :
  (forall v : value,
      isOk (validate_smoothScrollDelay v) = true
      <-> exists d z, v = VNum (Finite d) /\ d == inject_Z z
                      /\ (4 <= z <= 2147483647)%Z)
  /\ isOk (validate_smoothScrollDelay (VNum (ofZ 3))) = false
  /\ isOk (validate_smoothScrollDelay (VNum (q 9 2))) = false
  /\ isOk (validate_smoothScrollDelay (VNum (ofZ (-5)))) = false
  /\ validate_smoothScrollDelay (VNum (ofZ 4)) = Ok tt
  /\ validate_smoothScrollDelay (VNum (ofZ 500)) = Ok tt.
Proof.
  split; [ | repeat split; reflexivity].
  intros v. split.
  - intros H. destruct (validDelay_number v H) as (d & -> & E & L).
    apply Qeq_bool_iff in E. apply Qle_bool_iff in L.
    exists d, (wrap32 (Qtrunc d)). split; [reflexivity | ].
    split; [symmetry; exact E | ].
    pose proof (wrap32_range (Qtrunc d)) as R.
    rewrite <- E in L. rewrite <- Zle_Qle in L. lia.
  - intros (d & z & -> & E & R).
    unfold validate_smoothScrollDelay, invalid, strict_neq, lessThan, bitor0.
    simpl. rewrite (Qtrunc_inject_Z d z E), wrap32_small by lia.
    assert (E1 : Qeq_bool (inject_Z z) d = true)
      by (apply Qeq_bool_iff; symmetry; exact E).
    assert (L1 : Qle_bool (inject_Z 4) d = true).
    { apply Qle_bool_iff. rewrite E. rewrite <- Zle_Qle. lia. }
    rewrite E1, L1. reflexivity.
Qed.

(* ===================================================================== *)
(** ** The find-suppression transform *)
(* ===================================================================== *)

Section FindSuppressionFacts.

Lemma string_app_assoc (a b c : string) : (a ++ b) ++ c = a ++ (b ++ c).
Proof.
  induction a as [ | x a IH]; simpl; [reflexivity | now rewrite IH].
Qed.

Lemma string_app_nil_r (a : string) : a ++ "" = a.
Proof.
  induction a as [ | x a IH]; simpl; [reflexivity | now rewrite IH].
Qed.

Lemma render_app (l1 l2 : list appended) :
  render (l1 ++ l2) = render l1 ++ render l2.
Proof.
  induction l1 as [ | a l1 IH]; simpl; [reflexivity | ].
  now rewrite IH, string_app_assoc.
Qed.

(** The loop on strings appends exactly what the loop on pieces lists. *)
Lemma rewriteFrom_render (html : string) :
  forall stop newHTML,
    rewriteFrom html stop newHTML = newHTML ++ render (appendedFrom html stop).
Proof.
  induction html as [ | c rest IH]; intros stop newHTML; simpl.
  - now rewrite string_app_nil_r.
  - rewrite IH.
    destruct (Ascii.eqb c "<"), (Ascii.eqb c ">"), stop, (Ascii.eqb c " ");
      simpl; rewrite ?string_app_assoc; simpl; reflexivity.
Qed.

Lemma nonDecoy_doubles (html : string) :
  forall stop, nonDecoy (appendedFrom html stop) = doubleSpaces html.
Proof.
  induction html as [ | c rest IH]; intros stop; simpl; [reflexivity | ].
  destruct (negb _), (Ascii.eqb c " "); simpl; now rewrite IH.
Qed.

Lemma afterSource_appended (html : string) :
  forall stop i c,
    String.get i html = Some c ->
    afterSource (appendedFrom html stop) i = followers (stopAfter html stop i) c.
Proof.
  induction html as [ | x rest IH]; intros stop i c Hget; [discriminate | ].
  destruct i as [ | i].
  - simpl in Hget. injection Hget as ->. unfold stopAfter, followers. simpl.
    assert (Hhead : forall b, upToSource (appendedFrom rest b) = [])
      by (intros b; destruct rest; reflexivity).
    destruct (Ascii.eqb c "<"), (Ascii.eqb c ">"), stop, (Ascii.eqb c " ");
      simpl; rewrite ?Hhead; reflexivity.
  - simpl in Hget.
    assert (Hstep : stopAfter (String x rest) stop (S i)
                    = stopAfter rest
                        (if Ascii.eqb x ">" then false
                         else if Ascii.eqb x "<" then true else stop) i)
      by reflexivity.
    rewrite Hstep, <- (IH _ i c Hget). simpl.
    destruct (Ascii.eqb x "<"), (Ascii.eqb x ">"), stop, (Ascii.eqb x " ");
      reflexivity.
Qed.

(** [stopAfter] decides [InTag], up to a tag left open before the
    markup starts. *)
Lemma stopAfter_spec (html : string) :
  forall open i c,
    String.get i html = Some c ->
    (stopAfter html open i = true
     <-> InTag html i
         \/ (open = true
             /\ forall k, (k <= i)%nat -> String.get k html <> Some ">"%char)).
Proof.
  induction html as [ | x rest IH]; intros open i c Hget; [discriminate | ].
  destruct i as [ | i].
  - unfold stopAfter. simpl. split.
    + destruct (Ascii.eqb_spec x ">") as [-> | Hgt]; [discriminate | ].
      destruct (Ascii.eqb_spec x "<") as [-> | Hlt].
      * intros _. left. exists O. repeat split; [lia | ]. intros k Hk. lia.
      * intros ->. right. split; [reflexivity | ].
        intros k Hk. assert (k = O) by lia. subst k. simpl. congruence.
    + intros [(j & Hj & Hlt & _) | (-> & Hno)].
      * assert (j = O) by lia. subst j. simpl in Hlt. injection Hlt as ->.
        reflexivity.
      * specialize (Hno O (Nat.le_refl _)). simpl in Hno.
        destruct (Ascii.eqb_spec x ">") as [-> | _]; [congruence | ].
        destruct (Ascii.eqb x "<"); reflexivity.
  - simpl in Hget.
    change (stopAfter (String x rest) open (S i))
      with (stopAfter rest
              (if Ascii.eqb x ">" then false
               else if Ascii.eqb x "<" then true else open) i).
    rewrite (IH _ i c Hget). split.
    + intros [(j & Hj & Hlt & Hno) | (Hopen & Hno)].
      * left. exists (S j). repeat split; [lia | exact Hlt | ].
        intros k Hk. destruct k as [ | k]; [lia | ]. simpl. apply Hno. lia.
      * destruct (Ascii.eqb_spec x ">") as [-> | Hgt]; [discriminate | ].
        destruct (Ascii.eqb_spec x "<") as [-> | Hlt].
        -- left. exists O. repeat split; [lia | ].
           intros k Hk. destruct k as [ | k]; [lia | ]. simpl. apply Hno. lia.
        -- right. split; [exact Hopen | ].
           intros k Hk. destruct k as [ | k]; simpl; [congruence | ].
           apply Hno. lia.
    + intros [(j & Hj & Hlt & Hno) | (-> & Hno)].
      * destruct j as [ | j].
        -- simpl in Hlt. injection Hlt as ->. right. simpl. split; [reflexivity | ].
           intros k Hk. apply (Hno (S k)). lia.
        -- left. exists j. repeat split; [lia | exact Hlt | ].
           intros k Hk. apply (Hno (S k)). lia.
      * right. pose proof (Hno O (Nat.le_0_l _)) as H0. simpl in H0.
        destruct (Ascii.eqb_spec x ">") as [-> | _]; [congruence | ].
        split; [destruct (Ascii.eqb x "<"); reflexivity | ].
        intros k Hk. apply (Hno (S k)). lia.
Qed.

Lemma InTag_decided (html : string) (i : nat) (c : ascii) :
  String.get i html = Some c ->
  (stopAfter html false i = true <-> InTag html i).
Proof.
  intros Hget. rewrite (stopAfter_spec html false i c Hget).
  split; [intros [H | (H & _)]; [exact H | discriminate] | auto].
Qed.

Lemma countDecoys_outside (html : string) :
  forall stop,
    countDecoys (appendedFrom html stop)
    = List.length (filter negb (insideTag html stop)).
Proof.
  induction html as [ | c rest IH]; intros stop; simpl; [reflexivity | ].
  destruct (Ascii.eqb c "<"), (Ascii.eqb c ">"), stop, (Ascii.eqb c " ");
    simpl; rewrite IH; reflexivity.
Qed.

End FindSuppressionFacts.

(** C9 (as stated, refuted): in ["a b"] the space receives a decoy and is
    written twice, so the characters that are not part of a decoy do not
    read back as the markup; and the tag ["<a b>"] is not passed through
    unmodified. *)
Lemma disableFind_decorates_and_doubles_spaces :
  rewriteHTML "a b" = "a" ++ decoy ++ " " ++ decoy ++ " " ++ "b" ++ decoy
  /\ afterSource (appendedFrom "a b" false) 1 = [Decoy; ExtraSpace]
  /\ nonDecoy (appendedFrom "a b" false) <> "a b"
  /\ rewriteHTML "<a b>" = "<a  b>" ++ decoy.
Proof.
  repeat split; try reflexivity. vm_compute. discriminate.
Qed.

(** C9 (amended): the transform appends, after each character of the
    markup, one decoy unless the character lies inside a tag (from a ['<']
    up to the character before the next ['>']), and then one more space if
    the character is a space, inside a tag or not; so the characters of
    the output that are not part of a decoy read back as the markup with
    every space doubled. *)
Theorem disableFind_decoys_and_doubled_spaces (html : string) :
  rewriteHTML html = render (appendedFrom html false)
  /\ nonDecoy (appendedFrom html false) = doubleSpaces html
  /\ (forall i c,
         String.get i html = Some c ->
         (InTag html i ->
          afterSource (appendedFrom html false) i = followers true c)
         /\ (~ InTag html i ->
             afterSource (appendedFrom html false) i = followers false c)).
Proof.
  split; [ | split].
  - unfold rewriteHTML. now rewrite rewriteFrom_render.
  - apply nonDecoy_doubles.
  - intros i c Hget. rewrite (afterSource_appended html false i c Hget).
    pose proof (InTag_decided html i c Hget) as D.
    destruct (stopAfter html false i).
    + split; [reflexivity | ]. intros N. exfalso. apply N, D. reflexivity.
    + split; [ | reflexivity]. intros I. apply D in I. discriminate.
Qed.

(** The theorem at the markup ["<b>a c"]: nothing follows the [b] of the
    tag, a decoy follows the ['>'], and a decoy and a space follow the
    space. *)
Lemma disableFind_decoys_and_doubled_spaces_witness :
  afterSource (appendedFrom "<b>a c" false) 1 = []
  /\ afterSource (appendedFrom "<b>a c" false) 2 = [Decoy]
  /\ afterSource (appendedFrom "<b>a c" false) 4 = [Decoy; ExtraSpace]
  /\ nonDecoy (appendedFrom "<b>a c" false) = "<b>a  c".
Proof.
  destruct (disableFind_decoys_and_doubled_spaces "<b>a c") as (_ & H2 & H3).
  split; [ | split; [ | split]].
  - apply (H3 1%nat "b"%char eq_refl).
    exists 0%nat. split; [lia | ]. split; [reflexivity | ].
    intros k Hk. assert (k = 1%nat) by lia. subst k. discriminate.
  - apply (H3 2%nat ">"%char eq_refl).
    intros (j & Hj & Hlt & Hno).
    destruct j as [ | [ | [ | j]]]; try discriminate; try lia.
    apply (Hno 2%nat); [lia | reflexivity].
  - apply (H3 4%nat " "%char eq_refl).
    intros (j & Hj & Hlt & Hno).
    destruct j as [ | [ | [ | [ | [ | j]]]]]; try discriminate; try lia.
    apply (Hno 2%nat); [lia | reflexivity].
  - exact H2.
Defined.

(* ===================================================================== *)
(** ** The step parameters of the animated scroll *)
(* ===================================================================== *)

Lemma Qzero_iff (x : Q) : Qzero x = true <-> x == 0.
Proof.
  unfold Qzero, Qeq. simpl. rewrite Z.eqb_eq. lia.
Qed.

Lemma Qzero_false (x : Q) : ~ x == 0 -> Qzero x = false.
Proof.
  intros H. destruct (Qzero x) eqn:E; [ | reflexivity].
  apply Qzero_iff in E. contradiction.
Qed.

Lemma Qle_bool_false_iff (x y : Q) : Qle_bool x y = false <-> y < x.
Proof.
  split.
  - intros H. apply Qnot_le_lt. intro Hle. apply Qle_bool_iff in Hle. congruence.
  - intros H. destruct (Qle_bool x y) eqn:E; [ | reflexivity].
    apply Qle_bool_iff in E. lra.
Qed.

(** A number that is zero, or of a magnitude from [1e-6] up to, and not
    including, [1e21], prints without exponent. *)
Lemma printsWithExponent_plain (x : Q) :
  x == 0 \/ (1 # 1000000 <= Qabs x /\ Qabs x < inject_Z (10 ^ 21)) ->
  printsWithExponent x = false.
Proof.
  unfold printsWithExponent. intros [H | [Hl Hu]].
  - apply Qzero_iff in H. now rewrite H.
  - apply Qle_bool_iff in Hl. apply Qle_bool_false_iff in Hu.
    rewrite Hl, Hu. now rewrite Bool.andb_false_r.
Qed.


Lemma readInt_plain (x : Q) : printsWithExponent x = false -> readInt x = Qtrunc x.
Proof.
  intros H. unfold readInt. now rewrite H.
Qed.







Section StepParameters.

Lemma Qpositive_iff (x : Q) : Qpositive x = true <-> 0 < x.
Proof.
  unfold Qpositive, Qlt. simpl. rewrite Z.ltb_lt. lia.
Qed.

Lemma div_finite (x y : Q) :
  ~ y == 0 -> div (Finite x) (Finite y) = Finite (Qred (x / y)).
Proof.
  intros H. unfold div. now rewrite (Qzero_false y H).
Qed.

Lemma div_by_zero (x y : Q) :
  0 < x -> y == 0 -> div (Finite x) (Finite y) = PosInf.
Proof.
  intros Hx Hy. unfold div.
  apply Qzero_iff in Hy. rewrite Hy.
  rewrite Qzero_false by lra.
  apply Qpositive_iff in Hx. now rewrite Hx.
Qed.

Lemma geb_finite (r : Q) (z : Z) : geb (Finite r) (ofZ z) = Qle_bool (inject_Z z) r.
Proof. reflexivity. Qed.

(** On a number that is not negative and prints without exponent,
    [parseInt] is [Math.floor]. *)
Lemma parseInt_floor (x : Q) :
  0 <= x -> printsWithExponent x = false ->
  parseInt (Finite x) = Math_floor (Finite x).
Proof.
  intros H P. unfold parseInt, Math_floor.
  now rewrite (readInt_plain x P), Qtrunc_floor.
Qed.

Lemma Qfloor_ge_1 (r : Q) : 1 <= r -> (1 <= Qfloor r)%Z.
Proof.
  intros H. change 1%Z with (Qfloor 1). now apply Qfloor_resp_le.
Qed.

Lemma Qfloor_below_4 (r : Q) : r < 4 -> (Qfloor r <= 3)%Z.
Proof.
  intros H. pose proof (Qfloor_le r) as F.
  assert (Hq : inject_Z (Qfloor r) < inject_Z 4) by (change (inject_Z 4) with 4; lra).
  rewrite <- Zlt_Qlt in Hq. lia.
Qed.

(** With a delay of at least 4 and a distance that is not negative,
    the code and the specification compute the same step and interval,
    and the number of steps is read, by [parseInt] in the code and by
    [Math.floor] in the specification, from a number [x] that is the
    distance itself when the distance is below [1e-6], and is at least
    [1e-6] otherwise; it never exceeds the delay. The step is a positive
    number, and [x] times the step is the distance. *)
Lemma stepParameters_shape (d dist : Q) :
  4 <= d -> 0 <= dist ->
  exists u i x,
    stepParameters (Finite d) (Finite dist) = (u, i, parseInt (Finite x))
    /\ spec_stepParameters (Finite d) (Finite dist) = (u, i, Math_floor (Finite x))
    /\ 0 <= x
    /\ x <= d
    /\ (dist < 1 # 1000000 -> u = ofZ 1 /\ i = ofZ 1 /\ x == dist)
    /\ (1 # 1000000 <= dist -> 1 # 1000000 <= x)
    /\ (exists step, u = Finite step /\ 0 < step /\ x * step == dist).
Proof.
  intros Hd Hdist.
  assert (Hone : forall y, div (Finite y) (ofZ 1) = Finite (Qred (y / 1))
                           /\ Qred (y / 1) == y).
  { intros y. split; [reflexivity | ]. rewrite Qred_correct. field. }
  unfold stepParameters, spec_stepParameters.
  destruct (Qeq_dec dist 0) as [Hz | Hnz].
  - rewrite (div_by_zero d dist) by (lra || assumption).
    change (geb PosInf (ofZ 4)) with true. cbv iota.
    change (parseInt (ofZ 1)) with (ofZ 1).
    destruct (Hone dist) as [E Hx]. rewrite E.
    exists (ofZ 1), (ofZ 1), (Qred (dist / 1)).
    split; [reflexivity | ]. split; [reflexivity | ].
    split; [lra | ]. split; [lra | ]. split; [auto | ]. split; [intros; lra | ].
    exists 1. split; [reflexivity | ]. split; lra.
  - rewrite (div_finite d dist Hnz).
    set (r := Qred (d / dist)).
    assert (Er : r * dist == d).
    { unfold r. rewrite Qred_correct. field. exact Hnz. }
    assert (Hr : 0 < r).
    { unfold r. rewrite Qred_correct. apply Qlt_shift_div_l; lra. }
    rewrite !geb_finite.
    destruct (Qle_bool (inject_Z 4) r) eqn:G4.
    + apply Qle_bool_iff in G4. change (inject_Z 4) with 4 in G4.
      cbv iota. change (parseInt (ofZ 1)) with (ofZ 1).
      destruct (Hone dist) as [E Hx]. rewrite E.
      exists (ofZ 1), (ofZ 1), (Qred (dist / 1)).
      split; [reflexivity | ]. split; [reflexivity | ].
      split; [lra | ]. split; [nra | ]. split; [auto | ]. split; [intros; lra | ].
      exists 1. split; [reflexivity | ]. split; lra.
    + apply Qle_bool_false_iff in G4. change (inject_Z 4) with 4 in G4.
      destruct (Qle_bool (inject_Z 1) r) eqn:G1.
      * apply Qle_bool_iff in G1. change (inject_Z 1) with 1 in G1. cbv iota.
        assert (Pr : printsWithExponent r = false).
        { apply printsWithExponent_plain. right. rewrite Qabs_pos by lra.
          split; [lra | ]. apply Qlt_trans with 4; [exact G4 | reflexivity]. }
        rewrite (parseInt_floor r) by (lra || exact Pr).
        change (Math_floor (Finite r)) with (ofZ (Qfloor r)).
        change (mul (ofZ (Qfloor r)) (ofZ 4))
          with (Finite (Qred (inject_Z (Qfloor r) * inject_Z 4))).
        set (u := Qred (inject_Z (Qfloor r) * inject_Z 4)).
        pose proof (Qfloor_ge_1 r G1) as F1.
        pose proof (Qfloor_below_4 r G4) as F3.
        assert (Eu : u == inject_Z (Qfloor r) * 4).
        { unfold u. rewrite Qred_correct. reflexivity. }
        assert (Hu4 : 4 <= u).
        { rewrite Eu. rewrite Zle_Qle in F1. change (inject_Z 1) with 1 in F1. lra. }
        assert (Hu12 : u <= 12).
        { rewrite Eu. rewrite Zle_Qle in F3. change (inject_Z 3) with 3 in F3. lra. }
        rewrite (div_finite dist u) by lra.
        exists (Finite u), (Finite (inject_Z 4)), (Qred (dist / u)).
        split; [reflexivity | split; [reflexivity | ]].
        assert (Ex : Qred (dist / u) * u == dist).
        { rewrite Qred_correct. field. lra. }
        set (x := Qred (dist / u)) in *.
        assert (Hx0 : 0 <= x).
        { unfold x. rewrite Qred_correct. apply Qle_shift_div_l; lra. }
        split; [exact Hx0 | ].
        split; [nra | ].
        split; [intros Hs; exfalso; nra | ].
        split; [intros _; nra | ].
        exists u. split; [reflexivity | ]. split; [lra | exact Ex].
      * apply Qle_bool_false_iff in G1. change (inject_Z 1) with 1 in G1. cbv iota.
        change (div (ofZ 4) (Finite r)) with (div (Finite (inject_Z 4)) (Finite r)).
        rewrite (div_finite (inject_Z 4) r) by lra.
        set (u := Qred (inject_Z 4 / r)).
        assert (Eu : u * r == 4).
        { unfold u. rewrite Qred_correct. change (inject_Z 4) with 4. field. lra. }
        assert (Hu : 4 < u) by nra.
        rewrite (div_finite dist u) by lra.
        exists (Finite u), (ofZ 4), (Qred (dist / u)).
        split; [reflexivity | split; [reflexivity | ]].
        assert (Ex : Qred (dist / u) * u == dist).
        { rewrite Qred_correct. field. lra. }
        set (x := Qred (dist / u)) in *.
        assert (Hx0 : 0 <= x).
        { unfold x. rewrite Qred_correct. apply Qle_shift_div_l; lra. }
        assert (Ex4 : x * 4 == d).
        { assert (E1 : x * u * r == d) by (rewrite Ex, Qmult_comm; exact Er).
          assert (E2 : x * u * r == x * (u * r)) by ring.
          rewrite E2, Eu in E1. exact E1. }
        split; [exact Hx0 | ].
        split; [lra | ].
        split; [intros Hs; exfalso; nra | ].
        split; [intros _; lra | ].
        exists u. split; [reflexivity | ]. split; [lra | exact Ex].
Qed.

(** Line 532 returns the target it is given, whatever the bound. *)
Lemma clampTarget_finite (t m : Q) : clampTarget (Finite t) (Finite m) = Finite t.
Proof.
  unfold clampTarget, Math_min. cbn.
  destruct (Qle_bool t m) eqn:E; cbn.
  - destruct (Qle_bool t t); reflexivity.
  - now rewrite E.
Qed.

End StepParameters.

(* ===================================================================== *)
(** ** The interval timer of the animated scroll *)
(* ===================================================================== *)

Section Timers.

Lemma lookupTimer_storeTimer (id : nat) (t T : Timer) (ts : list (nat * Timer)) :
  lookupTimer id ts = Some T -> lookupTimer id (storeTimer id t ts) = Some t.
Proof.
  induction ts as [ | [i x] ts IH]; simpl; [discriminate | ].
  destruct (Nat.eqb i id) eqn:E; simpl.
  - intros _. now rewrite Nat.eqb_refl.
  - rewrite E. exact IH.
Qed.

Lemma lookupTimer_cleared (id : nat) (ts : list (nat * Timer)) :
  lookupTimer id (filter (fun it => negb (Nat.eqb (fst it) id)) ts) = None.
Proof.
  induction ts as [ | [i x] ts IH]; simpl; [reflexivity | ].
  destruct (Nat.eqb i id) eqn:E; simpl; [exact IH | ].
  now rewrite E.
Qed.

Lemma lookupTimer_added (id : nat) (t : Timer) (ts : list (nat * Timer)) :
  lookupTimer id ts = None -> lookupTimer id (ts ++ [(id, t)]) = Some t.
Proof.
  induction ts as [ | [i x] ts IH]; simpl.
  - intros _. now rewrite Nat.eqb_refl.
  - destruct (Nat.eqb i id); [discriminate | exact IH].
Qed.

Lemma lookupTimer_below (id bound : nat) (ts : list (nat * Timer)) :
  Forall (fun it => (fst it < bound)%nat) ts -> (bound <= id)%nat ->
  lookupTimer id ts = None.
Proof.
  induction 1 as [ | [i x] ts Hi _ IH]; intros Hb; simpl; [reflexivity | ].
  simpl in Hi. destruct (Nat.eqb_spec i id); [lia | auto].
Qed.

(** Timers numbered in order leave the next number free. *)
Lemma timersBelow_fresh (w : World) : timersBelow w -> freshTimer w.
Proof.
  intros H. apply (lookupTimer_below _ (nextTimer (page w))); [exact H | lia].
Qed.

Lemma setInterval_timersBelow (t : Timer) (w : World) :
  timersBelow w -> timersBelow (fst (setInterval t w)).
Proof.
  unfold timersBelow. simpl. intros H. apply Forall_app. split.
  - eapply Forall_impl; [ | exact H]. simpl. intros; lia.
  - constructor; [simpl; lia | constructor].
Qed.

Lemma fire_timersBelow (timer : nat) (w : World) :
  timersBelow w -> timersBelow (fire timer w).
Proof.
  unfold timersBelow, fire. intros H.
  destruct (lookupTimer timer (timers (page w))) as [T | ]; [ | exact H].
  unfold smoothScroll.
  assert (Hs : forall t',
             Forall (fun it => (fst it < nextTimer (page w))%nat)
                    (storeTimer timer t' (timers (page w)))).
  { intros t'. unfold storeTimer. apply Forall_map.
    eapply Forall_impl; [ | exact H]. intros [i x] Hi. simpl in *.
    destruct (Nat.eqb_spec i timer); simpl; lia. }
  destruct (leb _ _); cbn.
  - apply Forall_forall. intros it Hin. apply filter_In in Hin.
    destruct Hin as [Hin _]. revert it Hin. apply Forall_forall. apply Hs.
  - apply Hs.
Qed.

(** A firing never touches the instance: the callback writes its flag
    on the window. *)
Lemma fire_keeps_instance (timer : nat) (w : World) :
  instance (fire timer w) = instance w.
Proof.
  unfold fire. destruct (lookupTimer timer (timers (page w))) as [T | ];
    [ | reflexivity].
  unfold smoothScroll. destruct (leb _ _); reflexivity.
Qed.

Lemma fireTimes_keeps_instance (n timer : nat) (w : World) :
  instance (fireTimes n timer w) = instance w.
Proof.
  revert w. induction n as [ | n IH]; intros w; simpl; [reflexivity | ].
  now rewrite IH, fire_keeps_instance.
Qed.

(** A firing with more than one step left counts one step down. *)
Lemma fire_counts_down (timer : nat) (w : World) (T : Timer) (z : Z) :
  lookupTimer timer (timers (page w)) = Some T ->
  count T = ofZ z ->
  (1 < z)%Z ->
  exists T',
    lookupTimer timer (timers (page (fire timer w))) = Some T'
    /\ count T' = ofZ (z - 1)
    /\ target T' = target T.
Proof.
  intros Hl Hc Hz. unfold fire. rewrite Hl. unfold smoothScroll.
  rewrite Hc, sub_ofZ, leb_ofZ.
  destruct (z - 1 <=? 0)%Z eqn:E; [apply Z.leb_le in E; lia | ].
  eexists. split; [ | split].
  - cbn. apply (lookupTimer_storeTimer _ _ T). exact Hl.
  - reflexivity.
  - reflexivity.
Qed.

(** The firing with the last step clears the timer and scrolls to the
    target. *)
Lemma fire_last_step (timer : nat) (w : World) (T : Timer) (z : Z) :
  lookupTimer timer (timers (page w)) = Some T ->
  count T = ofZ z ->
  (z <= 1)%Z ->
  lookupTimer timer (timers (page (fire timer w))) = None
  /\ scrollY (page (fire timer w)) = target T.
Proof.
  intros Hl Hc Hz. unfold fire. rewrite Hl. unfold smoothScroll.
  rewrite Hc, sub_ofZ, leb_ofZ.
  destruct (z - 1 <=? 0)%Z eqn:E; [ | apply Z.leb_gt in E; lia].
  split; [ | reflexivity].
  cbn. apply lookupTimer_cleared.
Qed.




(** From [z] steps left, the timer runs for [max 1 z] firings, counting
    down by one each time, and the last one leaves the target as the
    scroll offset. *)
Lemma fireTimes_reaches_target (timer : nat) :
  forall (k : nat) (w : World) (T : Timer) (z : Z),
    lookupTimer timer (timers (page w)) = Some T ->
    count T = ofZ z ->
    Z.max 1 z = Z.of_nat (S k) ->
    (forall j, (j <= k)%nat ->
               exists Tj,
                 lookupTimer timer (timers (page (fireTimes j timer w))) = Some Tj
                 /\ count Tj = ofZ (z - Z.of_nat j))
    /\ lookupTimer timer (timers (page (fireTimes (S k) timer w))) = None
    /\ scrollY (page (fireTimes (S k) timer w)) = target T.
Proof.
  induction k as [ | k IH]; intros w T z Hl Hc Hmax.
  - split.
    + intros j Hj. assert (j = O) by lia. subst j. exists T. split; [exact Hl | ].
      rewrite Hc. f_equal. simpl. lia.
    + apply (fire_last_step timer w T z Hl Hc). lia.
  - assert (Hz : (1 < z)%Z) by lia.
    destruct (fire_counts_down timer w T z Hl Hc Hz) as (T' & Hl' & Hc' & Ht').
    destruct (IH (fire timer w) T' (z - 1)%Z Hl' Hc' ltac:(lia)) as (Hrun & Hend & Hy).
    split; [ | split].
    + intros j Hj. destruct j as [ | j].
      * exists T. split; [exact Hl | ]. rewrite Hc. f_equal. simpl. lia.
      * destruct (Hrun j ltac:(lia)) as (Tj & Hlj & Hcj).
        exists Tj. split; [exact Hlj | ]. rewrite Hcj. f_equal. lia.
    + exact Hend.
    + rewrite <- Ht'. exact Hy.
Qed.



End Timers.

(* ===================================================================== *)
(** ** [scrollTop] *)
(* ===================================================================== *)

Section ScrollTop.
Context {browser : Browser}.

Lemma scrollTop_hidden (w : World) (e : Event) :
  shown (instance w) = false -> scrollTop w e = (w, e).
Proof.
  intros H. unfold scrollTop. now rewrite H.
Qed.

Lemma scrollTop_click (w : World) (e : Event) :
  shown (instance w) = true ->
  type e = "click" ->
  truthy (setting w "smoothScroll") = true ->
  scrollTop w e = (fst (startSmoothScroll (scrollTarget w e) w), stopPropagation e).
Proof.
  intros Hs Ht Hsm. unfold scrollTop. now rewrite Hs, Ht, Hsm.
Qed.

Lemma distance_nonneg (c t : Q) :
  exists dist, JsNumber.abs (sub (Finite c) (Finite t)) = Finite dist /\ 0 <= dist.
Proof.
  eexists. split; [reflexivity | apply Qabs_nonneg].
Qed.


(** The timer an animated scroll registers, for a finite offset, target
    and source height, and a valid delay. *)
Lemma startSmoothScroll_timer (w : World) (c t m : Q) :
  isOk (validate_smoothScrollDelay (setting w "smoothScrollDelay")) = true ->
  scrollY (page w) = Finite c ->
  outerHeight (page w) (baseElement (instance w)) = Finite m ->
  freshTimer w ->
  exists u i x dist,
    JsNumber.abs (sub (Finite c) (Finite t)) = Finite dist
    /\ stepParameters (ToNumber (setting w "smoothScrollDelay")) (Finite dist)
       = (u, i, ofZ (readInt x))
    /\ 0 <= x
    /\ lookupTimer (nextTimer (page w))
         (timers (page (fst (startSmoothScroll (Finite t) w))))
       = Some {| next := Finite c; count := ofZ (readInt x);
                 direction := gtb (Finite t) (Finite c);
                 unitScroll := u; target := Finite t; unitDelay := i |}
    /\ onSmoothScroll (instance (fst (startSmoothScroll (Finite t) w))) = true.
Proof.
  intros Hv Hy Hm Hfresh.
  destruct (validDelay_at_least_4 _ Hv) as (d & Hd & Hd4).
  destruct (distance_nonneg c t) as (dist & Hdist & Hpos).
  destruct (stepParameters_shape d dist Hd4 Hpos) as (u & i & x & Hp & _ & Hx & _).
  exists u, i, x, dist. split; [exact Hdist | ].
  rewrite Hd. split; [exact Hp | ]. split; [exact Hx | ].
  unfold startSmoothScroll. rewrite Hy, Hm, clampTarget_finite, Hd, Hdist, Hp.
  split; [ | reflexivity].
  cbn. apply lookupTimer_added. exact Hfresh.
Qed.


End ScrollTop.







(** The animated scroll of the specification's example, run on the sample
    page: 49 firings leave the offset at 980 with the timer registered,
    the 50th clears the timer and leaves 1000. *)
Example animated_scroll_0_to_1000 :
  let w1 := fst (@scrollTop sampleBrowser shownWorld (mouse "click" 151)) in
  map (fun it => (count (snd it), unitScroll (snd it), unitDelay (snd it)))
      (timers (page w1))
  = [(ofZ 50, ofZ 20, ofZ 4)]
  /\ scrollY (page (fireTimes 49 O w1)) = Finite 980
  /\ running O (fireTimes 49 O w1) = true
  /\ scrollY (page (fireTimes 50 O w1)) = Finite 1000
  /\ timers (page (fireTimes 50 O w1)) = [].
Proof.
  cbv zeta. repeat (match goal with |- _ /\ _ => split end); vm_compute; reflexivity.
Qed.

(** C1 (the code at the failing input): on the sample page the source is
    3600 high; a click at height 500 aims at 4490 and a click at height
    10 at -410, and each animation is registered with, and ends on, that
    offset: nothing brings it into the interval from 0 to 3600. *)
Theorem click_target_is_not_clamped :
  @outerHeight sampleBrowser (page shownWorld) (baseElement (instance shownWorld))
  = Finite 3600
  /\ (let w1 := fst (@scrollTop sampleBrowser shownWorld (mouse "click" 500)) in
      map (fun it => target (snd it)) (timers (page w1)) = [Finite 4490]
      /\ scrollY (page (fireTimes 50 O w1)) = Finite 4490
      /\ timers (page (fireTimes 50 O w1)) = [])
  /\ (let w1 := fst (@scrollTop sampleBrowser shownWorld (mouse "click" 10)) in
      map (fun it => target (snd it)) (timers (page w1)) = [Finite (-410)]
      /\ scrollY (page (fireTimes 50 O w1)) = Finite (-410)
      /\ timers (page (fireTimes 50 O w1)) = []).
Proof.
  cbv zeta. repeat (match goal with |- _ /\ _ => split end); vm_compute; reflexivity.
Qed.

(** C2 (the code at the failing input): the animation of the sample click
    sets the flag of the instance; its last firing clears the timer and
    writes [onSmoothScroll = false] on the window, the flag of the
    instance stays true, and a drag move that follows is ignored. *)
Theorem onSmoothScroll_stays_set_after_the_animation :
  let w1 := fst (@scrollTop sampleBrowser shownWorld (mouse "click" 151)) in
  let w2 := fireTimes 50 O w1 in
  let w3 := _genOnMouseDownHandler w2 in
  onSmoothScroll (instance w1) = true
  /\ timers (page w2) = []
  /\ scrollY (page w2) = Finite 1000
  /\ get (windowProps (page w2)) "onSmoothScroll" = VBool false
  /\ onSmoothScroll (instance w2) = true
  /\ mousedown (instance w3) = true
  /\ @_genOnMouseMoveHandler sampleBrowser w3 (mouse "mousemove" 300)
     = (w3, mouse "mousemove" 300).
Proof.
  cbv zeta. repeat (match goal with |- _ /\ _ => split end); vm_compute; reflexivity.
Qed.

(** Whatever the page and the animation, no number of firings changes
    the flag of the instance. *)
Lemma firing_never_resets_the_flag (n timer : nat) (w : World) :
  onSmoothScroll (instance (fireTimes n timer w)) = onSmoothScroll (instance w).
Proof.
  now rewrite fireTimes_keeps_instance.
Qed.

(** In every world in which a click starts an animated scroll, the flag
    of the instance is set from then on, however often the timer fires,
    and every drag move is ignored. *)
Lemma drag_moves_stay_suppressed_after_a_click
      (browser : Browser) (w : World) (e e' : Event) (c t m : Q) (n : nat) :
  shown (instance w) = true ->
  type e = "click" ->
  truthy (setting w "smoothScroll") = true ->
  isOk (validate_smoothScrollDelay (setting w "smoothScrollDelay")) = true ->
  scrollY (page w) = Finite c ->
  scrollTarget w e = Finite t ->
  outerHeight (page w) (baseElement (instance w)) = Finite m ->
  freshTimer w ->
  let w' := fireTimes n (nextTimer (page w)) (fst (scrollTop w e)) in
  onSmoothScroll (instance w') = true
  /\ _genOnMouseMoveHandler w' e' = (w', e').
Proof.
  intros Hs Hty Hsm Hv Hy Ht Hm Hfresh w'.
  destruct (startSmoothScroll_timer w c t m Hv Hy Hm Hfresh)
    as (_ & _ & _ & _ & _ & _ & _ & _ & Hflag).
  assert (H : onSmoothScroll (instance w') = true).
  { unfold w'. rewrite firing_never_resets_the_flag.
    rewrite (scrollTop_click w e Hs Hty Hsm), Ht. exact Hflag. }
  split; [exact H | ].
  unfold _genOnMouseMoveHandler. rewrite H.
  now rewrite Bool.orb_true_r.
Qed.

(* ===================================================================== *)
(** ** The position *)
(* ===================================================================== *)

(** C6 (the code at the failing input): the constructor gives the same
    result for ["Right"] as for ["right"], and on the sample page stores
    ["right"]; [setPosition("Right")] throws and changes nothing. *)
Theorem setPosition_rejects_capitalised_position
        (browser : Browser) (w : World) (base : path) (pg : Page) :
  constructor base [("position", VStr "Right")] pg
  = constructor base [("position", VStr "right")] pg
  /\ get (settings (instance (@newMiniMap sampleBrowser
                                [("position", VStr "Right")] emptyPage)))
         "position"
     = VStr "right"
  /\ setPosition (VStr "Right") w
     = (Throw (Error [Lit "Invalid position: "; Shown (VStr "Right")]), w)
  /\ exists w', setPosition (VStr "right") w = (Ok tt, w').
Proof.
  split; [ | split; [vm_compute; reflexivity | split; [reflexivity | ]]].
  { unfold constructor. reflexivity. }
  unfold setPosition. simpl. destruct (strict_neq _ _); eexists; reflexivity.
Qed.

(* ===================================================================== *)
(** ** Earlier previews *)
(* ===================================================================== *)

Section Construction.
Context {browser : Browser}.

Lemma updateNth_last_but_one {A} (f : A -> A) (l : list A) (a b : A) :
  updateNth (List.length l) f (l ++ [a; b]) = (l ++ [f a; b])%list.
Proof.
  induction l as [ | x l IH]; simpl; [reflexivity | now rewrite IH].
Qed.

Lemma updateNth_last {A} (f : A -> A) (l : list A) (a b : A) :
  updateNth (S (List.length l)) f (l ++ [a; b]) = (l ++ [a; f b])%list.
Proof.
  induction l as [ | x l IH]; [reflexivity | ].
  change (x :: updateNth (S (List.length l)) f (l ++ [a; b])
          = x :: (l ++ [a; f b])%list).
  f_equal. exact IH.
Qed.

Lemma extends_update_region t c s kids b (f : Node -> Node) :
  extends t c s kids b -> extends t c s kids (updateAt [List.length kids] f b).
Proof.
  intros (r & m & ->). exists (f r), m. cbn [updateAt].
  now rewrite updateNth_last_but_one.
Qed.

Lemma extends_update_preview t c s kids b (f : Node -> Node) :
  extends t c s kids b -> extends t c s kids (updateAt [S (List.length kids)] f b).
Proof.
  intros (r & m & ->). exists r, (f m). cbn [updateAt].
  now rewrite updateNth_last.
Qed.

Lemma body_addEventListener on ty h capture pg :
  body (addEventListener on ty h capture pg) = body pg.
Proof. reflexivity. Qed.

(** The constructor removes nothing from the document: after [build] the
    body has the children it had, each passed through [_disableFind],
    followed by the new region and the new preview. *)
Lemma build_keeps_the_children_of_the_body
      (baseElement : path) (base : Node) (settings : object) (pg : Page)
      (t c : string) (s : list (string * option text)) (kids : list Node) :
  body pg = Element t c s kids ->
  classMatch c "unsearchable" = false ->
  extends t c s (map _disableFind kids) (body (snd (build baseElement base settings pg))).
Proof.
  intros Hb Hc. unfold build.
  set (mini := mapChildren _ _).
  set (regionEl := addClass _ "miniregion").
  assert (Hn : childCount (body pg) = List.length (map _disableFind kids))
    by (rewrite Hb; simpl; now rewrite length_map).
  rewrite Hn. cbn [_genOnResizeHandler shown instance negb page snd].
  assert (H0 : extends t c s (map _disableFind kids)
                 (_disableFind (appendChild (appendChild (body pg) regionEl) mini))).
  { rewrite Hb. simpl. rewrite Hc. rewrite <- app_assoc, map_app. simpl.
    eexists _, _. reflexivity. }
  destruct (truthy (get settings "allowClick")),
           (truthy (get settings "touch")),
           (truthy (get settings "fadeHover"));
    cbn [snd clickListeners touchListeners hoverListeners body withBody
             addEventListener];
    repeat first [ apply extends_update_region | apply extends_update_preview ];
    exact H0.
Qed.

End Construction.

(** C7 (the code at the failing input): a second construction on the
    page a first one left leaves two regions and three previews in the
    document, the first region and preview among them, untouched. *)
Theorem construction_keeps_earlier_minimaps :
  let once := @newMiniMap sampleBrowser [] emptyPage in
  let twice := @newMiniMap sampleBrowser [] (page once) in
  selectAllDocument (ByClass "miniregion") (body (page once)) = [[1%nat]]
  /\ selectAllDocument (ByClass "minimap") (body (page once)) = [[2%nat]]
  /\ selectAllDocument (ByClass "miniregion") (body (page twice))
     = [[1%nat]; [3%nat]]
  /\ selectAllDocument (ByClass "minimap") (body (page twice))
     = [[2%nat]; [4%nat]; [4%nat; 1%nat]]
  /\ countClass "miniregion" (body (page twice)) = 2%nat
  /\ nodeAt (body (page twice)) [1%nat] = nodeAt (body (page once)) [1%nat]
  /\ nodeAt (body (page twice)) [2%nat] = nodeAt (body (page once)) [2%nat].
Proof.
  cbv zeta. repeat (match goal with |- _ /\ _ => split end); vm_compute; reflexivity.
Qed.

(* ===================================================================== *)
(** ** A hidden minimap *)
(* ===================================================================== *)

Section Hidden.
Context {browser : Browser}.

Lemma sameScrolling_refl (w : World) : sameScrolling w w.
Proof. repeat split. Qed.

Lemma sameScrolling_trans (a b c : World) :
  sameScrolling a b -> sameScrolling b c -> sameScrolling a c.
Proof.
  unfold sameScrolling. intros (A1 & A2 & A3 & A4) (B1 & B2 & B3 & B4).
  repeat split; congruence.
Qed.

Lemma sameScrolling_onInstance (f : MiniMap -> MiniMap) (w : World) :
  sameScrolling w (onInstance f w).
Proof. repeat split. Qed.

Lemma sameScrolling_onElement (p : path) (f : Node -> Node) (w : World) :
  sameScrolling w (onElement p f w).
Proof. repeat split. Qed.

Lemma handle_hidden (h : handlerName) (w : World) (e : Event) :
  shown (instance w) = false -> quiet w e (handle h w e).
Proof.
  intros Hs. unfold quiet.
  destruct h; simpl.
  - unfold _genOnResizeHandler. rewrite Hs. simpl. auto using sameScrolling_refl.
  - unfold _genOnScrollHandler. rewrite Hs. simpl. auto using sameScrolling_refl.
  - repeat split; assumption.
  - unfold _genOnMouseMoveHandler.
    destruct (negb (mousedown (instance w)) || onSmoothScroll (instance w));
      [ | rewrite (scrollTop_hidden w e Hs)]; simpl; auto using sameScrolling_refl.
  - repeat split; assumption.
  - unfold _genOnClickHandler. rewrite (scrollTop_hidden w e Hs). simpl.
    repeat split; assumption.
  - auto using sameScrolling_refl.
  - repeat split; assumption.
  - repeat split; assumption.
Qed.

Lemma runListeners_hidden (ls : list Listener) (on : eventTarget) :
  forall (w : World) (e : Event),
    shown (instance w) = false -> quiet w e (runListeners ls on w e).
Proof.
  induction ls as [ | l ls IH]; intros w e Hs; simpl.
  - unfold quiet. simpl. auto using sameScrolling_refl.
  - destruct (target_eqb (listensOn l) on && String.eqb (eventType l) (type e));
      [ | apply IH; exact Hs].
    pose proof (handle_hidden (handler l) w e Hs) as (H1 & H2 & H3).
    destruct (handle (handler l) w e) as [w' e']. simpl in *. subst e'.
    destruct (IH w' e H1) as (I1 & I2 & I3).
    unfold quiet. eauto using sameScrolling_trans.
Qed.

Lemma bubble_hidden (route : list eventTarget) :
  forall (w : World) (e : Event),
    shown (instance w) = false -> quiet w e (bubble route w e).
Proof.
  induction route as [ | on route IH]; intros w e Hs; simpl.
  - unfold quiet. simpl. auto using sameScrolling_refl.
  - pose proof (runListeners_hidden (listeners (page w)) on w e Hs) as (H1 & H2 & H3).
    destruct (runListeners (listeners (page w)) on w e) as [w' e'].
    simpl in *. subst e'.
    destruct (propagationStopped e).
    + unfold quiet. simpl. auto.
    + destruct (IH w' e H1) as (I1 & I2 & I3).
      unfold quiet. eauto using sameScrolling_trans.
Qed.

Lemma dispatchEvent_hidden (on : eventTarget) (w : World) (e : Event) :
  shown (instance w) = false -> quiet w e (dispatchEvent on w e).
Proof.
  intros Hs. apply bubble_hidden. exact Hs.
Qed.

Lemma touch_hidden (w : World) (e : Event) :
  shown (instance w) = false ->
  sameScrolling w (fst (_genTouchHandler w e))
  /\ propagationStopped (snd (_genTouchHandler w e)) = propagationStopped e.
Proof.
  intros Hs. unfold _genTouchHandler.
  destruct (changedTouches e) as [ | touch [ | ? ?]];
    try (split; [apply sameScrolling_refl | reflexivity]).
  destruct (if String.eqb (type e) "touchstart" then _ else _) as [ty | ];
    [ | split; [apply sameScrolling_refl | reflexivity]].
  simpl. split; [ | reflexivity].
  match goal with
  | |- sameScrolling w (onInstance _ (fst (dispatchEvent ?on w ?ev))) =>
      destruct (dispatchEvent_hidden on w ev Hs) as (_ & H & _);
      exact (sameScrolling_trans _ _ _ H (sameScrolling_onInstance _ _))
  end.
Qed.

End Hidden.

(** C10: on an instance whose [shown] flag is false, [scrollTop] returns
    the world and the event as they were, and so does the drag-move
    handler; the click handler only resets [mousedown]; and whatever
    mouse event is dispatched to whatever target, and whatever touch
    event reaches the touch handler, the scroll offsets and the timers of
    the window stay as they were and propagation is not stopped. *)
Theorem hidden_minimap_leaves_scrolling_alone
        (browser : Browser) (w : World) (e : Event) :
  shown (instance w) = false ->
  scrollTop w e = (w, e)
  /\ _genOnMouseMoveHandler w e = (w, e)
  /\ _genOnClickHandler w e = (onInstance (fun m => withMousedown m false) w, e)
  /\ (forall on : eventTarget,
         sameScrolling w (fst (dispatchEvent on w e))
         /\ snd (dispatchEvent on w e) = e)
  /\ sameScrolling w (fst (_genTouchHandler w e))
  /\ propagationStopped (snd (_genTouchHandler w e)) = propagationStopped e.
Proof.
  intros Hs.
  split; [apply scrollTop_hidden; exact Hs | ].
  split.
  { unfold _genOnMouseMoveHandler.
    destruct (negb (mousedown (instance w)) || onSmoothScroll (instance w));
      [reflexivity | apply scrollTop_hidden; exact Hs]. }
  split.
  { unfold _genOnClickHandler. now rewrite (scrollTop_hidden w e Hs). }
  split.
  { intros on. destruct (dispatchEvent_hidden on w e Hs) as (_ & H & E). auto. }
  apply touch_hidden. exact Hs.
Qed.

(** The theorem on the sample page before [show()], for a click at
    height 151. *)
Lemma hidden_minimap_leaves_scrolling_alone_witness :
  @scrollTop sampleBrowser hiddenWorld (mouse "click" 151)
  = (hiddenWorld, mouse "click" 151)
  /\ sameScrolling hiddenWorld
       (fst (@dispatchEvent sampleBrowser (Elem [1%nat]) hiddenWorld
               (mouse "click" 151)))
  /\ sameScrolling hiddenWorld
       (fst (@_genTouchHandler sampleBrowser hiddenWorld
               (touchEvent "touchstart" (Elem [1%nat]) 151))).
Proof.
  assert (Hs : shown (instance hiddenWorld) = false) by (vm_compute; reflexivity).
  destruct (hidden_minimap_leaves_scrolling_alone
              sampleBrowser hiddenWorld (mouse "click" 151) Hs)
    as (H1 & _ & _ & H4 & _).
  destruct (hidden_minimap_leaves_scrolling_alone
              sampleBrowser hiddenWorld
              (touchEvent "touchstart" (Elem [1%nat]) 151) Hs)
    as (_ & _ & _ & _ & H5 & _).
  split; [exact H1 | split; [exact (proj1 (H4 (Elem [1%nat]))) | exact H5]].
Defined.

(* ===================================================================== *)
(** ** Validation failures *)
(* ===================================================================== *)

Section Validation.
Context {browser : Browser}.






End Validation.

(* ===================================================================== *)
(** ** Objects *)
(* ===================================================================== *)

Section Objects.

Lemma get_set_same (o : object) (key : string) (v : value) :
  get (set o key v) key = v.
Proof.
  induction o as [ | [k w] o IH]; simpl.
  - now rewrite String.eqb_refl.
  - destruct (String.eqb k key) eqn:E; simpl; rewrite E; [reflexivity | exact IH].
Qed.

Lemma get_set_other (o : object) (key key' : string) (v : value) :
  key <> key' -> get (set o key v) key' = get o key'.
Proof.
  intros Hne. induction o as [ | [k w] o IH]; simpl.
  - destruct (String.eqb_spec key key'); [contradiction | reflexivity].
  - destruct (String.eqb_spec k key) as [-> | Hk]; simpl.
    + destruct (String.eqb_spec key key'); [contradiction | reflexivity].
    + destruct (String.eqb k key'); [reflexivity | exact IH].
Qed.

Lemma insertIndex_perm (i : N) (key : string) (l : list (N * string)) :
  Permutation (insertIndex i key l) ((i, key) :: l).
Proof.
  induction l as [ | [j k] l IH]; simpl; [reflexivity | ].
  destruct (i <? j)%N; [reflexivity | ].
  rewrite IH. apply perm_swap.
Qed.

(** [Object.keys] lists every key once: it is a rearrangement of the
    keys in the order of their creation. *)
Lemma Object_keys_perm (o : object) : Permutation (Object_keys o) (map fst o).
Proof.
  unfold Object_keys, indexKeys, isArrayIndex.
  set (step := fun (acc : list (N * string)) (key : string) =>
                 match arrayIndex key with
                 | Some i => insertIndex i key acc
                 | None => acc
                 end).
  assert (H : forall keys acc,
             Permutation
               (map snd (fold_left step keys acc))
               (map snd acc
                  ++ filter (fun key => match arrayIndex key with
                                        | Some _ => true | None => false end) keys)).
  { induction keys as [ | key keys IH]; intros acc; simpl.
    - now rewrite app_nil_r.
    - rewrite IH. unfold step at 1.
      destruct (arrayIndex key) as [i | ]; [ | reflexivity].
      rewrite (Permutation_map snd (insertIndex_perm i key acc)). simpl.
      apply Permutation_middle. }
  rewrite H. simpl.
  induction (map fst o) as [ | key keys IH]; simpl; [reflexivity | ].
  destruct (arrayIndex key) as [i | ]; simpl.
  - now apply perm_skip.
  - rewrite <- Permutation_middle. now apply perm_skip.
Qed.

Lemma In_Object_keys (o : object) (key : string) :
  In key (Object_keys o) <-> In key (map fst o).
Proof.
  split; apply Permutation_in;
    [apply Object_keys_perm | apply Permutation_sym, Object_keys_perm].
Qed.


Lemma bound_In (o : object) (key : string) :
  bound o key = true <-> In key (Object_keys o).
Proof.
  unfold bound. rewrite existsb_exists. split.
  - intros (k & Hin & E). apply String.eqb_eq in E. now subst.
  - intros Hin. exists key. split; [exact Hin | apply String.eqb_refl].
Qed.

(** The keys after an assignment, in the order of their creation: the
    same, or one more at the end. *)
Lemma keys_set (o : object) (key : string) (v : value) :
  map fst (set o key v)
  = if existsb (String.eqb key) (map fst o) then map fst o
    else (map fst o ++ [key])%list.
Proof.
  induction o as [ | [k w] o IH]; simpl; [reflexivity | ].
  rewrite (String.eqb_sym key k).
  destruct (String.eqb k key) eqn:E; simpl; [reflexivity | ].
  rewrite IH. destruct (existsb _ _); reflexivity.
Qed.

Lemma In_keys_set (o : object) (key k : string) (v : value) :
  In k (Object_keys (set o key v)) <-> k = key \/ In k (Object_keys o).
Proof.
  rewrite !In_Object_keys, keys_set.
  destruct (existsb (String.eqb key) (map fst o)) eqn:B.
  - apply existsb_exists in B. destruct B as (k' & Hin & E).
    apply String.eqb_eq in E. subst k'.
    split; [auto | intros [-> | H]; assumption].
  - rewrite in_app_iff. simpl. split; [intros [H | [H | []]]; auto | ].
    intros [-> | H]; auto.
Qed.

Lemma keys_assign1 (target source : object) (k : string) :
  In k (Object_keys (assign1 target source))
  <-> In k (Object_keys target) \/ In k (Object_keys source).
Proof.
  rewrite !In_Object_keys.
  unfold assign1. revert target.
  induction source as [ | [key v] source IH]; intros target; simpl.
  - tauto.
  - rewrite IH. rewrite <- !In_Object_keys. rewrite In_keys_set.
    rewrite !In_Object_keys.
    split.
    + intros [[-> | H] | H]; auto.
    + intros [H | [<- | H]]; auto.
Qed.



(** An assignment to a key the object has leaves the keys as they
    are. *)
Lemma Object_keys_set_bound (o : object) (key : string) (v : value) :
  bound o key = true -> Object_keys (set o key v) = Object_keys o.
Proof.
  intros H. apply bound_In, In_Object_keys in H.
  assert (E : existsb (String.eqb key) (map fst o) = true).
  { apply existsb_exists. exists key. split; [exact H | apply String.eqb_refl]. }
  unfold Object_keys. now rewrite keys_set, E.
Qed.


End Objects.

(* ===================================================================== *)
(** ** What the validators accept *)
(* ===================================================================== *)

Section Acceptance.
Context {browser : Browser}.

Lemma validateKeys_ok (props : object) (keys : list string) :
  validateKeys props keys = Ok tt <-> Forall (accepted props) keys.
Proof.
  induction keys as [ | key keys IH]; simpl.
  - split; [constructor | reflexivity].
  - split.
    + destruct (propValidators key) as [validator | ] eqn:P; [ | discriminate].
      destruct (validator (get props key)) as [[] | e] eqn:V; [ | discriminate].
      intros H. constructor; [exists validator; auto | now apply IH].
    + intros H. inversion H as [ | ? ? (validator & P & V) Hrest]; subst.
      rewrite P, V. now apply IH.
Qed.

Lemma validateKeys_skips_accepted (props : object) (before rest : list string) :
  Forall (accepted props) before ->
  validateKeys props (before ++ rest) = validateKeys props rest.
Proof.
  induction 1 as [ | key before (validator & P & V) _ IH]; simpl; [reflexivity | ].
  now rewrite P, V.
Qed.

End Acceptance.

Section Intervals.
Context {browser : Browser}.

Lemma q_value (a b : Z) (r : Q) : Qred (inject_Z a / inject_Z b) = r -> q a b = Finite r.
Proof. intros <-. reflexivity. Qed.

(** The test of a ratio validator, on the number a value converts to:
    it passes for the finite numbers of the interval. *)
Lemma interval_test (lowOpen : bool) (l h : Q) (v : value) :
  (negb (isNumeric v)
   || (if lowOpen then lessOrEqual v (Finite l) else lessThan v (Finite l))
   || greaterThan v (Finite h)) = false
  <-> exists x, readsAsNumber v x /\ (if lowOpen then l < x else l <= x) /\ x <= h.
Proof.
  unfold isNumeric, isFinite, lessOrEqual, lessThan, greaterThan, readsAsNumber.
  destruct (isNaN (parseFloat v)); simpl.
  { split; [discriminate | intros (x & (E & _) & _); discriminate]. }
  destruct (ToNumber v) as [x | | | ]; simpl;
    try (split; [destruct lowOpen; discriminate
                | intros (x & (_ & E) & _); discriminate]).
  unfold gtb, ltb, leb.
  split.
  - intros H. exists x. split; [auto | ].
    destruct lowOpen;
      destruct (Qle_bool x l) eqn:E1; destruct (Qle_bool l x) eqn:E2;
      destruct (Qle_bool x h) eqn:E3; simpl in H; try discriminate;
      repeat match goal with
             | H : Qle_bool _ _ = true |- _ => apply Qle_bool_iff in H
             | H : Qle_bool _ _ = false |- _ => apply Qle_bool_false_iff in H
             end; split; lra.
  - intros (y & (_ & E) & Hl & Hh). injection E as <-.
    assert (E3 : Qle_bool x h = true) by (apply Qle_bool_iff; exact Hh).
    rewrite E3. destruct lowOpen.
    + assert (E1 : Qle_bool x l = false) by (apply Qle_bool_false_iff; exact Hl).
      now rewrite E1.
    + assert (E2 : Qle_bool l x = true) by (apply Qle_bool_iff; exact Hl).
      now rewrite E2.
Qed.

Lemma lower_test (l : Q) (v : value) :
  (negb (isNumeric v) || lessThan v (Finite l)) = false
  <-> exists x, readsAsNumber v x /\ l <= x.
Proof.
  unfold isNumeric, isFinite, lessThan, readsAsNumber.
  destruct (isNaN (parseFloat v)); simpl.
  { split; [discriminate | intros (x & (E & _) & _); discriminate]. }
  destruct (ToNumber v) as [x | | | ]; simpl;
    try (split; [discriminate | intros (x & (_ & E) & _); discriminate]).
  unfold ltb. split.
  - intros H. exists x. split; [auto | ].
    destruct (Qle_bool l x) eqn:E; [apply Qle_bool_iff in E; exact E | discriminate].
  - intros (y & (_ & E) & Hl). injection E as <-.
    assert (E2 : Qle_bool l x = true) by (apply Qle_bool_iff; exact Hl).
    now rewrite E2.
Qed.

(** A value that is neither a string nor an object reads as a number
    exactly when it is that number. *)
Lemma readsAsNumber_primitive (v : value) (x : Q) :
  isCoercible v = false -> readsAsNumber v x <-> v = VNum (Finite x).
Proof.
  unfold readsAsNumber.
  destruct v as [ | | b | n | s | f | i s n]; simpl; try discriminate; intros _;
    try (split; [intros (E & _); discriminate | discriminate]).
  split.
  - intros (_ & ->). reflexivity.
  - intros E. injection E as ->. auto.
Qed.

End Intervals.

Ltac ratio_validator :=
  unfold validate_heightRatio, validate_widthRatio, validate_offsetHeightRatio,
    validate_offsetWidthRatio, validate_hoverOpacity, validate_hoverFadeSpeed, invalid;
  rewrite ?(q_value 1 2 (1 # 2) eq_refl), ?(q_value 9 10 (9 # 10) eq_refl);
  match goal with
  | |- isOk (if ?c then _ else _) = true <-> _ =>
      let C := fresh "C" in
      destruct c eqn:C; simpl;
      [ split; [discriminate | ];
        let H := fresh "H" in
        intros H;
        first [ apply (interval_test true) in H
              | apply (interval_test false) in H
              | apply lower_test in H ];
        discriminate (eq_trans (eq_sym C) H)
      | split; [intros _ | reflexivity];
        first [ apply (interval_test true) in C
              | apply (interval_test false) in C
              | apply lower_test in C ];
        exact C ]
  end.

(** X2: each ratio validator returns normally exactly for the values
    that read as a finite number of its interval: (0, 1] for
    [heightRatio], (0, 1/2] for [widthRatio], [0, 9/10] for the two offset
    ratios, [0, 1] for [hoverOpacity] and [0, infinity) for
    [hoverFadeSpeed]. A value reads as a number when [parseFloat] reads a
    number from its text and the value converts to the number; of the
    values that are neither strings nor objects, only the finite numbers
    read as a number, so [null], [undefined], booleans, functions, NaN and
    the infinities are rejected by all six. *)
Theorem ratio_validators_accept_their_intervals (browser : Browser) (v : value) :
  (isOk (validate_heightRatio v) = true
   <-> exists x, readsAsNumber v x /\ 0 < x /\ x <= 1)
  /\ (isOk (validate_widthRatio v) = true
      <-> exists x, readsAsNumber v x /\ 0 < x /\ x <= 1 # 2)
  /\ (isOk (validate_offsetHeightRatio v) = true
      <-> exists x, readsAsNumber v x /\ 0 <= x /\ x <= 9 # 10)
  /\ (isOk (validate_offsetWidthRatio v) = true
      <-> exists x, readsAsNumber v x /\ 0 <= x /\ x <= 9 # 10)
  /\ (isOk (validate_hoverOpacity v) = true
      <-> exists x, readsAsNumber v x /\ 0 <= x /\ x <= 1)
  /\ (isOk (validate_hoverFadeSpeed v) = true
      <-> exists x, readsAsNumber v x /\ 0 <= x)
  /\ ((forall s, v <> VStr s) -> (forall i s n, v <> VObj i s n) ->
      forall x, readsAsNumber v x <-> v = VNum (Finite x)).
Proof.
  split; [ratio_validator | ].
  split; [ratio_validator | ].
  split; [ratio_validator | ].
  split; [ratio_validator | ].
  split; [ratio_validator | ].
  split; [ratio_validator | ].
  intros Hs Ho x. apply readsAsNumber_primitive.
  destruct v as [ | | b | n | s | f | i s n]; try reflexivity.
  - exfalso. now apply (Hs s).
  - exfalso. now apply (Ho i s n).
Qed.

(** The theorem at the upper ends, [heightRatio: 1] and
    [widthRatio: 0.5], and for the array [[1]] as [heightRatio]. *)
Lemma ratio_validators_accept_their_intervals_witness :
  isOk (@validate_heightRatio sampleBrowser (VNum (Finite 1))) = true
  /\ isOk (@validate_widthRatio sampleBrowser (VNum (Finite (1 # 2)))) = true
  /\ isOk (@validate_heightRatio sampleBrowser (VObj 0 "1" (Finite 1))) = true.
Proof.
  split; [ | split].
  - destruct (ratio_validators_accept_their_intervals sampleBrowser (VNum (Finite 1)))
      as (H & _).
    apply H. exists 1. split; [split; reflexivity | lra].
  - destruct (ratio_validators_accept_their_intervals
                sampleBrowser (VNum (Finite (1 # 2))))
      as (_ & H & _).
    apply H. exists (1 # 2). split; [split; reflexivity | lra].
  - destruct (ratio_validators_accept_their_intervals
                sampleBrowser (VObj 0 "1" (Finite 1)))
      as (H & _).
    apply H. exists 1. split; [split; reflexivity | lra].
Defined.

(** X3: the validators of [allowClick], [fadeHover] and [disableFind]
    return normally for [true] and [false] and for nothing else; the one
    of [position] for the strings ['right'] and ['left'] and for nothing
    else; the one of [onPreviewChange] for functions and for nothing
    else. *)
Theorem flag_position_and_callback_validators (v : value) :
  (isOk (validate_allowClick v) = true <-> exists b, v = VBool b)
  /\ (isOk (validate_fadeHover v) = true <-> exists b, v = VBool b)
  /\ (isOk (validate_disableFind v) = true <-> exists b, v = VBool b)
  /\ (isOk (validate_position v) = true <-> v = VStr "right" \/ v = VStr "left")
  /\ (isOk (validate_onPreviewChange v) = true <-> exists name, v = VFun name).
Proof.
  assert (Hb : forall prefix,
             isOk (if strict_neq v (VBool true) && strict_neq v (VBool false)
                   then @invalid unit prefix v else Ok tt) = true
             <-> exists b, v = VBool b).
  { intros prefix.
    destruct v as [ | | [ | ] | n | s | f | i s n]; simpl;
      try (split; [discriminate | intros (b & E); discriminate]);
      (split; [eauto | reflexivity]). }
  split; [apply Hb | ]. split; [apply Hb | ]. split; [apply Hb | ].
  split.
  - unfold validate_position, invalid, has, validPositions.
    destruct v as [ | | b | n | s | f | i t n]; simpl;
      try (split; [discriminate | intros [E | E]; discriminate]).
    destruct (String.eqb_spec s "right") as [-> | Hr]; simpl; [tauto | ].
    destruct (String.eqb_spec s "left") as [-> | Hl]; simpl; [tauto | ].
    split; [discriminate | intros [E | E]; injection E; contradiction].
  - unfold validate_onPreviewChange, invalid.
    destruct v as [ | | b | n | s | f | i t n]; simpl; rewrite ?Bool.orb_true_r; simpl;
      try (split; [discriminate | intros (name & E); discriminate]).
    split; [eauto | reflexivity].
Qed.

(* ===================================================================== *)
(** ** What validation rejects *)
(* ===================================================================== *)

Section Rejection.
Context {browser : Browser}.











(** A field that is unknown has no property in [propValidators]. *)
Lemma unknown_field_has_no_validator (key : string) :
  unknownField key -> propValidators key = None.
Proof.
  intros (Hk & Hi). unfold propValidators. rewrite Hi.
  destruct (ownValidator key) as [validator | ] eqn:O; [exfalso | reflexivity].
  unfold spec_kind in Hk. unfold ownValidator in O.
  repeat match type of Hk with
         | (if String.eqb ?k ?s then _ else _) = _ =>
             let E := fresh "E" in
             destruct (String.eqb k s) eqn:E; [discriminate | ]
         end.
  repeat match goal with
         | E : String.eqb _ _ = false |- _ => rewrite E in O; clear E
         end.
  discriminate.
Qed.

End Rejection.

(** X1: [_validateProps] returns normally exactly when every key of the
    object names a property of [propValidators], its own or inherited,
    that returns for the value of the key; otherwise it throws for the
    first key, in the order of [Object.keys], that is not accepted: what
    that property throws, or, for a key that names no property, an error
    whose message ends with the value held for the key. The keys
    [constructor] and [toString], which [propValidators] inherits, are
    accepted whatever they hold; a key that is no field of the
    configuration and no inherited name names no property. *)
Theorem validateProps_reports_the_first_offending_key
        (browser : Browser) (props : object) :
  (_validateProps props = Ok tt
   <-> forall key, In key (Object_keys props) -> accepted props key)
  /\ (forall before key after,
         Object_keys props = (before ++ key :: after)%list ->
         (forall k, In k before -> accepted props k) ->
         match propValidators key with
         | None =>
             _validateProps props
             = Throw (Error [Lit "Invalid validation property: ";
                             Shown (get props key)])
         | Some validator =>
             forall e, validator (get props key) = Throw e ->
                       _validateProps props = Throw e
         end)
  /\ accepted props "constructor"
  /\ accepted props "toString"
  /\ (forall key, unknownField key -> propValidators key = None).
Proof.
  unfold _validateProps. split; [ | split; [ | split; [ | split]]].
  - rewrite validateKeys_ok. apply Forall_forall.
  - intros before key after -> Hb.
    rewrite validateKeys_skips_accepted by (apply Forall_forall; exact Hb).
    simpl. destruct (propValidators key) as [validator | ]; [ | reflexivity].
    intros e ->. reflexivity.
  - eexists. split; reflexivity.
  - eexists. split; reflexivity.
  - exact unknown_field_has_no_validator.
Qed.

(** The theorem on [{heightRatio: 2, 7: 1}]: [Object.keys] lists the
    key [7] first, and the error is the one for a key that names no
    property. *)
Lemma validateProps_reports_the_first_offending_key_witness :
  Object_keys [("heightRatio", VNum (ofZ 2)); ("7", VNum (ofZ 1))]
  = ["7"; "heightRatio"]
  /\ @_validateProps sampleBrowser
       [("heightRatio", VNum (ofZ 2)); ("7", VNum (ofZ 1))]
     = Throw (Error [Lit "Invalid validation property: "; Shown (VNum (ofZ 1))]).
Proof.
  split; [reflexivity | ].
  destruct (validateProps_reports_the_first_offending_key sampleBrowser
              [("heightRatio", VNum (ofZ 2)); ("7", VNum (ofZ 1))])
    as (_ & H & _).
  specialize (H [] "7" ["heightRatio"] eq_refl).
  apply H. intros k [].
Defined.

Section Setters.
Context {browser : Browser}.

Lemma In_setterFields (field : string) :
  In field setterFields ->
  find (fun s => String.eqb (fst s) (String.append "set" (capitalize field)))
       installedSetters
  = Some (String.append "set" (capitalize field),
          (field, existsb (String.eqb field) redrawAttributes)).
Proof.
  intros H. simpl in H.
  destruct H as [<- | [<- | [<- | [<- | [<- | [<- | []]]]]]]; reflexivity.
Qed.



End Setters.




(* ===================================================================== *)
(** ** The settings of an instance *)
(* ===================================================================== *)

Section Settings.
Context {browser : Browser}.

Lemma resize_keeps_instance (w : World) :
  instance (_genOnResizeHandler w) = instance w.
Proof.
  unfold _genOnResizeHandler. destruct (shown (instance w)); reflexivity.
Qed.

(** The instance [build] returns. *)
Lemma build_instance (base : path) (el : Node) (st : object) (pg : Page) :
  fst (build base el st pg)
  = {| baseElement := base; shown := false; mousedown := false;
       onSmoothScroll := false; lastTouchType := ""; settings := st;
       miniElement := [S (childCount (body pg))];
       region := [childCount (body pg)];
       setters := installedSetters |}.
Proof. reflexivity. Qed.

(** What a construction that returns went through. *)
Lemma constructor_returns (base : path) (options : object) (pg pg' : Page)
      (this : MiniMap) :
  constructor base options pg = (Ok this, pg') ->
  exists s el,
    get (assign1 defaults options) "position" = VStr s
    /\ validSettings (set (assign1 defaults options) "position" (VStr (toLowerCase s)))
    /\ nodeAt (body pg) base = Some el
    /\ isElement el = true
    /\ (this, pg')
       = build base el
           (set (assign1 defaults options) "position" (VStr (toLowerCase s))) pg.
Proof.
  unfold constructor.
  change (Object_assign [] [defaults; options]) with (assign1 defaults options).
  destruct (get (assign1 defaults options) "position") as [ | | | | s | | ] eqn:P;
    try discriminate.
  destruct (_validateProps _) as [[] | e] eqn:V; [ | discriminate].
  destruct (nodeAt (body pg) base) as [[d | t c st kids] | ] eqn:N; try discriminate.
  destruct (build _ _ _ _) as [m p] eqn:B. intros E. injection E as <- <-.
  exists s, (Element t c st kids). repeat split; auto.
Qed.

Lemma set_keeps_valid (o : object) (prop : string) (validator : value -> result unit)
      (v : value) :
  validSettings o ->
  propValidators prop = Some validator ->
  validator v = Ok tt ->
  validSettings (set o prop v).
Proof.
  unfold validSettings, _validateProps. rewrite !validateKeys_ok, !Forall_forall.
  intros Ho P V k Hk. apply In_keys_set in Hk.
  destruct (String.eqb_spec prop k) as [<- | Hne].
  - exists validator. split; [exact P | now rewrite get_set_same].
  - destruct Hk as [-> | Hk]; [contradiction | ].
    destruct (Ho k Hk) as (f & Pf & Vf). exists f. split; [exact Pf | ].
    now rewrite get_set_other.
Qed.

End Settings.



(* ===================================================================== *)
(** ** What no handler assigns *)
(* ===================================================================== *)

Section Configuration.
Context {browser : Browser}.

Lemma sameConfiguration_refl (w : World) : sameConfiguration w w.
Proof. repeat split. Qed.

Lemma sameConfiguration_trans (a b c : World) :
  sameConfiguration a b -> sameConfiguration b c -> sameConfiguration a c.
Proof.
  unfold sameConfiguration.
  intros (A1 & A2 & A3 & A4 & A5) (B1 & B2 & B3 & B4 & B5).
  repeat split; congruence.
Qed.

Lemma sameConfiguration_same_instance (w w' : World) :
  instance w' = instance w -> sameConfiguration w w'.
Proof. intros E. unfold sameConfiguration. rewrite E. repeat split. Qed.

Lemma scroll_keeps_instance (w : World) :
  instance (_genOnScrollHandler w) = instance w.
Proof.
  unfold _genOnScrollHandler. destruct (negb (shown (instance w))); [reflexivity | ].
  cbv zeta. destruct (_ || _); reflexivity.
Qed.

Lemma startSmoothScroll_configuration (target : num) (w : World) :
  sameConfiguration w (fst (startSmoothScroll target w)).
Proof.
  unfold startSmoothScroll. cbv zeta.
  destruct (stepParameters _ _) as [[u d] c]. repeat split.
Qed.

Lemma scrollTop_configuration (w : World) (e : Event) :
  sameConfiguration w (fst (scrollTop w e)).
Proof.
  unfold scrollTop. destruct (negb (shown (instance w))); simpl.
  - apply sameConfiguration_refl.
  - destruct (_ && _); [apply startSmoothScroll_configuration | repeat split].
Qed.

Lemma handle_configuration (h : handlerName) (w : World) (e : Event) :
  sameConfiguration w (fst (handle h w e)).
Proof.
  destruct h; simpl.
  - apply sameConfiguration_same_instance, resize_keeps_instance.
  - apply sameConfiguration_same_instance, scroll_keeps_instance.
  - repeat split.
  - unfold _genOnMouseMoveHandler. destruct (_ || _); simpl.
    + apply sameConfiguration_refl.
    + apply scrollTop_configuration.
  - repeat split.
  - unfold _genOnClickHandler.
    pose proof (scrollTop_configuration w e) as H.
    destruct (scrollTop w e) as [w' e']. simpl in *.
    destruct H as (H1 & H2 & H3 & H4 & H5). repeat split; assumption.
  - apply sameConfiguration_refl.
  - repeat split.
  - repeat split.
Qed.

Lemma runListeners_configuration (ls : list Listener) (on : eventTarget) :
  forall (w : World) (e : Event),
    sameConfiguration w (fst (runListeners ls on w e)).
Proof.
  induction ls as [ | l ls IH]; intros w e; simpl.
  - apply sameConfiguration_refl.
  - destruct (_ && _); [ | apply IH].
    pose proof (handle_configuration (handler l) w e) as H.
    destruct (handle (handler l) w e) as [w' e']. simpl in H.
    exact (sameConfiguration_trans _ _ _ H (IH w' e')).
Qed.

Lemma bubble_configuration (route : list eventTarget) :
  forall (w : World) (e : Event),
    sameConfiguration w (fst (bubble route w e)).
Proof.
  induction route as [ | on route IH]; intros w e; simpl.
  - apply sameConfiguration_refl.
  - pose proof (runListeners_configuration (listeners (page w)) on w e) as H.
    destruct (runListeners (listeners (page w)) on w e) as [w' e']. simpl in H.
    destruct (propagationStopped e'); [exact H | ].
    exact (sameConfiguration_trans _ _ _ H (IH w' e')).
Qed.

Lemma touch_configuration (w : World) (e : Event) :
  sameConfiguration w (fst (_genTouchHandler w e)).
Proof.
  unfold _genTouchHandler.
  destruct (changedTouches e) as [ | touch [ | ? ?]];
    try apply sameConfiguration_refl.
  destruct (if String.eqb (type e) "touchstart" then _ else _) as [ty | ];
    [ | apply sameConfiguration_refl].
  cbv zeta.
  match goal with
  | |- sameConfiguration w (fst (onInstance _ (fst (dispatchEvent ?on w ?ev)), _)) =>
      destruct (bubble_configuration (propagationPath on) w ev)
        as (H1 & H2 & H3 & H4 & H5)
  end.
  repeat split; assumption.
Qed.

Lemma show_configuration (w : World) : sameConfiguration w (show w).
Proof.
  unfold show. destruct (negb (shown (instance w))); [ | apply sameConfiguration_refl].
  cbv zeta. unfold sameConfiguration. rewrite resize_keeps_instance. repeat split.
Qed.

Lemma hide_configuration (w : World) : sameConfiguration w (hide w).
Proof.
  unfold hide. destruct (shown (instance w)); [ | apply sameConfiguration_refl].
  repeat split.
Qed.

Lemma toggle_configuration (w : World) : sameConfiguration w (toggle w).
Proof.
  unfold toggle. cbv zeta.
  match goal with
  | |- context [if ?b then _ else _] => destruct b
  end; [ | repeat split].
  unfold sameConfiguration. rewrite resize_keeps_instance. repeat split.
Qed.

(** A successful call of a generated setter or of [setPosition] changes
    one field of the settings, to a value its validator accepts. *)
Lemma setter_configuration (prop : string) (redraw : bool) (v : value) (w : World) :
  (snd (_genSetPropertyFunction prop redraw v w) = w)
  \/ (exists validator,
         propValidators prop = Some validator /\ validator v = Ok tt
         /\ settings (instance (snd (_genSetPropertyFunction prop redraw v w)))
            = set (settings (instance w)) prop v
         /\ setters (instance (snd (_genSetPropertyFunction prop redraw v w)))
            = setters (instance w)).
Proof.
  unfold _genSetPropertyFunction.
  destruct (propValidators prop) as [validator | ]; [ | now left].
  destruct (validator v) as [[] | e] eqn:V; [ | now left].
  right. exists validator. split; [reflexivity | ]. split; [exact V | ].
  destruct redraw; simpl; rewrite ?resize_keeps_instance; split; reflexivity.
Qed.

Lemma setPosition_configuration (v : value) (w : World) :
  (snd (setPosition v w) = w)
  \/ (validate_position v = Ok tt
      /\ settings (instance (snd (setPosition v w)))
         = set (settings (instance w)) "position" v
      /\ setters (instance (snd (setPosition v w))) = setters (instance w)).
Proof.
  unfold setPosition. cbv zeta.
  destruct (validate_position v) as [[] | e] eqn:V; [ | now left].
  right. split; [reflexivity | ].
  destruct (strict_neq _ _); simpl; rewrite ?resize_keeps_instance; split; reflexivity.
Qed.

Lemma validate_position_ok (v : value) :
  validate_position v = Ok tt -> v = VStr "right" \/ v = VStr "left".
Proof.
  unfold validate_position, invalid, has, validPositions.
  destruct v as [ | | b | n | s | f | i s n]; simpl; try discriminate.
  destruct (String.eqb_spec s "right") as [-> | _]; [now left | ].
  destruct (String.eqb_spec s "left") as [-> | _]; [now right | ].
  discriminate.
Qed.

(** What holds of the settings in every reachable world. *)
Lemma reachable_settings (w : World) :
  reachable w ->
  validSettings (settings (instance w))
  /\ (forall key, In key (Object_keys defaults) ->
                  In key (Object_keys (settings (instance w))))
  /\ setters (instance w) = installedSetters.
Proof.
  induction 1 as [base options pg pg' this Hc | w w' Hr (IHv & IHk & IHs) Hstep].
  - destruct (constructor_returns base options pg pg' this Hc)
      as (s & el & P & V & _ & _ & B).
    assert (E : this = fst (build base el
                              (set (assign1 defaults options) "position"
                                   (VStr (toLowerCase s))) pg))
      by now rewrite <- B.
    rewrite build_instance in E. subst this. simpl.
    split; [exact V | ]. split; [ | reflexivity].
    intros key Hk. apply In_keys_set. right. apply keys_assign1. now left.
  - assert (Hsame : forall w'', sameConfiguration w w'' ->
                validSettings (settings (instance w''))
                /\ (forall key, In key (Object_keys defaults) ->
                                In key (Object_keys (settings (instance w''))))
                /\ setters (instance w'') = installedSetters).
    { intros w'' (E1 & E2 & _). rewrite E1, E2. auto. }
    destruct Hstep as [name v w | v w | w | w | w | on e w | e w | timer w | x y w].
    + unfold callSetter.
      destruct (find _ _) as [[n [prop redraw]] | ];
        [ | apply Hsame, sameConfiguration_refl].
      destruct (setter_configuration prop redraw v w)
        as [-> | (validator & P & V & -> & ->)];
        [apply Hsame, sameConfiguration_refl | ].
      split; [exact (set_keeps_valid _ _ _ _ IHv P V) | ].
      split; [ | exact IHs].
      intros key Hk. apply In_keys_set. right. auto.
    + destruct (setPosition_configuration v w) as [-> | (V & -> & ->)];
        [apply Hsame, sameConfiguration_refl | ].
      split; [exact (set_keeps_valid _ "position" validate_position _ IHv eq_refl V) | ].
      split; [ | exact IHs].
      intros key Hk. apply In_keys_set. right. auto.
    + apply Hsame, show_configuration.
    + apply Hsame, hide_configuration.
    + apply Hsame, toggle_configuration.
    + apply Hsame, bubble_configuration.
    + apply Hsame, touch_configuration.
    + apply Hsame, sameConfiguration_same_instance.
      apply fire_keeps_instance.
    + apply Hsame. repeat split.
Qed.

End Configuration.

(** X5: in every world a minimap can reach from its construction by
    calls of its methods, events, touches, timer firings and scrolling,
    the stored settings pass [_validateProps], every field of the defaults
    is still bound, the stored position is ['right'] or ['left'], and the
    generated setters are the six the constructor installed. *)
Theorem settings_of_a_minimap_stay_valid (browser : Browser) (w : World) :
  reachable w ->
  validSettings (settings (instance w))
  /\ (forall key, In key (Object_keys defaults) ->
                  bound (settings (instance w)) key = true)
  /\ (setting w "position" = VStr "right" \/ setting w "position" = VStr "left")
  /\ map fst (setters (instance w))
     = ["setHeightRatio"; "setWidthRatio"; "setOffsetHeightRatio";
        "setOffsetWidthRatio"; "setSmoothScroll"; "setSmoothScrollDelay"].
Proof.
  intros Hr. destruct (reachable_settings w Hr) as (Hv & Hk & Hs).
  split; [exact Hv | ]. split; [ | split].
  - intros key H. apply bound_In. auto.
  - unfold validSettings, _validateProps in Hv. rewrite validateKeys_ok in Hv.
    rewrite Forall_forall in Hv.
    destruct (Hv "position") as (f & Pf & Vf).
    { apply Hk. simpl. tauto. }
    injection Pf as <-.
    apply validate_position_ok. exact Vf.
  - rewrite Hs. reflexivity.
Qed.


(** The theorem after [show()] and [setPosition('left')] on the sample
    page. *)
Lemma settings_of_a_minimap_stay_valid_witness :
  @setting (snd (@setPosition sampleBrowser (VStr "left") shownWorld)) "position"
  = VStr "left".
Proof.
  assert (H0 : @reachable sampleBrowser hiddenWorld).
  { assert (E : @constructor sampleBrowser [] [] emptyPage
                = (Ok (instance hiddenWorld), page hiddenWorld))
      by (vm_compute; reflexivity).
    exact (@reachable_new sampleBrowser [] [] emptyPage (page hiddenWorld)
             (instance hiddenWorld) E <: @reachable sampleBrowser hiddenWorld). }
  assert (H1 : @reachable sampleBrowser
                 (snd (@setPosition sampleBrowser (VStr "left") shownWorld))).
  { apply (@reachable_step sampleBrowser shownWorld).
    - apply (@reachable_step sampleBrowser hiddenWorld); [exact H0 | ].
      apply (@step_show sampleBrowser).
    - apply (@step_setPosition sampleBrowser). }
  destruct (settings_of_a_minimap_stay_valid sampleBrowser _ H1)
    as (_ & _ & [H | H] & _).
  - exfalso. vm_compute in H. discriminate.
  - exact H.
Defined.

(* ===================================================================== *)
(** ** The layout pass and the generated setters *)
(* ===================================================================== *)

Section Layout.
Context {browser : Browser}.

Lemma resize_sameScrolling (w : World) : sameScrolling w (_genOnResizeHandler w).
Proof.
  unfold _genOnResizeHandler. destruct (negb (shown (instance w))); repeat split.
Qed.

(** The layout pass of a shown minimap calls [onPreviewChange] once,
    with the preview and the scale; a hidden one does not call it. *)
Lemma resize_calls (w : World) :
  calls (page (_genOnResizeHandler w))
  = (calls (page w)
       ++ if shown (instance w)
          then [ {| callee := setting w "onPreviewChange";
                    previewElement := miniElement (instance w);
                    scaleX := fst (_scale w); scaleY := snd (_scale w) |} ]
          else [])%list.
Proof.
  unfold _genOnResizeHandler. destruct (shown (instance w)); simpl.
  - reflexivity.
  - now rewrite app_nil_r.
Qed.

Lemma resize_hidden (w : World) :
  shown (instance w) = false -> _genOnResizeHandler w = w.
Proof.
  intros H. unfold _genOnResizeHandler. now rewrite H.
Qed.

Lemma resize_listeners (w : World) :
  listeners (page (_genOnResizeHandler w)) = listeners (page w).
Proof.
  unfold _genOnResizeHandler. destruct (negb (shown (instance w))); reflexivity.
Qed.

End Layout.

(** X6: a call of the method [set<Field>] that the constructor generated
    for one of the six fields either throws the error of the field's
    validator and changes nothing, or returns with the value stored in
    that field and every other setting, the flags and the scrolling as
    they were. The layout pass runs, calling [onPreviewChange] once with
    the scale of the new settings, exactly when the minimap is shown and
    the field is one of the four ratios; otherwise the page is untouched. *)
Theorem generated_setters_store_and_redraw
        (browser : Browser) (w : World) (field : string) (v : value) :
  setters (instance w) = installedSetters ->
  In field setterFields ->
  let stored := onInstance (fun m => withSettings m (set (settings m) field v)) w in
  let redraw := shown (instance w) && existsb (String.eqb field) redrawAttributes in
  exists validator,
    propValidators field = Some validator
    /\ match callSetter (String.append "set" (capitalize field)) v w with
       | (Throw e, w') => validator v = Throw e /\ w' = w
       | (Ok _, w') =>
           validator v = Ok tt
           /\ setting w' field = v
           /\ (forall key, key <> field -> setting w' key = setting w key)
           /\ shown (instance w') = shown (instance w)
           /\ mousedown (instance w') = mousedown (instance w)
           /\ onSmoothScroll (instance w') = onSmoothScroll (instance w)
           /\ sameScrolling w w'
           /\ calls (page w')
              = (calls (page w)
                   ++ if redraw
                      then [ {| callee := setting stored "onPreviewChange";
                                previewElement := miniElement (instance w);
                                scaleX := fst (_scale stored);
                                scaleY := snd (_scale stored) |} ]
                      else [])%list
           /\ (redraw = false -> page w' = page w)
       end.
Proof.
  intros Hs Hin stored redraw.
  assert (Hv : exists validator, propValidators field = Some validator).
  { simpl in Hin.
    destruct Hin as [<- | [<- | [<- | [<- | [<- | [<- | []]]]]]]; eexists; reflexivity. }
  destruct Hv as (validator & P). exists validator. split; [exact P | ].
  unfold callSetter. rewrite Hs, (In_setterFields field Hin).
  unfold _genSetPropertyFunction. rewrite P.
  destruct (validator v) as [[] | e] eqn:V; [ | split; reflexivity].
  fold stored. subst redraw.
  remember (existsb (String.eqb field) redrawAttributes) as r eqn:R. clear R.
  assert (Hi : instance (if r then _genOnResizeHandler stored else stored)
               = instance stored).
  { destruct r; [apply resize_keeps_instance | reflexivity]. }
  split; [reflexivity | ].
  unfold setting. rewrite Hi. simpl.
  split; [apply get_set_same | ].
  split; [intros key Hne; apply get_set_other; congruence | ].
  split; [reflexivity | ]. split; [reflexivity | ]. split; [reflexivity | ].
  destruct r.
  - split; [exact (resize_sameScrolling stored) | ].
    rewrite Bool.andb_true_r.
    split; [exact (resize_calls stored) | ].
    intros Hh. now rewrite (resize_hidden stored Hh).
  - rewrite Bool.andb_false_r.
    split; [repeat split | ].
    split; [simpl; now rewrite app_nil_r | reflexivity].
Qed.

(** The theorem for [setWidthRatio(0.1)] on the shown sample minimap:
    the callback is called a second time. *)
Lemma generated_setters_store_and_redraw_witness :
  List.length (calls (page (snd (@callSetter sampleBrowser "setWidthRatio"
                                   (VNum (Finite (1 # 10))) shownWorld))))
  = 2%nat.
Proof.
  assert (Hs : setters (instance shownWorld) = installedSetters)
    by (vm_compute; reflexivity).
  assert (Hin : In "widthRatio" setterFields) by (simpl; tauto).
  destruct (generated_setters_store_and_redraw
              sampleBrowser shownWorld "widthRatio" (VNum (Finite (1 # 10))) Hs Hin)
    as (validator & P & H).
  change (String.append "set" (capitalize "widthRatio")) with "setWidthRatio" in H.
  destruct (@callSetter sampleBrowser "setWidthRatio" (VNum (Finite (1 # 10))) shownWorld)
    as [[[] | e] w'] eqn:E.
  - destruct H as (_ & _ & _ & _ & _ & _ & _ & Hc & _).
    simpl snd. rewrite Hc. vm_compute. reflexivity.
  - exfalso. vm_compute in E. discriminate.
Defined.

(* ===================================================================== *)
(** ** Class names (jquery-ports.js) *)
(* ===================================================================== *)

Section ClassNames.

Lemma isNameChar_not_space (c : ascii) : isNameChar c = true -> isSpace c = false.
Proof.
  unfold isNameChar, isSpace. cbv zeta.
  generalize (nat_of_ascii c). intros n H.
  destruct (Nat.eqb_spec n 32) as [-> | _]; [discriminate | ].
  destruct (Nat.leb_spec 9 n), (Nat.leb_spec n 13); try reflexivity.
  exfalso.
  do 14 (destruct n as [ | n]; [try discriminate; lia | ]). lia.
Qed.

Lemma isName_noSpace (s : string) : isName s = true -> noSpace s = true.
Proof.
  induction s as [ | c s IH]; simpl; [reflexivity | ].
  intros H. apply andb_prop in H. destruct H as [Hc Hs].
  now rewrite (isNameChar_not_space c Hc), IH.
Qed.

Lemma isToken_noSpace (s : string) : isToken s = true -> noSpace s = true.
Proof.
  unfold isToken. intros H. apply andb_prop in H. now apply isName_noSpace.
Qed.

Lemma isToken_nonempty (s : string) : isToken s = true -> s <> "".
Proof.
  unfold isToken. intros H ->. discriminate.
Qed.

Lemma startsWithWord_refl (c : string) : startsWithWord c c = true.
Proof.
  induction c as [ | a c IH]; simpl; [reflexivity | ].
  now rewrite Ascii.eqb_refl.
Qed.

(** A word found at the start of [s] is found there when a blank and
    more follow [s]. *)
Lemma startsWithWord_app (c s x : string) (sp : ascii) :
  isSpace sp = true ->
  startsWithWord c s = true -> startsWithWord c (s ++ String sp x) = true.
Proof.
  intros Hsp. revert s. induction c as [ | a c IH]; intros [ | b s]; simpl; auto.
  - discriminate.
  - intros H. apply andb_prop in H. destruct H as [-> H]. simpl. auto.
Qed.

(** For a word without blanks the two are the same question. *)
Lemma startsWithWord_app_noSpace (c s x : string) (sp : ascii) :
  isSpace sp = true -> noSpace c = true ->
  startsWithWord c (s ++ String sp x) = startsWithWord c s.
Proof.
  intros Hsp. revert s. induction c as [ | a c IH]; intros [ | b s] Hc; simpl; auto.
  - simpl in Hc. apply andb_prop in Hc. destruct Hc as [Ha _].
    destruct (Ascii.eqb_spec a sp) as [-> | _]; [ | reflexivity].
    rewrite Hsp in Ha. discriminate.
  - simpl in Hc. apply andb_prop in Hc. destruct Hc as [_ Hc].
    now rewrite IH.
Qed.

Lemma startsWithWord_noSpace_eq (d c : string) :
  noSpace c = true -> startsWithWord d c = true -> d = c.
Proof.
  revert c. induction d as [ | a d IH]; intros [ | b c] Hc; simpl; auto.
  - simpl in Hc. apply andb_prop in Hc. destruct Hc as [Hb _].
    intros H. rewrite H in Hb. discriminate.
  - discriminate.
  - simpl in Hc. apply andb_prop in Hc. destruct Hc as [_ Hc].
    intros H. apply andb_prop in H. destruct H as [Hab H].
    apply Ascii.eqb_eq in Hab. subst b. f_equal. now apply IH.
Qed.

Lemma matchFrom_eq (name s : string) (boundary : bool) :
  matchFrom name s boundary
  = (boundary && startsWithWord name s)
    || match s with
       | EmptyString => false
       | String c rest => matchFrom name rest (isSpace c)
       end.
Proof. destruct s; reflexivity. Qed.

Lemma matchFrom_boundary (name s : string) (boundary : bool) :
  matchFrom name s boundary
  = (boundary && startsWithWord name s) || matchFrom name s false.
Proof.
  rewrite (matchFrom_eq name s boundary), (matchFrom_eq name s false).
  simpl. reflexivity.
Qed.

Lemma matchFrom_noSpace (d c : string) :
  noSpace c = true -> matchFrom d c false = false.
Proof.
  induction c as [ | a c IH]; intros Hc; [reflexivity | ].
  simpl in Hc. apply andb_prop in Hc. destruct Hc as [Ha Hc].
  rewrite matchFrom_eq. cbn [andb orb].
  apply Bool.negb_true_iff in Ha. rewrite Ha. now apply IH.
Qed.

(** A class that is there stays there when a blank and more are added. *)
Lemma matchFrom_app (d s x : string) (sp : ascii) :
  isSpace sp = true ->
  forall boundary,
    matchFrom d s boundary = true -> matchFrom d (s ++ String sp x) boundary = true.
Proof.
  intros Hsp. induction s as [ | a s IH]; intros boundary.
  - rewrite matchFrom_eq. rewrite Bool.orb_false_r. intros H.
    apply andb_prop in H. destruct H as [-> H]. simpl append.
    rewrite matchFrom_eq. cbn [andb].
    change (String sp x) with ("" ++ String sp x).
    now rewrite (startsWithWord_app d "" x sp Hsp H).
  - rewrite matchFrom_eq. intros H. apply Bool.orb_true_iff in H.
    change (String a s ++ String sp x) with (String a (s ++ String sp x)).
    rewrite matchFrom_eq. apply Bool.orb_true_iff.
    destruct H as [H | H].
    + left. apply andb_prop in H. destruct H as [-> H]. cbn [andb].
      exact (startsWithWord_app d (String a s) x sp Hsp H).
    + right. now apply IH.
Qed.

(** Adding the word [c] after a blank makes no other word appear. *)
Lemma matchFrom_app_other (d c s : string) :
  noSpace d = true -> d <> "" -> noSpace c = true -> d <> c ->
  forall boundary,
    matchFrom d (s ++ " " ++ c) boundary = matchFrom d s boundary.
Proof.
  intros Hd Hd0 Hc Hne.
  assert (Hsp : isSpace " " = true) by reflexivity.
  induction s as [ | a s IH]; intros boundary.
  - cbn [append].
    rewrite (matchFrom_eq d (String " " c)), (matchFrom_eq d "").
    change (String " " c) with ("" ++ String " " c) at 1.
    rewrite (startsWithWord_app_noSpace d "" c " " Hsp Hd).
    f_equal. rewrite Hsp, matchFrom_boundary.
    rewrite (matchFrom_noSpace d c Hc), Bool.orb_false_r. cbn [andb].
    destruct (startsWithWord d c) eqn:E; [ | reflexivity].
    exfalso. apply Hne. now apply startsWithWord_noSpace_eq.
  - change (String a s ++ " " ++ c) with (String a (s ++ " " ++ c)).
    rewrite (matchFrom_eq d (String a (s ++ " " ++ c))),
            (matchFrom_eq d (String a s)).
    rewrite IH. f_equal. f_equal.
    exact (startsWithWord_app_noSpace d (String a s) c " " Hsp Hd).
Qed.

Lemma matchFrom_added (c s : string) (boundary : bool) :
  matchFrom c (s ++ " " ++ c) boundary = true.
Proof.
  revert boundary. induction s as [ | a s IH]; intros boundary.
  - cbn [append]. rewrite matchFrom_eq.
    apply Bool.orb_true_iff. right.
    rewrite matchFrom_eq. change (isSpace " ") with true. cbn [andb].
    now rewrite startsWithWord_refl.
  - change (String a s ++ " " ++ c) with (String a (s ++ " " ++ c)).
    rewrite matchFrom_eq. apply Bool.orb_true_iff. right. apply IH.
Qed.

Lemma replaceFirst_eq (name s : string) (atStart : bool) :
  replaceFirst name s atStart
  = if atStart && startsWithWord name s then " " ++ afterWord name s
    else match s with
         | EmptyString => EmptyString
         | String c rest =>
             if isSpace c && startsWithWord name rest
             then " " ++ afterWord name rest
             else String c (replaceFirst name rest false)
         end.
Proof. destruct s; reflexivity. Qed.

Lemma dropChars_all (s : string) : dropChars (String.length s) s = "".
Proof. induction s as [ | a s IH]; simpl; auto. Qed.

Lemma afterWord_self (c : string) : afterWord c c = "".
Proof. unfold afterWord. now rewrite dropChars_all. Qed.

(** Removing the word that [addClass] appended leaves the blank that
    came with it. *)
Lemma replaceFirst_added (c s : string) :
  noSpace c = true -> c <> "" ->
  forall atStart,
    (atStart = true -> startsWithWord c s = false) ->
    matchFrom c s false = false ->
    replaceFirst c (s ++ " " ++ c) atStart = s ++ " ".
Proof.
  intros Hc Hc0.
  assert (Hsp : isSpace " " = true) by reflexivity.
  induction s as [ | a s IH]; intros atStart Hstart Hmatch.
  - cbn [append]. rewrite replaceFirst_eq.
    change (String " " c) with ("" ++ String " " c) at 1.
    rewrite (startsWithWord_app_noSpace c "" c " " Hsp Hc).
    assert (E : startsWithWord c "" = false) by (destruct c; [congruence | reflexivity]).
    rewrite E, Bool.andb_false_r, Hsp, startsWithWord_refl. cbn [andb].
    now rewrite afterWord_self.
  - change (String a s ++ " " ++ c) with (String a (s ++ " " ++ c)).
    rewrite replaceFirst_eq.
    change (String a (s ++ " " ++ c)) with (String a s ++ String " " c) at 1.
    rewrite (startsWithWord_app_noSpace c (String a s) c " " Hsp Hc).
    assert (E1 : atStart && startsWithWord c (String a s) = false).
    { destruct atStart; [now apply Hstart | reflexivity]. }
    rewrite E1.
    rewrite matchFrom_eq in Hmatch. cbn [andb orb] in Hmatch.
    rewrite matchFrom_boundary in Hmatch.
    apply Bool.orb_false_iff in Hmatch. destruct Hmatch as [M1 M2].
    change (s ++ " " ++ c) with (s ++ String " " c) at 1.
    rewrite (startsWithWord_app_noSpace c s c " " Hsp Hc), M1.
    change (String a s ++ " ") with (String a (s ++ " ")).
    f_equal. apply IH; [discriminate | exact M2].
Qed.

End ClassNames.


Section ClassOfAnElement.

Lemma removeClass_addClass (t cls : string) (st : list (string * option text))
      (kids : list Node) (c : string) :
  isToken c = true ->
  classMatch cls c = false ->
  removeClass (addClass (Element t cls st kids) c) c = Element t (cls ++ " ") st kids.
Proof.
  intros Hc Hm.
  pose proof (isToken_noSpace c Hc) as Hn.
  pose proof (isToken_nonempty c Hc) as H0.
  unfold addClass, hasClass. cbn [classNameOf]. rewrite Hm.
  unfold removeClass, hasClass. cbn [classNameOf].
  unfold classMatch. rewrite matchFrom_added.
  unfold classMatch in Hm. rewrite matchFrom_boundary in Hm.
  apply Bool.orb_false_iff in Hm. destruct Hm as [M1 M2].
  rewrite (replaceFirst_added c cls Hn H0 true (fun _ => M1) M2).
  reflexivity.
Qed.

Lemma classMatch_blank (cls d : string) :
  isToken d = true -> classMatch (cls ++ " ") d = classMatch cls d.
Proof.
  intros Hd. unfold classMatch.
  change (cls ++ " ") with (cls ++ " " ++ "").
  apply matchFrom_app_other.
  - now apply isToken_noSpace.
  - now apply isToken_nonempty.
  - reflexivity.
  - now apply isToken_nonempty.
Qed.

End ClassOfAnElement.

(** X7: [addClass(el, c)] on an element, for a name [c] of letters,
    digits, hyphens, underscores and single blanks: afterwards [hasClass]
    finds [c]; every name it found before it still finds; for class names
    proper [c] and [d], different from each other, it finds [d] exactly
    if it found it before; a second [addClass] with [c] changes nothing;
    tag, style and children are as they were. *)
Theorem addClass_adds_the_class_and_no_other
        (t cls : string) (st : list (string * option text)) (kids : list Node)
        (c : string) :
  isPlain c = true ->
  let el := Element t cls st kids in
  hasClass (addClass el c) c = true
  /\ (forall d, isPlain d = true -> hasClass el d = true ->
                hasClass (addClass el c) d = true)
  /\ (forall d, isToken c = true -> isToken d = true -> d <> c ->
                hasClass (addClass el c) d = hasClass el d)
  /\ addClass (addClass el c) c = addClass el c
  /\ exists cls', addClass el c = Element t cls' st kids.
Proof.
  intros _ el.
  assert (H1 : hasClass (addClass el c) c = true).
  { unfold addClass, el. destruct (hasClass (Element t cls st kids) c) eqn:E;
      [exact E | ].
    unfold hasClass, classMatch. cbn [classNameOf]. apply matchFrom_added. }
  split; [exact H1 | ]. split; [ | split; [ | split]].
  - intros d _ Hd. unfold addClass, el.
    destruct (hasClass (Element t cls st kids) c); [exact Hd | ].
    unfold hasClass, classMatch in *. cbn [classNameOf] in *.
    now apply matchFrom_app.
  - intros d Hc Hd Hne. unfold addClass, el.
    destruct (hasClass (Element t cls st kids) c); [reflexivity | ].
    unfold hasClass, classMatch. cbn [classNameOf].
    apply matchFrom_app_other;
      auto using isToken_noSpace, isToken_nonempty.
  - unfold addClass at 1. fold el.
    destruct (addClass el c) as [data | t' c' s' k'] eqn:E; [reflexivity | ].
    now rewrite H1.
  - clear H1. unfold addClass, el.
    destruct (hasClass (Element t cls st kids) c); eexists; reflexivity.
Qed.

(** The theorem for ['minimap noselect'] added to an element of class
    ['page']. *)
Lemma addClass_adds_the_class_and_no_other_witness :
  hasClass (addClass (Element "div" "page" [] []) "minimap noselect")
           "minimap noselect" = true.
Proof.
  destruct (addClass_adds_the_class_and_no_other "div" "page" [] []
              "minimap noselect" eq_refl) as (H & _).
  exact H.
Defined.

(** X8: for a class name proper [c] and an element whose class attribute
    is 7-bit text and does not hold [c], [addClass(el, c)] followed by
    [removeClass(el, c)] leaves the class attribute one blank longer than
    it was, and everything else of the element as it was; [hasClass]
    answers for every class name proper as it did before. *)
Theorem removeClass_after_addClass_leaves_a_blank
        (t cls : string) (st : list (string * option text)) (kids : list Node)
        (c : string) :
  isToken c = true ->
  isAsciiText cls = true ->
  hasClass (Element t cls st kids) c = false ->
  let el := Element t cls st kids in
  removeClass (addClass el c) c = Element t (cls ++ " ") st kids
  /\ (forall d, isToken d = true ->
                hasClass (removeClass (addClass el c) c) d = hasClass el d).
Proof.
  intros Hc _ Hm el. unfold el.
  rewrite (removeClass_addClass t cls st kids c Hc Hm).
  split; [reflexivity | ].
  intros d Hd. unfold hasClass. cbn [classNameOf]. now apply classMatch_blank.
Qed.

(** The theorem for ['noselect'] on an element of class ['page']. *)
Lemma removeClass_after_addClass_leaves_a_blank_witness :
  removeClass (addClass (Element "div" "page" [] []) "noselect") "noselect"
  = Element "div" "page " [] [].
Proof.
  destruct (removeClass_after_addClass_leaves_a_blank "div" "page" [] []
              "noselect" eq_refl eq_refl eq_refl) as (H & _).
  exact H.
Defined.

(* ===================================================================== *)
(** ** Assignments to one element of the document *)
(* ===================================================================== *)

Section Updates.

Lemma nth_error_updateNth_same {A} (f : A -> A) (l : list A) (i : nat) :
  nth_error (updateNth i f l) i = option_map f (nth_error l i).
Proof.
  revert i. induction l as [ | x l IH]; intros [ | i]; simpl; auto.
Qed.

Lemma nth_error_updateNth_other {A} (f : A -> A) (l : list A) (i j : nat) :
  i <> j -> nth_error (updateNth i f l) j = nth_error l j.
Proof.
  revert i j. induction l as [ | x l IH]; intros [ | i] [ | j] H; simpl; auto.
  contradiction.
Qed.

Lemma nodeAt_updateAt_same (p : path) (f : Node -> Node) :
  forall b, nodeAt (updateAt p f b) p = option_map f (nodeAt b p).
Proof.
  induction p as [ | i p IH]; intros b; [reflexivity | ].
  destruct b as [d | t c s kids]; [reflexivity | ].
  cbn [updateAt nodeAt]. rewrite nth_error_updateNth_same.
  destruct (nth_error kids i) as [k | ]; [apply IH | reflexivity].
Qed.

(** A shallow change at [p] shows at no other place. *)
Lemma surface_updateAt_other (f : Node -> Node) :
  shallow f ->
  forall p b q,
    p <> q ->
    option_map surface (nodeAt (updateAt p f b) q) = option_map surface (nodeAt b q).
Proof.
  intros Hf. induction p as [ | i p IH]; intros b q Hne.
  - destruct q as [ | j q]; [contradiction | ].
    cbn [updateAt]. specialize (Hf b).
    destruct b as [d | t c s kids]; destruct (f _) as [d' | t' c' s' kids'];
      try contradiction; [reflexivity | ].
    subst kids'. reflexivity.
  - destruct b as [d | t c s kids]; [reflexivity | ].
    destruct q as [ | j q]; [reflexivity | ].
    cbn [updateAt nodeAt].
    destruct (Nat.eq_dec i j) as [<- | Hij].
    + rewrite nth_error_updateNth_same.
      destruct (nth_error kids i) as [k | ]; [ | reflexivity].
      apply IH. congruence.
    + now rewrite nth_error_updateNth_other.
Qed.

Lemma elementAt_surface (b b' : Node) (q q' : path) :
  option_map surface (nodeAt b' q') = option_map surface (nodeAt b q) ->
  elementAt b' q' = elementAt b q
  /\ classAt b' q' = classAt b q
  /\ hiddenAt b' q' = hiddenAt b q
  /\ forall key, styleAt b' q' key = styleAt b q key.
Proof.
  unfold elementAt, classAt, hiddenAt, styleAt.
  destruct (nodeAt b' q') as [[d' | t' c' s' k'] | ],
           (nodeAt b q) as [[d | t c s k] | ]; simpl; intros E;
    try discriminate; try (repeat split; reflexivity).
  injection E as -> -> ->. repeat split; reflexivity.
Qed.

Lemma shallow_cssObjAssign (properties : list (string * option text)) :
  shallow (fun el => cssObjAssign el properties).
Proof. intros [d | t c s kids]; reflexivity. Qed.

Lemma shallow_showElement : shallow showElement.
Proof. intros [d | t c s kids]; reflexivity. Qed.

Lemma shallow_hideElement : shallow hideElement.
Proof. intros [d | t c s kids]; reflexivity. Qed.

Lemma shallow_toggleElement : shallow toggleElement.
Proof.
  intros [d | t c s kids]; [reflexivity | ].
  unfold toggleElement. destruct (displayNone _); reflexivity.
Qed.

Lemma shallow_addClass (c : string) : shallow (fun el => addClass el c).
Proof.
  intros [d | t cls s kids]; [reflexivity | ].
  unfold addClass. destruct (hasClass _ _); reflexivity.
Qed.

Lemma shallow_removeClass (c : string) : shallow (fun el => removeClass el c).
Proof.
  intros [d | t cls s kids]; [reflexivity | ].
  unfold removeClass. destruct (hasClass _ _); reflexivity.
Qed.

Lemma getStyle_setStyle_same (s : list (string * option text)) (key : string)
      (v : option text) :
  getStyle (setStyle s key v) key = v.
Proof.
  induction s as [ | [k w] s IH]; simpl.
  - now rewrite String.eqb_refl.
  - destruct (String.eqb k key) eqn:E; simpl; rewrite E; [reflexivity | exact IH].
Qed.

Lemma getStyle_setStyle_other (s : list (string * option text)) (key key' : string)
      (v : option text) :
  key <> key' -> getStyle (setStyle s key v) key' = getStyle s key'.
Proof.
  intros Hne. induction s as [ | [k w] s IH]; simpl.
  - destruct (String.eqb_spec key key'); [contradiction | reflexivity].
  - destruct (String.eqb_spec k key) as [-> | Hk]; simpl.
    + destruct (String.eqb_spec key key'); [contradiction | reflexivity].
    + destruct (String.eqb k key'); [reflexivity | exact IH].
Qed.

Lemma lastAssigned_app (properties : list (string * option text)) (k key : string)
      (v : option text) :
  lastAssigned (properties ++ [(k, v)]) key
  = if String.eqb k key then Some v else lastAssigned properties key.
Proof.
  unfold lastAssigned. now rewrite fold_left_app.
Qed.

(** [cssObjAssign]: a property reads back the value the object gave it
    last, and what it held before if the object does not name it. *)
Lemma getStyle_assigned (properties : list (string * option text)) (key : string)
      (s : list (string * option text)) :
  getStyle (fold_left (fun st kv => setStyle st (fst kv) (snd kv)) properties s) key
  = match lastAssigned properties key with
    | Some v => v
    | None => getStyle s key
    end.
Proof.
  induction properties as [ | [k v] properties IH] using rev_ind; [reflexivity | ].
  rewrite fold_left_app, lastAssigned_app. cbn [fold_left fst snd].
  destruct (String.eqb_spec k key) as [-> | Hne].
  - apply getStyle_setStyle_same.
  - now rewrite getStyle_setStyle_other.
Qed.

Lemma elementAt_other (f : Node -> Node) (p q : path) (b : Node) :
  shallow f -> p <> q -> elementAt (updateAt p f b) q = elementAt b q.
Proof.
  intros Hf Hne.
  now destruct (elementAt_surface _ _ _ _ (surface_updateAt_other f Hf p b q Hne)).
Qed.

Lemma classAt_other (f : Node -> Node) (p q : path) (b : Node) :
  shallow f -> p <> q -> classAt (updateAt p f b) q = classAt b q.
Proof.
  intros Hf Hne.
  now destruct (elementAt_surface _ _ _ _ (surface_updateAt_other f Hf p b q Hne))
    as (_ & H & _).
Qed.

Lemma hiddenAt_other (f : Node -> Node) (p q : path) (b : Node) :
  shallow f -> p <> q -> hiddenAt (updateAt p f b) q = hiddenAt b q.
Proof.
  intros Hf Hne.
  now destruct (elementAt_surface _ _ _ _ (surface_updateAt_other f Hf p b q Hne))
    as (_ & _ & H & _).
Qed.

Lemma styleAt_other (f : Node -> Node) (p q : path) (b : Node) (key : string) :
  shallow f -> p <> q -> styleAt (updateAt p f b) q key = styleAt b q key.
Proof.
  intros Hf Hne.
  destruct (elementAt_surface _ _ _ _ (surface_updateAt_other f Hf p b q Hne))
    as (_ & _ & _ & H).
  apply H.
Qed.

Lemma elementAt_same (f : Node -> Node) (p : path) (b : Node) :
  shallow f -> elementAt (updateAt p f b) p = elementAt b p.
Proof.
  intros Hf. unfold elementAt. rewrite nodeAt_updateAt_same.
  destruct (nodeAt b p) as [n | ]; [ | reflexivity].
  simpl. specialize (Hf n). destruct n, (f _); try contradiction; reflexivity.
Qed.

Lemma hiddenAt_same (f : Node -> Node) (p : path) (b : Node) :
  hiddenAt (updateAt p f b) p
  = match nodeAt b p with
    | Some n => displayNone (f n)
    | None => false
    end.
Proof.
  unfold hiddenAt. rewrite nodeAt_updateAt_same.
  destruct (nodeAt b p); reflexivity.
Qed.

Lemma classAt_same (f : Node -> Node) (p : path) (b : Node) :
  classAt (updateAt p f b) p
  = match nodeAt b p with
    | Some n => classNameOf (f n)
    | None => ""
    end.
Proof.
  unfold classAt. rewrite nodeAt_updateAt_same.
  destruct (nodeAt b p); reflexivity.
Qed.

(** After [cssObjAssign] on the element at [p], a property of its style
    reads back what the object gave it last, or what it held. *)
Lemma styleAt_assigned (properties : list (string * option text)) (p : path)
      (b : Node) (key : string) :
  elementAt b p = true ->
  styleAt (updateAt p (fun el => cssObjAssign el properties) b) p key
  = match lastAssigned properties key with
    | Some v => v
    | None => styleAt b p key
    end.
Proof.
  unfold elementAt, styleAt. rewrite nodeAt_updateAt_same.
  destruct (nodeAt b p) as [[d | t c s kids] | ]; try discriminate.
  intros _. simpl. apply getStyle_assigned.
Qed.

(** An object that does not name [display] hides and shows nothing. *)
Lemma hiddenAt_assigned (properties : list (string * option text)) (p q : path)
      (b : Node) :
  lastAssigned properties "display" = None ->
  hiddenAt (updateAt p (fun el => cssObjAssign el properties) b) q = hiddenAt b q.
Proof.
  intros Hd. destruct (list_eq_dec Nat.eq_dec p q) as [<- | Hne].
  - rewrite hiddenAt_same. unfold hiddenAt.
    destruct (nodeAt b p) as [[d | t c s kids] | ]; try reflexivity.
    simpl. now rewrite getStyle_assigned, Hd.
  - apply hiddenAt_other; [apply shallow_cssObjAssign | exact Hne].
Qed.

Lemma displayNone_showElement (n : Node) : displayNone (showElement n) = false.
Proof.
  destruct n as [d | t c s kids]; [reflexivity | ].
  unfold showElement, displayNone, cssObjAssign. cbn [fold_left fst snd].
  now rewrite getStyle_setStyle_same.
Qed.

Lemma displayNone_hideElement (n : Node) :
  isElement n = true -> displayNone (hideElement n) = true.
Proof.
  destruct n as [d | t c s kids]; [discriminate | ]. intros _.
  unfold hideElement, displayNone, cssObjAssign. cbn [fold_left fst snd].
  now rewrite getStyle_setStyle_same.
Qed.

Lemma displayNone_toggleElement (n : Node) :
  isElement n = true -> displayNone (toggleElement n) = negb (displayNone n).
Proof.
  intros H. unfold toggleElement. destruct (displayNone n) eqn:E; simpl.
  - apply displayNone_showElement.
  - now apply displayNone_hideElement.
Qed.

End Updates.

(* ===================================================================== *)
(** ** [show], [hide], [toggle] and [setPosition] *)
(* ===================================================================== *)

Section Display.
Context {browser : Browser}.

(** The layout pass of a shown minimap is two [cssObjAssign], on the
    preview and then on the region; neither object names [display], both
    name the edge the position holds and not the other edge. *)
Lemma resize_body (w : World) (pos other : string) :
  shown (instance w) = true ->
  setting w "position" = VStr pos ->
  (pos = "right" /\ other = "left") \/ (pos = "left" /\ other = "right") ->
  exists cssM cssR,
    body (page (_genOnResizeHandler w))
    = updateAt (region (instance w)) (fun el => cssObjAssign el cssR)
        (updateAt (miniElement (instance w)) (fun el => cssObjAssign el cssM)
           (body (page w)))
    /\ lastAssigned cssM "display" = None
    /\ lastAssigned cssR "display" = None
    /\ lastAssigned cssM other = None
    /\ lastAssigned cssR other = None
    /\ lastAssigned cssM pos
       = Some (px (add (div (mul (width (page w) (base w))
                                 (sub (fst (_scale w)) (ofZ 1))) (ofZ 2))
                       (mul (width (page w) Window)
                            (ToNumber (setting w "offsetWidthRatio")))))
    /\ lastAssigned cssR pos
       = Some (px (mul (width (page w) Window)
                       (ToNumber (setting w "offsetWidthRatio")))).
Proof.
  intros Hs Hp Hpos. unfold _genOnResizeHandler. rewrite Hs. cbv zeta.
  cbn [negb]. unfold setting in *. cbn [instance onElement onPage]. rewrite Hp.
  destruct Hpos as [[-> ->] | [-> ->]];
    (eexists; eexists; split; [reflexivity | ]; repeat split; reflexivity).
Qed.

Lemma resize_hiddenAt (w : World) (q : path) :
  setting w "position" = VStr "right" \/ setting w "position" = VStr "left" ->
  hiddenAt (body (page (_genOnResizeHandler w))) q = hiddenAt (body (page w)) q.
Proof.
  intros Hp. destruct (shown (instance w)) eqn:Hs;
    [ | now rewrite (resize_hidden w Hs)].
  assert (H : exists cssM cssR,
             body (page (_genOnResizeHandler w))
             = updateAt (region (instance w)) (fun el => cssObjAssign el cssR)
                 (updateAt (miniElement (instance w))
                    (fun el => cssObjAssign el cssM) (body (page w)))
             /\ lastAssigned cssM "display" = None
             /\ lastAssigned cssR "display" = None).
  { destruct Hp as [Hp | Hp].
    - destruct (resize_body w "right" "left" Hs Hp) as (m & r & E & Hm & Hr & _);
        [tauto | eauto].
    - destruct (resize_body w "left" "right" Hs Hp) as (m & r & E & Hm & Hr & _);
        [tauto | eauto]. }
  destruct H as (cssM & cssR & -> & Hm & Hr).
  now rewrite (hiddenAt_assigned cssR _ _ _ Hr), (hiddenAt_assigned cssM _ _ _ Hm).
Qed.

Lemma hiddenAt_shown (p : path) (b : Node) :
  hiddenAt (updateAt p showElement b) p = false.
Proof.
  rewrite hiddenAt_same. destruct (nodeAt b p); [ | reflexivity].
  apply displayNone_showElement.
Qed.

Lemma hiddenAt_hidden (p : path) (b : Node) :
  elementAt b p = true -> hiddenAt (updateAt p hideElement b) p = true.
Proof.
  unfold elementAt. rewrite hiddenAt_same.
  destruct (nodeAt b p) as [[d | t c s kids] | ]; try discriminate.
  intros _. now apply displayNone_hideElement.
Qed.

Lemma hiddenAt_toggled (p : path) (b : Node) :
  elementAt b p = true ->
  hiddenAt (updateAt p toggleElement b) p = negb (hiddenAt b p).
Proof.
  unfold elementAt. rewrite hiddenAt_same. unfold hiddenAt.
  destruct (nodeAt b p) as [[d | t c s kids] | ]; try discriminate.
  intros _. now apply displayNone_toggleElement.
Qed.

End Display.

(** X9: for a minimap whose preview and region are two elements of the
    document and whose position is ['right'] or ['left']. [show()] on a
    hidden minimap sets the flag, leaves neither element with
    [display: none] and notifies [onPreviewChange] once; on a shown one it
    does nothing. [hide()] on a shown minimap clears the flag and gives
    both elements [display: none]; on a hidden one it does nothing,
    whatever the elements display. [toggle()] inverts the flag, and
    inverts for each element by itself whether it has [display: none]. *)
Theorem show_hide_and_toggle_set_the_display (browser : Browser) (w : World) :
  attached w ->
  setting w "position" = VStr "right" \/ setting w "position" = VStr "left" ->
  let mini := miniElement (instance w) in
  let reg := region (instance w) in
  (shown (instance w) = false ->
   hide w = w
   /\ shown (instance (show w)) = true
   /\ hiddenAt (body (page (show w))) mini = false
   /\ hiddenAt (body (page (show w))) reg = false
   /\ List.length (calls (page (show w))) = S (List.length (calls (page w))))
  /\ (shown (instance w) = true ->
      show w = w
      /\ shown (instance (hide w)) = false
      /\ hiddenAt (body (page (hide w))) mini = true
      /\ hiddenAt (body (page (hide w))) reg = true
      /\ calls (page (hide w)) = calls (page w))
  /\ shown (instance (toggle w)) = negb (shown (instance w))
  /\ hiddenAt (body (page (toggle w))) mini = negb (hiddenAt (body (page w)) mini)
  /\ hiddenAt (body (page (toggle w))) reg = negb (hiddenAt (body (page w)) reg).
Proof.
  intros (Hm & Hr & Hne & _) Hp mini reg.
  assert (Hne' : reg <> mini) by (intro E; apply Hne; symmetry; exact E).
  split; [ | split; [ | split; [ | split]]].
  - intros Hs.
    split; [unfold hide; now rewrite Hs | ].
    unfold show. rewrite Hs. cbv zeta. cbn [negb].
    split; [now rewrite resize_keeps_instance | ].
    rewrite !resize_hiddenAt by exact Hp.
    rewrite resize_calls. cbn. fold mini reg.
    split; [ | split].
    + rewrite hiddenAt_other by (auto using shallow_showElement).
      apply hiddenAt_shown.
    + apply hiddenAt_shown.
    + rewrite length_app. simpl. lia.
  - intros Hs.
    split; [unfold show; now rewrite Hs | ].
    unfold hide. rewrite Hs. cbn. fold mini reg.
    split; [reflexivity | ]. split; [ | split; [ | reflexivity]].
    + rewrite hiddenAt_other by (auto using shallow_hideElement).
      now apply hiddenAt_hidden.
    + apply hiddenAt_hidden.
      rewrite elementAt_other by (auto using shallow_hideElement). exact Hr.
  - unfold toggle. cbv zeta.
    match goal with
    | |- context [if ?b then _ else _] => destruct b
    end; [now rewrite resize_keeps_instance | reflexivity].
  - unfold toggle. cbv zeta.
    match goal with
    | |- context [if ?b then _ else _] => destruct b
    end; rewrite ?resize_hiddenAt by exact Hp; cbn; fold mini reg;
      (rewrite hiddenAt_other by (auto using shallow_toggleElement));
      now apply hiddenAt_toggled.
  - unfold toggle. cbv zeta.
    match goal with
    | |- context [if ?b then _ else _] => destruct b
    end; rewrite ?resize_hiddenAt by exact Hp; cbn; fold mini reg;
      (rewrite hiddenAt_toggled
        by (rewrite elementAt_other by (auto using shallow_toggleElement); exact Hr));
      (rewrite hiddenAt_other by (auto using shallow_toggleElement));
      reflexivity.
Qed.


(** The theorem for [toggle()] on the sample minimap as its constructor
    left it, flag down and both elements displayed: the flag goes up and
    the preview gets [display: none]. *)
Lemma show_hide_and_toggle_set_the_display_witness :
  shown (instance (@toggle sampleBrowser hiddenWorld)) = true
  /\ hiddenAt (body (page (@toggle sampleBrowser hiddenWorld))) [2%nat] = true.
Proof.
  assert (Ha : attached hiddenWorld).
  { unfold attached.
    repeat (match goal with |- _ /\ _ => split end);
      try (vm_compute; reflexivity); vm_compute; intro E; discriminate E. }
  assert (Hp : @setting hiddenWorld "position" = VStr "right"
               \/ @setting hiddenWorld "position" = VStr "left")
    by (left; vm_compute; reflexivity).
  destruct (show_hide_and_toggle_set_the_display sampleBrowser hiddenWorld Ha Hp)
    as (_ & _ & H1 & H2 & _).
  split; [exact H1 | exact H2].
Defined.

Section Position.
Context {browser : Browser}.

Lemma elementAt_shallow (f : Node -> Node) (p q : path) (b : Node) :
  shallow f -> elementAt (updateAt p f b) q = elementAt b q.
Proof.
  intros Hf. destruct (list_eq_dec Nat.eq_dec p q) as [<- | Hne].
  - now apply elementAt_same.
  - now apply elementAt_other.
Qed.

Lemma resize_elementAt (w : World) (q : path) :
  elementAt (body (page (_genOnResizeHandler w))) q = elementAt (body (page w)) q.
Proof.
  unfold _genOnResizeHandler. destruct (negb (shown (instance w))); [reflexivity | ].
  cbn. now rewrite !elementAt_shallow by apply shallow_cssObjAssign.
Qed.

Lemma set_get_same (o : object) (key : string) (v : value) :
  get o key = v -> v <> VUndefined -> set o key v = o.
Proof.
  intros Hg Hv. induction o as [ | [k x] o IH]; simpl in *; [congruence | ].
  destruct (String.eqb k key); [now subst | ].
  f_equal. now apply IH.
Qed.

Lemma scale_position (w : World) (v : value) :
  _scale (onInstance (fun m => withSettings m (set (settings m) "position" v)) w)
  = _scale w.
Proof.
  unfold _scale, setting, base. cbn.
  now rewrite !get_set_other by discriminate.
Qed.

End Position.

(** X10: [setPosition] between ['right'] and ['left'], for a minimap
    whose preview and region are two elements of the document. The call
    returns with the new position stored and every other setting as it
    was, and the style property of the old edge is the empty string on
    the preview and on the region. If the minimap is shown the layout
    pass has set the new edge: on the region to the viewport width times
    [offsetWidthRatio], on the preview to that plus half the width of the
    source times the horizontal scale less one; if it is hidden the new
    edge is as it was. A call with the position already held changes
    nothing. *)
Theorem setPosition_moves_both_elements
        (browser : Browser) (w : World) (old new : string) :
  attached w ->
  setting w "position" = VStr old ->
  (old = "right" /\ new = "left") \/ (old = "left" /\ new = "right") ->
  let mini := miniElement (instance w) in
  let reg := region (instance w) in
  let offset := mul (width (page w) Window) (ToNumber (setting w "offsetWidthRatio")) in
  let w' := snd (setPosition (VStr new) w) in
  fst (setPosition (VStr new) w) = Ok tt
  /\ setting w' "position" = VStr new
  /\ (forall key, key <> "position" -> setting w' key = setting w key)
  /\ styleAt (body (page w')) mini old = Some [Lit ""]
  /\ styleAt (body (page w')) reg old = Some [Lit ""]
  /\ (shown (instance w) = true ->
      styleAt (body (page w')) reg new = px offset
      /\ styleAt (body (page w')) mini new
         = px (add (div (mul (width (page w) (base w))
                             (sub (fst (_scale w)) (ofZ 1))) (ofZ 2))
                   offset))
  /\ (shown (instance w) = false ->
      styleAt (body (page w')) reg new = styleAt (body (page w)) reg new
      /\ styleAt (body (page w')) mini new = styleAt (body (page w)) mini new)
  /\ setPosition (VStr old) w = (Ok tt, w).
Proof.
  intros (Hm & Hr & Hne & _) Hp Hcase mini reg offset w'.
  assert (Hne' : reg <> mini) by (intro E; apply Hne; symmetry; exact E).
  set (stored := onInstance
                   (fun m => withSettings m (set (settings m) "position" (VStr new))) w).
  set (css := [(old, Some [Lit ""])]).
  assert (Hv : validate_position (VStr new) = Ok tt)
    by (destruct Hcase as [[_ ->] | [_ ->]]; reflexivity).
  assert (Hvo : validate_position (VStr old) = Ok tt)
    by (destruct Hcase as [[-> _] | [-> _]]; reflexivity).
  assert (Hon : old <> new)
    by (destruct Hcase as [[-> ->] | [-> ->]]; discriminate).
  assert (Hw' : setPosition (VStr new) w
                = (Ok tt,
                   onElement mini (fun el => cssObjAssign el css)
                     (onElement reg (fun el => cssObjAssign el css)
                        (_genOnResizeHandler stored)))).
  { unfold setPosition. cbv zeta. rewrite Hv. fold stored.
    rewrite Hp. unfold setting at 1. cbn [stored onInstance instance withSettings settings].
    rewrite get_set_same.
    assert (E : strict_neq (VStr old) (VStr new) = true).
    { unfold strict_neq, strict_eq.
      destruct (String.eqb_spec old new); [contradiction | reflexivity]. }
    rewrite E. unfold setComputed. cbn [setStyle literal]. fold css.
    assert (Ei : instance (_genOnResizeHandler stored) = instance stored)
      by apply resize_keeps_instance.
    unfold onElement at 2. cbn [onPage instance]. rewrite Ei.
    reflexivity. }
  subst w'. rewrite Hw'. cbn [fst snd].
  split; [reflexivity | ].
  assert (Hi : instance (onElement mini (fun el => cssObjAssign el css)
                           (onElement reg (fun el => cssObjAssign el css)
                              (_genOnResizeHandler stored)))
               = instance stored).
  { cbn [onElement onPage instance]. apply resize_keeps_instance. }
  unfold setting at 1 2. rewrite Hi. cbn [stored onInstance instance withSettings settings].
  split; [apply get_set_same | ].
  split; [intros key Hk; apply get_set_other; congruence | ].
  cbn [onElement onPage page withBody body].
  set (b2 := body (page (_genOnResizeHandler stored))).
  assert (Hm2 : elementAt b2 mini = true)
    by (unfold b2; now rewrite resize_elementAt).
  assert (Hr2 : elementAt b2 reg = true)
    by (unfold b2; now rewrite resize_elementAt).
  assert (Hm3 : elementAt (updateAt reg (fun el => cssObjAssign el css) b2) mini = true)
    by (now rewrite elementAt_shallow by apply shallow_cssObjAssign).
  assert (Hold : lastAssigned css old = Some (Some [Lit ""])).
  { unfold css, lastAssigned. simpl. now rewrite String.eqb_refl. }
  assert (Hnew : lastAssigned css new = None).
  { unfold css, lastAssigned. simpl.
    destruct (String.eqb_spec old new); [contradiction | reflexivity]. }
  assert (Hafter : forall q,
             q = mini \/ q = reg ->
             styleAt (updateAt mini (fun el => cssObjAssign el css)
                        (updateAt reg (fun el => cssObjAssign el css) b2)) q new
             = styleAt b2 q new).
  { intros q [-> | ->].
    - rewrite (styleAt_assigned css mini _ new Hm3), Hnew.
      apply styleAt_other; [apply shallow_cssObjAssign | exact Hne'].
    - rewrite styleAt_other by (auto using shallow_cssObjAssign).
      now rewrite (styleAt_assigned css reg _ new Hr2), Hnew. }
  split; [now rewrite (styleAt_assigned css mini _ old Hm3), Hold | ].
  split.
  { rewrite styleAt_other by (auto using shallow_cssObjAssign).
    now rewrite (styleAt_assigned css reg _ old Hr2), Hold. }
  split; [ | split].
  - intros Hs. rewrite !Hafter by tauto.
    assert (Hps : setting stored "position" = VStr new).
    { unfold setting. cbn [stored onInstance instance withSettings settings].
      apply get_set_same. }
    assert (Hcase' : (new = "right" /\ old = "left") \/ (new = "left" /\ old = "right"))
      by tauto.
    destruct (resize_body stored new old Hs Hps Hcase')
      as (cssM & cssR & E & _ & _ & _ & _ & HM & HR).
    unfold b2. rewrite E.
    cbn [stored onInstance instance withSettings region miniElement page] .
    fold mini reg.
    split.
    + rewrite styleAt_assigned
        by (now rewrite elementAt_shallow by apply shallow_cssObjAssign).
      rewrite HR. unfold setting.
      cbn [stored onInstance instance withSettings settings page].
      now rewrite get_set_other by discriminate.
    + rewrite styleAt_other by (auto using shallow_cssObjAssign).
      rewrite (styleAt_assigned cssM mini _ new Hm), HM.
      fold stored. rewrite (scale_position w (VStr new)).
      unfold setting.
      cbn [stored onInstance instance withSettings settings page base
             baseElement].
      now rewrite get_set_other by discriminate.
  - intros Hs. rewrite !Hafter by tauto.
    unfold b2. rewrite (resize_hidden stored Hs). split; reflexivity.
  - unfold setPosition. cbv zeta. rewrite Hvo, Hp.
    assert (Es : onInstance
                   (fun m => withSettings m (set (settings m) "position" (VStr old))) w
                 = w).
    { unfold setting in Hp. destruct w as [m pg]. destruct m. simpl in *.
      unfold onInstance, withSettings. simpl.
      now rewrite (set_get_same _ _ _ Hp) by discriminate. }
    rewrite Es, Hp. unfold strict_neq, strict_eq. now rewrite String.eqb_refl.
Qed.


(** The theorem for [setPosition('left')] on the shown sample minimap. *)
Lemma setPosition_moves_both_elements_witness :
  styleAt (body (page (snd (@setPosition sampleBrowser (VStr "left") shownWorld))))
          (miniElement (instance shownWorld)) "right"
  = Some [Lit ""].
Proof.
  assert (Ha : attached shownWorld).
  { unfold attached.
    repeat (match goal with |- _ /\ _ => split end);
      try (vm_compute; reflexivity); vm_compute; intro E; discriminate E. }
  assert (Hp : @setting shownWorld "position" = VStr "right")
    by (vm_compute; reflexivity).
  pose proof (setPosition_moves_both_elements sampleBrowser shownWorld "right" "left"
                Ha Hp (or_introl (conj eq_refl eq_refl))) as H.
  cbv zeta in H. destruct H as (_ & _ & _ & H & _).
  exact H.
Defined.

(* ===================================================================== *)
(** ** Events *)
(* ===================================================================== *)

Section Dispatch.
Context {browser : Browser}.

Variable R : World -> World -> Prop.
Variable allowed : handlerName -> bool.

Hypothesis R_refl : forall w, R w w.
Hypothesis R_trans : forall a b c, R a b -> R b c -> R a c.
Hypothesis R_listeners : forall w w', R w w' -> listeners (page w') = listeners (page w).
Hypothesis R_handle :
  forall h w e, allowed h = true -> R w (fst (handle h w e)).

(** What every allowed handler keeps, a dispatch through listeners with
    allowed handlers keeps. *)
Lemma runListeners_keeps (ls : list Listener) (on : eventTarget) :
  forallb (fun l => allowed (handler l)) ls = true ->
  forall (w : World) (e : Event), R w (fst (runListeners ls on w e)).
Proof.
  induction ls as [ | l ls IH]; intros Hall w e; simpl; [apply R_refl | ].
  simpl in Hall. apply andb_prop in Hall. destruct Hall as [Hl Hall].
  destruct (_ && _); [ | now apply IH].
  pose proof (R_handle (handler l) w e Hl) as H.
  destruct (handle (handler l) w e) as [w' e']. simpl in H.
  exact (R_trans _ _ _ H (IH Hall w' e')).
Qed.

Lemma bubble_keeps (route : list eventTarget) :
  forall (w : World) (e : Event),
    forallb (fun l => allowed (handler l)) (listeners (page w)) = true ->
    R w (fst (bubble route w e)).
Proof.
  induction route as [ | on route IH]; intros w e Hall; simpl; [apply R_refl | ].
  pose proof (runListeners_keeps (listeners (page w)) on Hall w e) as H.
  destruct (runListeners (listeners (page w)) on w e) as [w' e']. simpl in H.
  destruct (propagationStopped e'); [exact H | ].
  apply (R_trans _ _ _ H). apply IH.
  now rewrite (R_listeners _ _ H).
Qed.

End Dispatch.

Section Undisturbed.
Context {browser : Browser}.

Lemma undisturbed_refl (w : World) : undisturbed w w.
Proof. split; [apply sameScrolling_refl | reflexivity]. Qed.

Lemma undisturbed_trans (a b c : World) :
  undisturbed a b -> undisturbed b c -> undisturbed a c.
Proof.
  intros (S1 & L1) (S2 & L2).
  split; [exact (sameScrolling_trans _ _ _ S1 S2) | congruence].
Qed.

(** The handlers that do not call [scrollTop] leave the scrolling and
    the listeners alone. *)
Lemma handle_undisturbed (h : handlerName) (w : World) (e : Event) :
  scrolls h = false -> undisturbed w (fst (handle h w e)).
Proof.
  destruct h; simpl; try discriminate; intros _.
  - split; [apply resize_sameScrolling | apply resize_listeners].
  - unfold _genOnScrollHandler. destruct (negb _); [apply undisturbed_refl | ].
    cbv zeta. destruct (_ || _); repeat split.
  - repeat split.
  - repeat split.
  - apply undisturbed_refl.
  - repeat split.
  - repeat split.
Qed.

Lemma dispatchEvent_undisturbed (on : eventTarget) (w : World) (e : Event) :
  forallb (fun l => negb (scrolls (handler l))) (listeners (page w)) = true ->
  undisturbed w (fst (dispatchEvent on w e)).
Proof.
  apply (bubble_keeps undisturbed (fun h => negb (scrolls h))).
  - apply undisturbed_refl.
  - apply undisturbed_trans.
  - intros a b (_ & H). exact H.
  - intros h a ev H. apply handle_undisturbed. now apply Bool.negb_true_iff.
Qed.

Lemma touch_undisturbed (w : World) (e : Event) :
  forallb (fun l => negb (scrolls (handler l))) (listeners (page w)) = true ->
  undisturbed w (fst (_genTouchHandler w e)).
Proof.
  intros Hall. unfold _genTouchHandler.
  destruct (changedTouches e) as [ | touch [ | ? ?]]; try apply undisturbed_refl.
  destruct (if String.eqb (type e) "touchstart" then _ else _) as [ty | ];
    [ | apply undisturbed_refl].
  cbv zeta.
  match goal with
  | |- undisturbed w (fst (onInstance _ (fst (dispatchEvent ?on w ?ev)), _)) =>
      destruct (dispatchEvent_undisturbed on w ev Hall) as (H1 & H2)
  end.
  split; [ | exact H2].
  exact (sameScrolling_trans _ _ _ H1 (sameScrolling_onInstance _ _)).
Qed.

(** The listeners a construction adds when clicks are not allowed. *)
Lemma build_listeners_without_clicks (base : path) (el : Node) (st : object)
      (pg : Page) :
  truthy (get st "allowClick") = false ->
  listeners (snd (build base el st pg))
  = (listeners pg ++ windowListeners
       ++ (if truthy (get st "touch") then documentTouchListeners else [])
       ++ (if truthy (get st "fadeHover")
           then hoverListenersOf [childCount (body pg)] [S (childCount (body pg))]
           else []))%list.
Proof.
  intros Ha. unfold build. rewrite Ha.
  destruct (truthy (get st "touch")), (truthy (get st "fadeHover"));
    cbn [snd listeners addEventListener touchListeners hoverListeners withBody
           _genOnResizeHandler instance shown negb page];
    rewrite <- ?app_assoc; reflexivity.
Qed.

End Undisturbed.

(** X11: a minimap constructed with [allowClick: false] on a page
    without listeners registers the resize and scroll listeners of the
    window, the four touch listeners of the document if [touch] holds and
    the four hover listeners if [fadeHover] holds, and no other. In every
    world with these listeners no event dispatched at any target and no
    touch event changes the scroll offsets or the timers of the window. *)
Theorem without_allowClick_no_event_scrolls
        (browser : Browser) (base : path) (options : object) (pg pg' : Page)
        (this : MiniMap) :
  constructor base options pg = (Ok this, pg') ->
  get (settings this) "allowClick" = VBool false ->
  listeners pg = [] ->
  listeners pg'
  = (windowListeners
       ++ (if truthy (get (settings this) "touch") then documentTouchListeners else [])
       ++ (if truthy (get (settings this) "fadeHover")
           then hoverListenersOf (region this) (miniElement this) else []))%list
  /\ forall w,
      listeners (page w) = listeners pg' ->
      forall on e,
        sameScrolling w (fst (dispatchEvent on w e))
        /\ sameScrolling w (fst (_genTouchHandler w e)).
Proof.
  intros Hc Ha Hl.
  destruct (constructor_returns base options pg pg' this Hc)
    as (s & el & _ & _ & _ & _ & B).
  set (st := set (assign1 defaults options) "position" (VStr (toLowerCase s))) in *.
  assert (Et : this = fst (build base el st pg)) by now rewrite <- B.
  assert (Ep : pg' = snd (build base el st pg)) by now rewrite <- B.
  rewrite build_instance in Et.
  assert (Es : settings this = st) by now rewrite Et.
  rewrite Es in *.
  assert (Hl' : listeners pg'
                = (windowListeners
                     ++ (if truthy (get st "touch") then documentTouchListeners else [])
                     ++ (if truthy (get st "fadeHover")
                         then hoverListenersOf (region this) (miniElement this)
                         else []))%list).
  { rewrite Ep, build_listeners_without_clicks by now rewrite Ha.
    rewrite Hl, Et. reflexivity. }
  split; [exact Hl' | ].
  intros w Hw on e.
  assert (Hall : forallb (fun l => negb (scrolls (handler l))) (listeners (page w))
                 = true).
  { rewrite Hw, Hl'.
    destruct (truthy (get st "touch")), (truthy (get st "fadeHover")); reflexivity. }
  split.
  - now destruct (dispatchEvent_undisturbed on w e Hall).
  - now destruct (touch_undisturbed w e Hall).
Qed.

(** The theorem for [{allowClick: false}] on the sample page: a click
    dispatched at the preview of the shown minimap scrolls nothing. *)
Lemma without_allowClick_no_event_scrolls_witness :
  let w := @show sampleBrowser
             (@newMiniMap sampleBrowser [("allowClick", VBool false)] emptyPage) in
  scrollY (page (fst (@dispatchEvent sampleBrowser (Elem [2%nat]) w (mouse "click" 151))))
  = scrollY (page w).
Proof.
  intros w.
  set (w0 := @newMiniMap sampleBrowser [("allowClick", VBool false)] emptyPage).
  assert (Hc : @constructor sampleBrowser [] [("allowClick", VBool false)] emptyPage
               = (Ok (instance w0), page w0)) by (vm_compute; reflexivity).
  assert (Ha : get (settings (instance w0)) "allowClick" = VBool false)
    by (vm_compute; reflexivity).
  destruct (without_allowClick_no_event_scrolls
              sampleBrowser [] _ emptyPage (page w0) (instance w0) Hc Ha eq_refl)
    as (_ & H).
  assert (Hw : listeners (page w) = listeners (page w0)) by (vm_compute; reflexivity).
  destruct (H w Hw (Elem [2%nat]) (mouse "click" 151)) as ((_ & Hy & _) & _).
  exact Hy.
Defined.

(* ===================================================================== *)
(** ** Taps *)
(* ===================================================================== *)

Section Taps.
Context {browser : Browser}.

Lemma path_eqb_refl (p : path) : path_eqb p p = true.
Proof. unfold path_eqb. destruct (list_eq_dec Nat.eq_dec p p); congruence. Qed.

Lemma path_eqb_neq (p q : path) : p <> q -> path_eqb p q = false.
Proof. unfold path_eqb. destruct (list_eq_dec Nat.eq_dec p q); congruence. Qed.

Lemma scrollTop_type (w : World) (e : Event) : type (snd (scrollTop w e)) = type e.
Proof.
  unfold scrollTop. destruct (negb (shown (instance w))); reflexivity.
Qed.

Lemma handle_type (h : handlerName) (w : World) (e : Event) :
  type (snd (handle h w e)) = type e.
Proof.
  destruct h; simpl; try reflexivity.
  - unfold _genOnMouseMoveHandler. destruct (_ || _); [reflexivity | ].
    apply scrollTop_type.
  - unfold _genOnClickHandler. pose proof (scrollTop_type w e) as H.
    destruct (scrollTop w e) as [w' e']. exact H.
Qed.

(** Running the listeners is running the handlers of those that match. *)
Lemma runListeners_handlers (ls : list Listener) (on : eventTarget) :
  forall (w : World) (e : Event),
    runListeners ls on w e = runHandlers (handlersFor ls on (type e)) w e.
Proof.
  unfold handlersFor.
  induction ls as [ | l ls IH]; intros w e; [reflexivity | ].
  cbn [runListeners filter].
  destruct (target_eqb (listensOn l) on && String.eqb (eventType l) (type e));
    [ | apply IH].
  cbn [map runHandlers]. pose proof (handle_type (handler l) w e) as Ht.
  destruct (handle (handler l) w e) as [w' e']. simpl in Ht.
  rewrite IH, Ht. reflexivity.
Qed.

Lemma bubble_handlers (on : eventTarget) (rest : list eventTarget) (w : World)
      (e : Event) :
  bubble (on :: rest) w e
  = let '(w', e') := runHandlers (handlersFor (listeners (page w)) on (type e)) w e in
    if propagationStopped e' then (w', e') else bubble rest w' e'.
Proof.
  cbn [bubble]. now rewrite runListeners_handlers.
Qed.

Lemma scrollTop_page_but_scrolling (w : World) (e : Event) :
  body (page (fst (scrollTop w e))) = body (page w)
  /\ listeners (page (fst (scrollTop w e))) = listeners (page w).
Proof.
  unfold scrollTop. destruct (negb (shown (instance w))); [split; reflexivity | ].
  cbv zeta. destruct (_ && _); [ | split; reflexivity].
  unfold startSmoothScroll. cbv zeta.
  destruct (stepParameters _ _) as [[u d] c]. split; reflexivity.
Qed.

(** The handlers of a minimap that allows clicks, for the two events of
    a tap at its region or its preview and at what lies above them. *)
Lemma handlersFor_constructed (st : object) (n : nat) (on : path) :
  truthy (get st "allowClick") = true ->
  on = [n] \/ on = [S n] ->
  let ls := constructedListeners st [n] [S n] in
  handlersFor ls (Elem on) "mousedown" = [onMouseDownHandler]
  /\ handlersFor ls (Elem on) "click" = [onClickHandler]
  /\ handlersFor ls (Elem []) "mousedown" = []
  /\ handlersFor ls (Elem []) "click" = []
  /\ handlersFor ls Document "mousedown" = []
  /\ handlersFor ls Document "click" = []
  /\ handlersFor ls Window "mousedown" = []
  /\ handlersFor ls Window "click" = [].
Proof.
  intros Ha Hon ls. subst ls.
  assert (N1 : path_eqb [n] [S n] = false)
    by (apply path_eqb_neq; intro E; injection E; lia).
  assert (N2 : path_eqb [S n] [n] = false)
    by (apply path_eqb_neq; intro E; injection E; lia).
  assert (N3 : forall k, path_eqb [k] [] = false)
    by (intro k; now apply path_eqb_neq).
  assert (F : forall (ls : list Listener) (target : eventTarget) (ty : string),
             handlersFor ls target ty
             = map handler
                 (filter (fun l => target_eqb (listensOn l) target)
                         (filter (fun l => String.eqb (eventType l) ty) ls))).
  { intros ls target ty. unfold handlersFor. f_equal.
    induction ls as [ | l ls IH]; [reflexivity | ]. cbn [filter].
    destruct (String.eqb (eventType l) ty); cbn [filter];
      [ | now rewrite Bool.andb_false_r].
    rewrite Bool.andb_true_r. destruct (target_eqb _ _); now rewrite IH. }
  rewrite !F. clear F. unfold constructedListeners. rewrite Ha.
  set (down := filter (fun l => String.eqb (eventType l) "mousedown") _).
  set (click := filter (fun l => String.eqb (eventType l) "click") _).
  destruct (truthy (get st "touch")), (truthy (get st "fadeHover"));
    vm_compute in down; vm_compute in click; subst down click;
    destruct Hon as [-> | ->];
    cbn [filter map listensOn handler target_eqb];
    rewrite ?path_eqb_refl, ?N1, ?N2, ?N3;
    repeat split; reflexivity.
Qed.

Lemma bubble_idle (route : list eventTarget) (w : World) (e : Event) :
  Forall (fun on => handlersFor (listeners (page w)) on (type e) = []) route ->
  bubble route w e = (w, e).
Proof.
  induction 1 as [ | on route Hon _ IH]; [reflexivity | ].
  rewrite bubble_handlers, Hon. cbn [runHandlers].
  destruct (propagationStopped e); [reflexivity | exact IH].
Qed.

Lemma propagationPath_child (on : path) (n : nat) :
  on = [n] -> propagationPath (Elem on) = [Elem on; Elem []; Document; Window].
Proof. intros ->. reflexivity. Qed.

(** A [mousedown] dispatched at the region or the preview of a minimap
    that allows clicks runs the mouse-down handler and nothing else. *)
Lemma dispatch_mousedown (w : World) (n : nat) (on : path) (y : Z) :
  listeners (page w) = constructedListeners (settings (instance w)) [n] [S n] ->
  truthy (setting w "allowClick") = true ->
  on = [n] \/ on = [S n] ->
  dispatchEvent (Elem on) w (mouse "mousedown" y)
  = (_genOnMouseDownHandler w, mouse "mousedown" y).
Proof.
  intros HL Ha Hon.
  destruct (handlersFor_constructed (settings (instance w)) n on Ha Hon)
    as (H1 & _ & H3 & _ & H5 & _ & H7 & _).
  unfold dispatchEvent.
  assert (Hroute : propagationPath (Elem on) = [Elem on; Elem []; Document; Window])
    by (destruct Hon as [E | E]; exact (propagationPath_child on _ E)).
  rewrite Hroute, bubble_handlers, HL.
  change (type (mouse "mousedown" y)) with "mousedown". rewrite H1.
  cbn [runHandlers handle].
  change (propagationStopped (mouse "mousedown" y)) with false. cbv iota.
  apply bubble_idle.
  change (listeners (page (_genOnMouseDownHandler w))) with (listeners (page w)).
  rewrite HL. change (type (mouse "mousedown" y)) with "mousedown".
  repeat constructor; assumption.
Qed.

(** A [click] dispatched there runs the click handler and nothing else. *)
Lemma dispatch_click (w : World) (n : nat) (on : path) (y : Z) :
  listeners (page w) = constructedListeners (settings (instance w)) [n] [S n] ->
  truthy (setting w "allowClick") = true ->
  on = [n] \/ on = [S n] ->
  fst (dispatchEvent (Elem on) w (mouse "click" y))
  = onInstance (fun m => withMousedown m false) (fst (scrollTop w (mouse "click" y))).
Proof.
  intros HL Ha Hon.
  destruct (handlersFor_constructed (settings (instance w)) n on Ha Hon)
    as (_ & H2 & _ & H4 & _ & H6 & _ & H8).
  unfold dispatchEvent.
  assert (Hroute : propagationPath (Elem on) = [Elem on; Elem []; Document; Window])
    by (destruct Hon as [E | E]; exact (propagationPath_child on _ E)).
  rewrite Hroute, bubble_handlers, HL.
  change (type (mouse "click" y)) with "click". rewrite H2.
  cbn [runHandlers handle]. unfold _genOnClickHandler.
  pose proof (scrollTop_type w (mouse "click" y)) as Ht.
  pose proof (scrollTop_page_but_scrolling w (mouse "click" y)) as (_ & Hl).
  pose proof (scrollTop_configuration w (mouse "click" y)) as (Hst & _).
  destruct (scrollTop w (mouse "click" y)) as [w' e']. cbn [fst snd] in *.
  destruct (propagationStopped e'); [reflexivity | ].
  rewrite bubble_idle; [reflexivity | ].
  change (listeners (page (onInstance (fun m => withMousedown m false) w')))
    with (listeners (page w')).
  rewrite Hl, HL, Ht. change (type (mouse "click" y)) with "click".
  repeat constructor; assumption.
Qed.

Lemma hasClass_addClass (el : Node) (c : string) :
  isElement el = true -> hasClass (addClass el c) c = true.
Proof.
  destruct el as [d | t cls st kids]; [discriminate | ]. intros _.
  unfold addClass. destruct (hasClass (Element t cls st kids) c) eqn:E; [exact E | ].
  unfold hasClass, classMatch. cbn [classNameOf]. apply matchFrom_added.
Qed.

Lemma hasClassAt_added (b : Node) (p : path) (c : string) :
  elementAt b p = true ->
  hasClassAt (updateAt p (fun el => addClass el c) b) p c = true.
Proof.
  unfold elementAt, hasClassAt. rewrite classAt_same.
  destruct (nodeAt b p) as [[d | t cls st kids] | ]; try discriminate.
  intros _. now apply (hasClass_addClass (Element t cls st kids)).
Qed.

End Taps.

(** X12: a tap, that is a [touchstart] directly followed by a
    [touchend], each with one changed touch at the region or at the
    preview of a minimap that allows clicks. The first event runs the
    mouse-down handler; the second runs the click handler, which calls
    [scrollTop] and clears the flag [mousedown], and it does not run the
    mouse-up handler: after the tap the source element still carries the
    class ['noselect'] and the region the class ['dragging']. *)
Theorem a_tap_leaves_the_drag_classes
        (browser : Browser) (w : World) (n : nat) (on : path) (y1 y2 : Z) :
  attached w ->
  elementAt (body (page w)) (baseElement (instance w)) = true ->
  region (instance w) = [n] ->
  miniElement (instance w) = [S n] ->
  listeners (page w) = constructedListeners (settings (instance w)) [n] [S n] ->
  truthy (setting w "allowClick") = true ->
  on = [n] \/ on = [S n] ->
  let w1 := fst (_genTouchHandler w (touchEvent "touchstart" (Elem on) y1)) in
  let w2 := fst (_genTouchHandler w1 (touchEvent "touchend" (Elem on) y2)) in
  w1 = onInstance (fun m => withLastTouchType m "touchstart") (_genOnMouseDownHandler w)
  /\ w2 = onInstance (fun m => withLastTouchType m "touchend")
            (onInstance (fun m => withMousedown m false)
               (fst (scrollTop w1 (mouse "click" y2))))
  /\ mousedown (instance w1) = true
  /\ mousedown (instance w2) = false
  /\ hasClassAt (body (page w2)) (baseElement (instance w)) "noselect" = true
  /\ hasClassAt (body (page w2)) (region (instance w)) "dragging" = true.
Proof.
  intros (_ & Hr & _ & Hbr & _) Hb Hreg Hmini HL Ha Hon w1 w2.
  assert (E1 : w1 = onInstance (fun m => withLastTouchType m "touchstart")
                      (_genOnMouseDownHandler w)).
  { unfold w1, _genTouchHandler. cbn [touchEvent changedTouches type String.eqb
                                       Ascii.eqb Bool.eqb andb touchTarget touchClientY].
    cbv zeta.
    change {| type := "mousedown"; clientY := ofZ y1; changedTouches := [];
              propagationStopped := false; defaultPrevented := false |}
      with (mouse "mousedown" y1).
    now rewrite (dispatch_mousedown w n on y1 HL Ha Hon). }
  assert (HL1 : listeners (page w1)
                = constructedListeners (settings (instance w1)) [n] [S n])
    by (rewrite E1; exact HL).
  assert (Ha1 : truthy (setting w1 "allowClick") = true)
    by (rewrite E1; exact Ha).
  assert (Hlast : lastTouchType (instance w1) = "touchstart")
    by (rewrite E1; reflexivity).
  assert (E2 : w2 = onInstance (fun m => withLastTouchType m "touchend")
                      (onInstance (fun m => withMousedown m false)
                         (fst (scrollTop w1 (mouse "click" y2))))).
  { unfold w2, _genTouchHandler. rewrite Hlast.
    cbn [touchEvent changedTouches type String.eqb
           Ascii.eqb Bool.eqb andb touchTarget touchClientY].
    cbv zeta.
    change {| type := "click"; clientY := ofZ y2; changedTouches := [];
              propagationStopped := false; defaultPrevented := false |}
      with (mouse "click" y2).
    now rewrite (dispatch_click w1 n on y2 HL1 Ha1 Hon). }
  split; [exact E1 | ]. split; [exact E2 | ].
  split; [rewrite E1; reflexivity | ].
  split; [rewrite E2; reflexivity | ].
  assert (Hbody : body (page w2)
                  = updateAt (region (instance w)) (fun el => addClass el "dragging")
                      (updateAt (baseElement (instance w))
                         (fun el => addClass el "noselect") (body (page w)))).
  { rewrite E2. cbn [onInstance page].
    destruct (scrollTop_page_but_scrolling w1 (mouse "click" y2)) as (-> & _).
    rewrite E1. reflexivity. }
  rewrite Hbody. split.
  - unfold hasClassAt.
    rewrite classAt_other
      by (try apply shallow_addClass; intro E; apply Hbr; symmetry; exact E).
    now apply hasClassAt_added.
  - apply hasClassAt_added.
    now rewrite elementAt_shallow by apply shallow_addClass.
Qed.

(** The theorem for a tap at the preview of the shown sample minimap. *)
Lemma a_tap_leaves_the_drag_classes_witness :
  let w1 := fst (@_genTouchHandler sampleBrowser shownWorld
                   (touchEvent "touchstart" (Elem [2%nat]) 151)) in
  let w2 := fst (@_genTouchHandler sampleBrowser w1
                   (touchEvent "touchend" (Elem [2%nat]) 151)) in
  mousedown (instance w2) = false
  /\ hasClassAt (body (page w2)) (baseElement (instance shownWorld)) "noselect" = true.
Proof.
  intros w1 w2.
  assert (Ha : attached shownWorld).
  { unfold attached.
    repeat (match goal with |- _ /\ _ => split end);
      try (vm_compute; reflexivity); vm_compute; intro E; discriminate E. }
  assert (Hb : elementAt (body (page shownWorld)) (baseElement (instance shownWorld))
               = true) by (vm_compute; reflexivity).
  assert (Hr : region (instance shownWorld) = [1%nat]) by (vm_compute; reflexivity).
  assert (Hm : miniElement (instance shownWorld) = [2%nat]) by (vm_compute; reflexivity).
  assert (HL : listeners (page shownWorld)
               = constructedListeners (settings (instance shownWorld)) [1%nat] [2%nat])
    by (vm_compute; reflexivity).
  assert (Hc : truthy (@setting shownWorld "allowClick") = true)
    by (vm_compute; reflexivity).
  pose proof (a_tap_leaves_the_drag_classes sampleBrowser shownWorld 1 [2%nat] 151 151
                Ha Hb Hr Hm HL Hc (or_intror eq_refl)) as H.
  cbv zeta in H. destruct H as (_ & _ & _ & H4 & H5 & _).
  split; [exact H4 | exact H5].
Defined.

(* ===================================================================== *)
(** ** Clicks during an animated scroll *)
(* ===================================================================== *)

Section SecondClick.
Context {browser : Browser}.

(** What an animated scroll registers, whatever the numbers are. *)
Lemma startSmoothScroll_registers (t : num) (w : World) :
  exists T,
    fst (startSmoothScroll t w)
    = {| instance := withOnSmoothScroll (instance w) true;
         page := withTimers (page w)
                   (timers (page w) ++ [(nextTimer (page w), T)])%list
                   (S (nextTimer (page w))) |}
    /\ target T = clampTarget t (outerHeight (page w) (baseElement (instance w)))
    /\ next T = scrollY (page w).
Proof.
  unfold startSmoothScroll. cbv zeta.
  destruct (stepParameters _ _) as [[u d] c].
  eexists. split; [reflexivity | split; reflexivity].
Qed.

Lemma lookupTimer_app (id : nat) (ts ts' : list (nat * Timer)) :
  lookupTimer id (ts ++ ts')
  = match lookupTimer id ts with
    | Some T => Some T
    | None => lookupTimer id ts'
    end.
Proof.
  induction ts as [ | [i T] ts IH]; simpl; [reflexivity | ].
  destruct (Nat.eqb i id); [reflexivity | exact IH].
Qed.

End SecondClick.

(** X13: a click on a shown minimap with smooth scroll on registers an
    interval timer and clears none. After a second click, made before the
    first animation has ended, the timers of the page are those that were
    there followed by the timer of the first click and the timer of the
    second, each aiming at the target of its own click: the two
    animations run side by side. *)
Theorem a_second_click_leaves_the_first_animation_running
        (browser : Browser) (w : World) (e1 e2 : Event) :
  shown (instance w) = true ->
  truthy (setting w "smoothScroll") = true ->
  type e1 = "click" ->
  type e2 = "click" ->
  let id := nextTimer (page w) in
  let w1 := fst (scrollTop w e1) in
  let w2 := fst (scrollTop w1 e2) in
  let limit := outerHeight (page w) (baseElement (instance w)) in
  exists T1 T2,
    timers (page w1) = (timers (page w) ++ [(id, T1)])%list
    /\ timers (page w2) = (timers (page w) ++ [(id, T1); (S id, T2)])%list
    /\ target T1 = clampTarget (scrollTarget w e1) limit
    /\ target T2 = clampTarget (scrollTarget w1 e2) limit
    /\ running id w2 = true
    /\ running (S id) w2 = true.
Proof.
  intros Hs Hsm H1 H2 id w1 w2 limit.
  destruct (startSmoothScroll_registers (scrollTarget w e1) w) as (T1 & E1 & Ht1 & _).
  assert (Ew1 : w1 = fst (startSmoothScroll (scrollTarget w e1) w))
    by (unfold w1; now rewrite (scrollTop_click w e1 Hs H1 Hsm)).
  rewrite E1 in Ew1.
  assert (Hs1 : shown (instance w1) = true) by (rewrite Ew1; exact Hs).
  assert (Hsm1 : truthy (setting w1 "smoothScroll") = true) by (rewrite Ew1; exact Hsm).
  destruct (startSmoothScroll_registers (scrollTarget w1 e2) w1) as (T2 & E2 & Ht2 & _).
  assert (Ew2 : w2 = fst (startSmoothScroll (scrollTarget w1 e2) w1))
    by (unfold w2; now rewrite (scrollTop_click w1 e2 Hs1 H2 Hsm1)).
  rewrite E2 in Ew2.
  assert (Hl : outerHeight (page w1) (baseElement (instance w1)) = limit)
    by (rewrite Ew1; reflexivity).
  assert (Ht : timers (page w2) = (timers (page w) ++ [(id, T1); (S id, T2)])%list).
  { rewrite Ew2. cbn [page timers withTimers]. rewrite Ew1.
    cbn [page timers withTimers nextTimer]. now rewrite <- app_assoc. }
  exists T1, T2.
  split; [rewrite Ew1; reflexivity | ].
  split; [exact Ht | ].
  split; [exact Ht1 | ].
  split; [now rewrite Ht2, Hl | ].
  unfold running. rewrite Ht, !lookupTimer_app. cbn [lookupTimer].
  rewrite !Nat.eqb_refl.
  split.
  - destruct (lookupTimer id (timers (page w))); reflexivity.
  - destruct (lookupTimer (S id) (timers (page w))); [reflexivity | ].
    destruct (Nat.eqb id (S id)); reflexivity.
Qed.

(** The theorem for two clicks on the shown sample minimap. *)
Lemma a_second_click_leaves_the_first_animation_running_witness :
  let w1 := fst (@scrollTop sampleBrowser shownWorld (mouse "click" 151)) in
  let w2 := fst (@scrollTop sampleBrowser w1 (mouse "click" 10)) in
  running O w2 = true /\ running 1 w2 = true.
Proof.
  intros w1 w2.
  assert (Hs : shown (instance shownWorld) = true) by (vm_compute; reflexivity).
  assert (Hsm : truthy (@setting shownWorld "smoothScroll") = true)
    by (vm_compute; reflexivity).
  pose proof (a_second_click_leaves_the_first_animation_running
                sampleBrowser shownWorld (mouse "click" 151) (mouse "click" 10)
                Hs Hsm eq_refl eq_refl) as H.
  cbv zeta in H. destruct H as (T1 & T2 & _ & _ & _ & _ & Ha & Hb).
  assert (E : nextTimer (page shownWorld) = O) by (vm_compute; reflexivity).
  rewrite E in Ha, Hb.
  split; [exact Ha | exact Hb].
Defined.

(* ===================================================================== *)
(** ** The earlier implementation and the class *)
(* ===================================================================== *)

Section Earlier.
Context {browser : Browser}.

Lemma lowerAscii_idempotent (c : ascii) : lowerAscii (lowerAscii c) = lowerAscii c.
Proof.
  destruct c as [[ | ] [ | ] [ | ] [ | ] [ | ] [ | ] [ | ] [ | ]]; reflexivity.
Qed.

Lemma toLowerCase_idempotent (s : string) :
  toLowerCase (toLowerCase s) = toLowerCase s.
Proof.
  induction s as [ | c s IH]; simpl; [reflexivity | ].
  now rewrite lowerAscii_idempotent, IH.
Qed.

(** On the nine fields other than the position the earlier [validateProp]
    is the validator of the class. *)
Lemma validateProp_shared (prop : string) :
  In prop legacyFields -> prop <> "position" ->
  exists validator,
    propValidators prop = Some validator
    /\ forall v st,
        Legacy.validateProp prop v st
        = match validator v with
          | Ok _ => Ok st
          | Throw e => Throw e
          end.
Proof.
  intros Hin Hne. simpl in Hin.
  destruct Hin as [<- | [<- | [<- | [<- | [<- | [<- | [<- | [<- | [<- | [<- | []]]]]]]]]]];
    try congruence;
    (eexists; split; [reflexivity | ]); intros v st;
    unfold Legacy.validateProp; cbn [String.eqb Ascii.eqb Bool.eqb];
    unfold validate_heightRatio, validate_widthRatio, validate_offsetHeightRatio,
      validate_offsetWidthRatio, validate_touch, validate_smoothScroll,
      validate_smoothScrollDelay, validate_onPreviewChange, validate_disableFind,
      invalid;
    try reflexivity;
    match goal with
    | |- (if ?b then _ else _) = _ => destruct b; reflexivity
    end.
Qed.

(** The position in the earlier [validateProp] and in the class, on
    settings that hold the string [x]. *)
Lemma validateProp_position (st : object) (x : string) :
  get st "position" = VStr x ->
  match Legacy.validateProp "position" (get st "position") st,
        validate_position (VStr (toLowerCase x)) with
  | Ok r, Ok _ => r = set st "position" (VStr (toLowerCase x))
  | Throw e, Throw e' => sameError (VStr x) (VStr (toLowerCase x)) e e'
  | _, _ => False
  end.
Proof.
  intros Hp. rewrite Hp. unfold Legacy.validateProp. cbn [String.eqb Ascii.eqb Bool.eqb].
  unfold validate_position, has, validPositions, Legacy.notListed, Legacy.position, invalid.
  rewrite Hp.
  destruct (existsb (String.eqb (toLowerCase x)) ["right"; "left"]); cbn [negb].
  - reflexivity.
  - right. split; reflexivity.
Qed.

Lemma validateAll_agrees (o : object) (s : string) (keys : list string) :
  get o "position" = VStr s ->
  (forall k, In k keys -> In k legacyFields) ->
  forall st,
    st = o \/ st = set o "position" (VStr (toLowerCase s)) ->
    match Legacy.validateAll keys st,
          validateKeys (set o "position" (VStr (toLowerCase s))) keys with
    | Ok r, Ok _ =>
        r = if existsb (String.eqb "position") keys
            then set o "position" (VStr (toLowerCase s)) else st
    | Throw e, Throw e' => sameError (VStr s) (VStr (toLowerCase s)) e e'
    | _, _ => False
    end.
Proof.
  intros Hp. set (o' := set o "position" (VStr (toLowerCase s))).
  assert (Hp' : get o' "position" = VStr (toLowerCase s)) by apply get_set_same.
  induction keys as [ | k keys IH]; intros Hk st Hst; [reflexivity | ].
  assert (Hk' : forall k', In k' keys -> In k' legacyFields)
    by (intros k' H; apply Hk; now right).
  cbn [Legacy.validateAll validateKeys existsb].
  destruct (String.eqb_spec "position" k) as [<- | Hne].
  - cbn [propValidators ownValidator String.eqb Ascii.eqb Bool.eqb]. rewrite Hp'.
    assert (Hx : exists x, get st "position" = VStr x /\ toLowerCase x = toLowerCase s
                           /\ (x = s \/ x = toLowerCase s)).
    { destruct Hst as [-> | ->].
      - exists s. auto.
      - exists (toLowerCase s). split; [exact Hp' | ].
        split; [apply toLowerCase_idempotent | now right]. }
    destruct Hx as (x & Hx & Hlow & Hcase).
    pose proof (validateProp_position st x Hx) as H. rewrite Hlow in H.
    destruct (Legacy.validateProp "position" (get st "position") st) as [r | e],
             (validate_position (VStr (toLowerCase s))) as [[] | e'];
      try contradiction.
    + assert (Er : r = o').
      { rewrite H. destruct Hst as [-> | ->]; [reflexivity | ].
        apply set_get_same; [exact Hp' | discriminate]. }
      rewrite Er. cbn [orb].
      specialize (IH Hk' o' (or_intror eq_refl)).
      destruct (Legacy.validateAll keys o') as [r' | e1],
               (validateKeys o' keys) as [[] | e2]; try contradiction; [ | exact IH].
      rewrite IH. destruct (existsb _ keys); reflexivity.
    + destruct H as [-> | [-> ->]]; [now left | ].
      destruct Hcase as [-> | ->]; [now right | now left].
  - destruct (validateProp_shared k (Hk k (or_introl eq_refl)) ltac:(congruence))
      as (validator & P & Hv).
    rewrite P, Hv.
    assert (Eg : get st k = get o' k).
    { destruct Hst as [-> | ->]; [ | reflexivity].
      unfold o'. now rewrite get_set_other. }
    rewrite Eg.
    destruct (validator (get o' k)) as [[] | e]; [ | now left].
    cbn [orb]. exact (IH Hk' st Hst).
Qed.

End Earlier.

(** X14: on settings whose keys are among the ten fields the earlier
    implementation knows and whose position is a string, the validation
    loop of the earlier implementation and [_validateProps] of the class,
    run as the constructor runs it on the settings with the position
    lower-cased, accept the same settings; the earlier loop leaves the
    settings with the position lower-cased and nothing else changed.
    Where they reject they throw the same error, except for a position
    that is not listed: there the earlier message shows the position as it
    was given and the message of the class shows it lower-cased. *)
Theorem earlier_and_class_validation_agree
        (browser : Browser) (o : object) (s : string) :
  get o "position" = VStr s ->
  (forall k, In k (Object_keys o) -> In k legacyFields) ->
  let o' := set o "position" (VStr (toLowerCase s)) in
  match Legacy.validateAll (Object_keys o) o, _validateProps o' with
  | Ok r, Ok _ => r = o'
  | Throw e, Throw e' => sameError (VStr s) (VStr (toLowerCase s)) e e'
  | _, _ => False
  end.
Proof.
  intros Hp Hk o'.
  assert (Hb : bound o "position" = true).
  { apply bound_In, In_Object_keys. clear Hk.
    induction o as [ | [k v] o IH]; simpl in *; [discriminate | ].
    destruct (String.eqb_spec k "position"); [now left | right; now apply IH]. }
  pose proof (validateAll_agrees o s (Object_keys o) Hp Hk o (or_introl eq_refl)) as H.
  unfold _validateProps. unfold o'.
  rewrite (Object_keys_set_bound o "position" (VStr (toLowerCase s)) Hb).
  fold o'. fold o' in H.
  destruct (Legacy.validateAll (Object_keys o) o) as [r | e],
           (validateKeys o' (Object_keys o)) as [[] | e']; try contradiction;
    [ | exact H].
  rewrite H. unfold bound in Hb. now rewrite Hb.
Qed.

(** The theorem for the defaults of the earlier implementation with the
    position ['LEFT']: both accept, and the position is stored as
    ['left']. *)
Lemma earlier_and_class_validation_agree_witness :
  @Legacy.validateAll sampleBrowser
    (Object_keys (set Legacy.defaults "position" (VStr "LEFT")))
    (set Legacy.defaults "position" (VStr "LEFT"))
  = Ok (set Legacy.defaults "position" (VStr "left")).
Proof.
  assert (Hk : forall k, In k (Object_keys (set Legacy.defaults "position" (VStr "LEFT")))
                         -> In k legacyFields).
  { intros k H. vm_compute in H. simpl. tauto. }
  pose proof (earlier_and_class_validation_agree sampleBrowser
                (set Legacy.defaults "position" (VStr "LEFT")) "LEFT" eq_refl Hk) as H.
  cbv zeta in H.
  destruct (@Legacy.validateAll sampleBrowser _ _) as [r | e] eqn:E.
  - destruct (@_validateProps sampleBrowser _); [ | contradiction].
    rewrite H. reflexivity.
  - exfalso. vm_compute in E. discriminate.
Defined.

(* ===================================================================== *)
(** ** Where the find suppression rewrites *)
(* ===================================================================== *)

Section Unmarked.
Context {browser : Browser}.

Lemma Node_forall_ind (P : Node -> Prop) :
  (forall d, P (Text d)) ->
  (forall t c s kids, Forall P kids -> P (Element t c s kids)) ->
  forall n, P n.
Proof.
  intros Ht He. fix IH 1. intros [d | t c s kids]; [apply Ht | ].
  apply He. induction kids as [ | k kids IHk]; constructor; [apply IH | exact IHk].
Qed.

Lemma countClass_children (c : string) (kids : list Node) :
  fold_right (fun k acc => (countClass c k + acc)%nat) O kids = O ->
  Forall (fun k => countClass c k = O) kids.
Proof.
  induction kids as [ | k kids IH]; simpl; intros H; constructor.
  - lia.
  - apply IH. lia.
Qed.

Lemma disableFind_unmarked (n : Node) :
  countClass "unsearchable" n = O -> _disableFind n = n.
Proof.
  induction n as [d | t c s kids IH] using Node_forall_ind; [reflexivity | ].
  cbn [countClass _disableFind].
  destruct (classMatch c "unsearchable"); [discriminate | ].
  intros H. apply countClass_children in H. f_equal.
  induction kids as [ | k kids IHk]; [reflexivity | ].
  inversion IH as [ | ? ? Hk Hkids]; subst.
  inversion H as [ | ? ? Ck Ckids]; subst.
  cbn [map]. now rewrite (Hk Ck), (IHk Hkids Ckids).
Qed.

Lemma disableFind_along (p : path) :
  forall n,
    unmarkedAlong n p = true ->
    option_map surface (nodeAt (_disableFind n) p) = option_map surface (nodeAt n p)
    /\ (forall d, nodeAt n p = Some (Text d) -> nodeAt (_disableFind n) p = Some (Text d)).
Proof.
  induction p as [ | i p IH]; intros [d | t c s kids] H;
    try (split; [reflexivity | intros d' E; exact E]).
  - cbn [unmarkedAlong] in H. apply andb_prop in H. destruct H as [Hc _].
    apply Bool.negb_true_iff in Hc.
    cbn [_disableFind]. rewrite Hc. split; [reflexivity | discriminate].
  - cbn [unmarkedAlong] in H. apply andb_prop in H. destruct H as [Hc Hk].
    apply Bool.negb_true_iff in Hc.
    cbn [_disableFind]. rewrite Hc. cbn [nodeAt]. rewrite nth_error_map.
    destruct (nth_error kids i) as [k | ]; cbn [option_map];
      [ | split; [reflexivity | discriminate]].
    exact (IH k Hk).
Qed.

End Unmarked.

(** X15: [_disableFind] rewrites markup only inside elements of class
    ['unsearchable']. A tree without such an element is returned as it is;
    in any tree, a node that neither is nor lies inside such an element
    keeps its tag, class attribute and style, and a text node there keeps
    its text. *)
Theorem disableFind_rewrites_only_marked_elements (browser : Browser) (n : Node) :
  (countClass "unsearchable" n = O -> _disableFind n = n)
  /\ (forall p,
         unmarkedAlong n p = true ->
         option_map surface (nodeAt (_disableFind n) p)
         = option_map surface (nodeAt n p)
         /\ (forall d, nodeAt n p = Some (Text d) ->
                       nodeAt (_disableFind n) p = Some (Text d))).
Proof.
  split; [apply disableFind_unmarked | ].
  intros p. apply disableFind_along.
Qed.

(* ===================================================================== *)
(** ** The region and the preview in the document *)
(* ===================================================================== *)

Section Attached.
Context {browser : Browser}.

Lemma sameElements_refl (w : World) : sameElements w w.
Proof. repeat split. Qed.

Lemma sameElements_trans (a b c : World) :
  sameElements a b -> sameElements b c -> sameElements a c.
Proof.
  intros (A1 & A2 & A3 & A4 & A5) (B1 & B2 & B3 & B4 & B5).
  split; [intros q; now rewrite B1, A1 | ].
  repeat split; congruence.
Qed.

Lemma sameElements_onElement (p : path) (f : Node -> Node) (w : World) :
  shallow f -> sameElements w (onElement p f w).
Proof.
  intros Hf. split; [ | repeat split].
  intros q. cbn. now apply elementAt_shallow.
Qed.

Lemma sameElements_resize (w : World) : sameElements w (_genOnResizeHandler w).
Proof.
  split; [apply resize_elementAt | ].
  split; [apply resize_listeners | ].
  now rewrite resize_keeps_instance.
Qed.

Lemma sameElements_scrollTop (w : World) (e : Event) :
  sameElements w (fst (scrollTop w e)).
Proof.
  destruct (scrollTop_page_but_scrolling w e) as (Hb & Hl).
  destruct (scrollTop_configuration w e) as (_ & _ & H3 & H4 & H5).
  split; [intros q; now rewrite Hb | ]. repeat split; assumption.
Qed.

Lemma sameElements_handle (h : handlerName) (w : World) (e : Event) :
  sameElements w (fst (handle h w e)).
Proof.
  destruct h; cbn [handle fst].
  - apply sameElements_resize.
  - unfold _genOnScrollHandler. destruct (negb _); [apply sameElements_refl | ].
    cbv zeta. destruct (_ || _); apply sameElements_onElement, shallow_cssObjAssign.
  - unfold _genOnMouseUpHandler. cbv zeta.
    eapply sameElements_trans; [ | apply sameElements_onElement, shallow_removeClass].
    eapply sameElements_trans; [ | apply sameElements_onElement, shallow_removeClass].
    repeat split.
  - unfold _genOnMouseMoveHandler. destruct (_ || _); [apply sameElements_refl | ].
    apply sameElements_scrollTop.
  - unfold _genOnMouseDownHandler. cbv zeta.
    eapply sameElements_trans; [ | apply sameElements_onElement, shallow_addClass].
    eapply sameElements_trans; [ | apply sameElements_onElement, shallow_addClass].
    repeat split.
  - unfold _genOnClickHandler.
    pose proof (sameElements_scrollTop w e) as H.
    destruct (scrollTop w e) as [w' e']. exact H.
  - apply sameElements_refl.
  - unfold _genMouseOverHandler. cbv zeta.
    eapply sameElements_trans; apply sameElements_onElement, shallow_cssObjAssign.
  - unfold _genMouseOutHandler. cbv zeta.
    eapply sameElements_trans; apply sameElements_onElement, shallow_cssObjAssign.
Qed.

Lemma sameElements_dispatchEvent (on : eventTarget) (w : World) (e : Event) :
  sameElements w (fst (dispatchEvent on w e)).
Proof.
  apply (bubble_keeps sameElements (fun _ => true)).
  - apply sameElements_refl.
  - apply sameElements_trans.
  - intros a b (_ & H & _). exact H.
  - intros h a ev _. apply sameElements_handle.
  - clear. induction (listeners (page w)); [reflexivity | assumption].
Qed.

Lemma sameElements_touch (w : World) (e : Event) :
  sameElements w (fst (_genTouchHandler w e)).
Proof.
  unfold _genTouchHandler.
  destruct (changedTouches e) as [ | touch [ | ? ?]]; try apply sameElements_refl.
  destruct (if String.eqb (type e) "touchstart" then _ else _) as [ty | ];
    [ | apply sameElements_refl].
  cbv zeta.
  match goal with
  | |- sameElements w (fst (onInstance _ (fst (dispatchEvent ?on w ?ev)), _)) =>
      pose proof (sameElements_dispatchEvent on w ev) as H
  end.
  eapply sameElements_trans; [exact H | repeat split].
Qed.

Lemma sameElements_step (w w' : World) : step w w' -> sameElements w w'.
Proof.
  intros [name v x | v x | x | x | x | on e x | e x | timer x | a b x].
  - unfold callSetter. destruct (find _ _) as [[nm [prop redraw]] | ];
      [ | apply sameElements_refl].
    unfold _genSetPropertyFunction.
    destruct (propValidators prop) as [validator | ]; [ | apply sameElements_refl].
    destruct (validator v); [ | apply sameElements_refl].
    cbn [snd]. destruct redraw; [ | repeat split].
    eapply sameElements_trans; [ | apply sameElements_resize]. repeat split.
  - unfold setPosition. cbv zeta.
    destruct (validate_position v); [ | apply sameElements_refl].
    destruct (strict_neq _ _); cbn [snd]; [ | repeat split].
    eapply sameElements_trans; [ | apply sameElements_onElement, shallow_cssObjAssign].
    eapply sameElements_trans; [ | apply sameElements_onElement, shallow_cssObjAssign].
    eapply sameElements_trans; [ | apply sameElements_resize]. repeat split.
  - unfold show. destruct (negb _); [ | apply sameElements_refl]. cbv zeta.
    eapply sameElements_trans; [ | apply sameElements_resize].
    eapply sameElements_trans; [ | apply (sameElements_refl)].
    eapply sameElements_trans; [apply sameElements_onElement, shallow_showElement | ].
    eapply sameElements_trans; [apply sameElements_onElement, shallow_showElement | ].
    repeat split.
  - unfold hide. destruct (shown _); [ | apply sameElements_refl].
    eapply sameElements_trans; [apply sameElements_onElement, shallow_hideElement | ].
    eapply sameElements_trans; [apply sameElements_onElement, shallow_hideElement | ].
    repeat split.
  - unfold toggle. cbv zeta.
    assert (H : sameElements x
                  (onInstance (fun m => withShown m (negb (shown m)))
                     (onElement (region (instance (onElement (miniElement (instance x))
                                                     toggleElement x)))
                        toggleElement
                        (onElement (miniElement (instance x)) toggleElement x)))).
    { eapply sameElements_trans;
        [apply sameElements_onElement, shallow_toggleElement | ].
      eapply sameElements_trans;
        [apply sameElements_onElement, shallow_toggleElement | ].
      repeat split. }
    match goal with
    | |- context [if ?b then _ else _] => destruct b
    end; [ | exact H].
    eapply sameElements_trans; [exact H | apply sameElements_resize].
  - apply sameElements_dispatchEvent.
  - apply sameElements_touch.
  - split; [ | split; [ | now rewrite fire_keeps_instance]].
    + intros q. unfold fire. destruct (lookupTimer _ _) as [T | ]; [ | reflexivity].
      unfold smoothScroll. cbv zeta. destruct (leb _ _); reflexivity.
    + unfold fire. destruct (lookupTimer _ _) as [T | ]; [ | reflexivity].
      unfold smoothScroll. cbv zeta. destruct (leb _ _); reflexivity.
  - repeat split.
Qed.

Lemma attached_sameElements (w w' : World) :
  attached w -> sameElements w w' -> attached w'.
Proof.
  unfold attached. intros (A1 & A2 & A3 & A4 & A5) (E & _ & B & M & R).
  rewrite !E, B, M, R. auto.
Qed.

End Attached.

Section Built.
Context {browser : Browser}.

Lemma classAt_cssObjAssign (properties : list (string * option text)) (p q : path)
      (b : Node) :
  classAt (updateAt p (fun el => cssObjAssign el properties) b) q = classAt b q.
Proof.
  destruct (list_eq_dec Nat.eq_dec p q) as [<- | Hne].
  - rewrite classAt_same. unfold classAt.
    destruct (nodeAt b p) as [[d | t c s kids] | ]; reflexivity.
  - apply classAt_other; [apply shallow_cssObjAssign | exact Hne].
Qed.

Lemma classMatch_minimap_noselect (cls : string) :
  classMatch (cls ++ " " ++ "minimap noselect") "unsearchable"
  = classMatch cls "unsearchable".
Proof.
  change (cls ++ " " ++ "minimap noselect") with (cls ++ (" " ++ "minimap") ++ " " ++ "noselect").
  rewrite <- string_app_assoc. unfold classMatch.
  rewrite matchFrom_app_other by (reflexivity || discriminate).
  apply matchFrom_app_other; reflexivity || discriminate.
Qed.

(** The preview that [build] makes of an element: an element of the
    same tag, with the class ['minimap noselect'], marked unsearchable
    only if the source was. *)
Lemma preview_of (el : Node) (st : object) :
  isElement el = true ->
  let removed :=
    remove (selectAll (ByClass "miniregion")
                      (remove (selectAll (Descendant "minimap" "noselect") (cloneNode el))
                              (cloneNode el)))
           (remove (selectAll (Descendant "minimap" "noselect") (cloneNode el))
                   (cloneNode el)) in
  let classed := addClass removed "minimap noselect" in
  let marked :=
    if strict_eq (get st "disableFind") (VBool true)
    then mapChildren (fun current => addClass current "unsearchable") classed
    else classed in
  let styled :=
    mapChildren (fun current => cssObjAssign current [("pointer-events", literal "none")])
                marked in
  exists t c s kids,
    styled = Element t c s kids
    /\ classMatch c "minimap noselect" = true
    /\ classMatch c "unsearchable" = classMatch (classNameOf el) "unsearchable".
Proof.
  destruct el as [d | t c s kids]; [discriminate | ]. intros _.
  unfold cloneNode. cbn [remove].
  set (kids1 := (fix go (i : nat) (ks : list Node) {struct ks} : list Node := _) O kids).
  set (kids2 := (fix go (i : nat) (ks : list Node) {struct ks} : list Node := _) O kids1).
  cbv zeta.
  assert (H : exists c',
             addClass (Element t c s kids2) "minimap noselect" = Element t c' s kids2
             /\ classMatch c' "minimap noselect" = true
             /\ classMatch c' "unsearchable" = classMatch c "unsearchable").
  { unfold addClass, hasClass. cbn [classNameOf].
    destruct (classMatch c "minimap noselect") eqn:E.
    - exists c. auto.
    - eexists. split; [reflexivity | ].
      split; [apply matchFrom_added | apply classMatch_minimap_noselect]. }
  destruct H as (c' & -> & H1 & H2).
  destruct (strict_eq (get st "disableFind") (VBool true)); cbn [mapChildren];
    eexists _, _, _, _; (split; [reflexivity | split; [exact H1 | exact H2]]).
Qed.

End Built.

Section BuiltBody.
Context {browser : Browser}.

Lemma build_attached (base : path) (el : Node) (st : object) (pg : Page)
      (t c : string) (s : list (string * option text)) (kids : list Node) :
  body pg = Element t c s kids ->
  classMatch c "unsearchable" = false ->
  isElement el = true ->
  classMatch (classNameOf el) "unsearchable" = false ->
  let b' := body (snd (build base el st pg)) in
  elementAt b' [List.length kids] = true
  /\ elementAt b' [S (List.length kids)] = true
  /\ hasClassAt b' [List.length kids] "miniregion" = true
  /\ hasClassAt b' [S (List.length kids)] "minimap noselect" = true.
Proof.
  intros Hb Hc Hel Hce b'.
  pose proof (preview_of el st Hel) as H. cbv zeta in H.
  destruct H as (t' & c' & s' & kids' & E & H1 & H2).
  rewrite Hce in H2.
  assert (Hn : childCount (body pg) = List.length kids) by (now rewrite Hb).
  set (r := Element "div" " miniregion" [] []).
  set (m := Element t' c' s' (map _disableFind kids')).
  set (b0 := Element t c s (map _disableFind kids ++ [r; m])%list).
  assert (Hr : nodeAt b0 [List.length kids] = Some r).
  { unfold b0. cbn [nodeAt].
    rewrite nth_error_app2 by (rewrite length_map; lia).
    rewrite length_map, Nat.sub_diag. reflexivity. }
  assert (Hm : nodeAt b0 [S (List.length kids)] = Some m).
  { unfold b0. cbn [nodeAt].
    rewrite nth_error_app2 by (rewrite length_map; lia).
    rewrite length_map. replace (S (List.length kids) - List.length kids)%nat with 1%nat by lia.
    reflexivity. }
  assert (H0 : elementAt b0 [List.length kids] = true
               /\ elementAt b0 [S (List.length kids)] = true
               /\ hasClassAt b0 [List.length kids] "miniregion" = true
               /\ hasClassAt b0 [S (List.length kids)] "minimap noselect" = true).
  { unfold elementAt, hasClassAt, classAt. rewrite Hr, Hm.
    split; [reflexivity | split; [reflexivity | split; [reflexivity | exact H1]]]. }
  assert (Hb' : exists fs : list (path * list (string * option text)),
             b' = fold_right (fun pf b => updateAt (fst pf)
                                            (fun el => cssObjAssign el (snd pf)) b)
                             b0 fs).
  { assert (Er : addClass (Element "div" "" [] []) "miniregion" = r) by reflexivity.
    assert (Er' : _disableFind r = r) by reflexivity.
    unfold b', build. cbv zeta. rewrite E, Hn, Hb, Er.
    unfold _genOnResizeHandler.
    cbn [instance shown negb page body withBody appendChild _disableFind]. rewrite Hc.
    rewrite <- app_assoc, map_app. cbn [app map]. rewrite Er'.
    cbn [_disableFind]. rewrite H2. fold m b0.
    destruct (truthy (get st "allowClick")), (truthy (get st "touch")),
             (truthy (get st "fadeHover"));
      cbn [snd body withBody clickListeners touchListeners hoverListeners
               addEventListener].
    all: match goal with
         | |- exists fs, updateAt ?p1 (fun e1 => cssObjAssign e1 ?c1)
                           (updateAt ?p2 (fun e2 => cssObjAssign e2 ?c2)
                              (updateAt ?p3 (fun e3 => cssObjAssign e3 ?c3)
                                 (updateAt ?p4 (fun e4 => cssObjAssign e4 ?c4) ?b)))
                         = _ =>
             exists [(p1, c1); (p2, c2); (p3, c3); (p4, c4)]; reflexivity
         | |- exists fs, updateAt ?p1 (fun e1 => cssObjAssign e1 ?c1)
                           (updateAt ?p2 (fun e2 => cssObjAssign e2 ?c2) ?b)
                         = _ =>
             exists [(p1, c1); (p2, c2)]; reflexivity
         | |- _ => exists []; reflexivity
         end. }
  destruct Hb' as (fs & ->).
  induction fs as [ | [p props] fs IH]; [exact H0 | ].
  cbn [fold_right fst snd]. unfold hasClassAt in *.
  rewrite !elementAt_shallow by apply shallow_cssObjAssign.
  rewrite !classAt_cssObjAssign. exact IH.
Qed.

End BuiltBody.

(** X16: a minimap constructed on a page whose body and whose source
    element do not carry the class ['unsearchable']. The region and the
    preview are the last two children of the body, elements with the class
    ['miniregion'] and the class ['minimap noselect']. After any number
    of method calls, dispatched events, touch events, timer firings and
    scrolls, the instance still refers to these two places, both are still
    elements of the document, and the source is neither of them. *)
Theorem region_and_preview_stay_attached
        (browser : Browser) (base : path) (options : object) (pg pg' : Page)
        (this : MiniMap) :
  constructor base options pg = (Ok this, pg') ->
  hasClassAt (body pg) [] "unsearchable" = false ->
  hasClassAt (body pg) base "unsearchable" = false ->
  region this = [childCount (body pg)]
  /\ miniElement this = [S (childCount (body pg))]
  /\ hasClassAt (body pg') (region this) "miniregion" = true
  /\ hasClassAt (body pg') (miniElement this) "minimap noselect" = true
  /\ forall w, steps {| instance := this; page := pg' |} w -> attached w.
Proof.
  intros Hc Hbody Hbase.
  destruct (constructor_returns base options pg pg' this Hc)
    as (x & el & _ & _ & Hn & Hel & B).
  set (st := set (assign1 defaults options) "position" (VStr (toLowerCase x))) in *.
  assert (Et : this = fst (build base el st pg)) by now rewrite <- B.
  assert (Ep : pg' = snd (build base el st pg)) by now rewrite <- B.
  rewrite build_instance in Et.
  assert (Hb : exists t c s kids, body pg = Element t c s kids).
  { destruct (body pg) as [d | t c s kids] eqn:E; [ | eauto].
    destruct base; simpl in Hn; [ | discriminate].
    injection Hn as <-. discriminate. }
  destruct Hb as (t & c & s & kids & Hb).
  assert (Hc1 : classMatch c "unsearchable" = false).
  { unfold hasClassAt, classAt in Hbody. rewrite Hb in Hbody. exact Hbody. }
  assert (Hc2 : classMatch (classNameOf el) "unsearchable" = false).
  { unfold hasClassAt, classAt in Hbase. now rewrite Hn in Hbase. }
  pose proof (build_attached base el st pg t c s kids Hb Hc1 Hel Hc2) as H.
  cbv zeta in H. rewrite <- Ep in H. destruct H as (H1 & H2 & H3 & H4).
  assert (Hcount : childCount (body pg) = List.length kids) by now rewrite Hb.
  assert (Hr : region this = [List.length kids]) by (rewrite Et, Hcount; reflexivity).
  assert (Hm : miniElement this = [S (List.length kids)])
    by (rewrite Et, Hcount; reflexivity).
  rewrite Hcount, Hr, Hm.
  split; [reflexivity | ]. split; [reflexivity | ].
  split; [exact H3 | ]. split; [exact H4 | ].
  assert (Hlast : forall k, (List.length kids <= k)%nat -> base <> [k]).
  { intros k Hk ->. rewrite Hb in Hn. simpl in Hn.
    destruct (nth_error kids k) eqn:E; [ | discriminate].
    apply nth_error_None in Hk. congruence. }
  assert (H0 : attached {| instance := this; page := pg' |}).
  { unfold attached. cbn [instance page]. rewrite Hr, Hm.
    assert (Eb : baseElement this = base) by (rewrite Et; reflexivity).
    rewrite Eb.
    split; [exact H2 | ]. split; [exact H1 | ].
    split; [intro E; injection E; lia | ].
    split; apply Hlast; lia. }
  intros w Hsteps. apply (attached_sameElements _ _ H0).
  clear - Hsteps. induction Hsteps as [w | w w' w'' _ IH Hstep].
  - apply sameElements_refl.
  - exact (sameElements_trans _ _ _ IH (sameElements_step _ _ Hstep)).
Qed.

(** The theorem for the sample minimap after [show()] and [toggle()]. *)
Lemma region_and_preview_stay_attached_witness :
  attached (@toggle sampleBrowser
              (@show sampleBrowser {| instance := instance hiddenWorld;
                                      page := page hiddenWorld |})).
Proof.
  assert (Hc : @constructor sampleBrowser [] [] emptyPage
               = (Ok (instance hiddenWorld), page hiddenWorld))
    by (vm_compute; reflexivity).
  destruct (region_and_preview_stay_attached
              sampleBrowser [] [] emptyPage (page hiddenWorld) (instance hiddenWorld)
              Hc eq_refl eq_refl) as (_ & _ & _ & _ & H).
  apply H.
  eapply (@steps_more sampleBrowser); [ | apply (@step_toggle sampleBrowser)].
  eapply (@steps_more sampleBrowser); [ | apply (@step_show sampleBrowser)].
  apply (@steps_none sampleBrowser).
Defined.

(* ===================================================================== *)
(** ** Pressing and releasing the mouse on the minimap *)
(* ===================================================================== *)

Section PressRelease.
Context {browser : Browser}.

Lemma classAt_addClass (p : path) (b : Node) (c : string) :
  elementAt b p = true ->
  classAt (updateAt p (fun el => addClass el c) b) p
  = if classMatch (classAt b p) c then classAt b p else classAt b p ++ " " ++ c.
Proof.
  unfold elementAt. rewrite classAt_same. unfold classAt.
  destruct (nodeAt b p) as [[d | t cls s kids] | ]; try discriminate. intros _.
  unfold addClass, hasClass. cbn [classNameOf].
  destruct (classMatch cls c); reflexivity.
Qed.

Lemma classAt_removeClass (p : path) (b : Node) (c : string) :
  elementAt b p = true ->
  classAt (updateAt p (fun el => removeClass el c) b) p
  = if classMatch (classAt b p) c then replaceFirst c (classAt b p) true
    else classAt b p.
Proof.
  unfold elementAt. rewrite classAt_same. unfold classAt.
  destruct (nodeAt b p) as [[d | t cls s kids] | ]; try discriminate. intros _.
  unfold removeClass, hasClass. cbn [classNameOf].
  destruct (classMatch cls c); reflexivity.
Qed.

(** The class attribute after [addClass] and then [removeClass] of a
    class name proper that was not there. *)
Lemma class_added_and_removed (cls c : string) :
  isToken c = true ->
  classMatch cls c = false ->
  (if classMatch (cls ++ " " ++ c) c then replaceFirst c (cls ++ " " ++ c) true
   else cls ++ " " ++ c)
  = cls ++ " ".
Proof.
  intros Hc Hm. unfold classMatch. rewrite matchFrom_added.
  unfold classMatch in Hm. rewrite matchFrom_boundary in Hm.
  apply Bool.orb_false_iff in Hm. destruct Hm as [M1 M2].
  exact (replaceFirst_added c cls (isToken_noSpace c Hc) (isToken_nonempty c Hc)
           true (fun _ => M1) M2).
Qed.

End PressRelease.

(** X17: the mouse-down handler followed by the mouse-up handler, for a
    minimap whose source and region are elements of the document, the
    source without the class ['noselect'] and the region without the class
    ['dragging'], both with class attributes of 7-bit text. In between,
    the flag [mousedown] is set and the two elements carry the two
    classes. Afterwards the flag is clear, neither element carries its
    class, every other class name is found on them exactly as before, and
    each of the two class attributes is one blank longer than it was. *)
Theorem press_and_release_restore_the_classes (browser : Browser) (w : World) :
  attached w ->
  elementAt (body (page w)) (baseElement (instance w)) = true ->
  let base := baseElement (instance w) in
  let reg := region (instance w) in
  isAsciiText (classAt (body (page w)) base) = true ->
  isAsciiText (classAt (body (page w)) reg) = true ->
  hasClassAt (body (page w)) base "noselect" = false ->
  hasClassAt (body (page w)) reg "dragging" = false ->
  let down := _genOnMouseDownHandler w in
  let up := _genOnMouseUpHandler down in
  mousedown (instance down) = true
  /\ hasClassAt (body (page down)) base "noselect" = true
  /\ hasClassAt (body (page down)) reg "dragging" = true
  /\ mousedown (instance up) = false
  /\ classAt (body (page up)) base = classAt (body (page w)) base ++ " "
  /\ classAt (body (page up)) reg = classAt (body (page w)) reg ++ " "
  /\ (forall d, isToken d = true ->
                hasClassAt (body (page up)) base d = hasClassAt (body (page w)) base d
                /\ hasClassAt (body (page up)) reg d = hasClassAt (body (page w)) reg d).
Proof.
  intros (_ & Hr & _ & Hbr & _) Hb base reg _ _ Hnb Hnr down up.
  assert (Hrb : reg <> base) by (intro E; apply Hbr; symmetry; exact E).
  set (b := body (page w)) in *.
  set (b1 := updateAt base (fun el => addClass el "noselect") b).
  set (b2 := updateAt reg (fun el => addClass el "dragging") b1).
  set (b3 := updateAt base (fun el => removeClass el "noselect") b2).
  set (b4 := updateAt reg (fun el => removeClass el "dragging") b3).
  assert (Ed : body (page down) = b2) by reflexivity.
  assert (Eu : body (page up) = b4) by reflexivity.
  rewrite Ed, Eu. unfold hasClassAt in *.
  assert (C1 : classAt b1 base = classAt b base ++ " " ++ "noselect").
  { unfold b1. rewrite classAt_addClass by exact Hb. now rewrite Hnb. }
  assert (R1 : classAt b1 reg = classAt b reg).
  { unfold b1. apply classAt_other; [apply shallow_addClass | ].
    intro E. apply Hrb. symmetry. exact E. }
  assert (Er1 : elementAt b1 reg = true)
    by (unfold b1; now rewrite elementAt_shallow by apply shallow_addClass).
  assert (R2 : classAt b2 reg = classAt b reg ++ " " ++ "dragging").
  { unfold b2. rewrite classAt_addClass by exact Er1. now rewrite R1, Hnr. }
  assert (C2 : classAt b2 base = classAt b base ++ " " ++ "noselect").
  { unfold b2. rewrite classAt_other by (try apply shallow_addClass; exact Hrb).
    exact C1. }
  assert (Eb2 : elementAt b2 base = true).
  { unfold b2, b1. now rewrite !elementAt_shallow by apply shallow_addClass. }
  assert (C3 : classAt b3 base = classAt b base ++ " ").
  { unfold b3. rewrite classAt_removeClass by exact Eb2. rewrite C2.
    now apply class_added_and_removed. }
  assert (R3 : classAt b3 reg = classAt b reg ++ " " ++ "dragging").
  { unfold b3. rewrite classAt_other; [exact R2 | apply shallow_removeClass | ].
    intro E. apply Hrb. symmetry. exact E. }
  assert (Er3 : elementAt b3 reg = true).
  { unfold b3, b2. rewrite elementAt_shallow by apply shallow_removeClass.
    now rewrite elementAt_shallow by apply shallow_addClass. }
  assert (R4 : classAt b4 reg = classAt b reg ++ " ").
  { unfold b4. rewrite classAt_removeClass by exact Er3. rewrite R3.
    now apply class_added_and_removed. }
  assert (C4 : classAt b4 base = classAt b base ++ " ").
  { unfold b4. rewrite classAt_other by (try apply shallow_removeClass; exact Hrb).
    exact C3. }
  split; [reflexivity | ].
  split; [rewrite C2; apply matchFrom_added | ].
  split; [rewrite R2; apply matchFrom_added | ].
  split; [reflexivity | ].
  split; [exact C4 | ]. split; [exact R4 | ].
  intros d Hd. rewrite C4, R4. split; now apply classMatch_blank.
Qed.

(** The theorem for the shown sample minimap. *)
Lemma press_and_release_restore_the_classes_witness :
  classAt (body (page (_genOnMouseUpHandler (_genOnMouseDownHandler shownWorld))))
          (baseElement (instance shownWorld))
  = classAt (body (page shownWorld)) (baseElement (instance shownWorld)) ++ " ".
Proof.
  assert (Ha : attached shownWorld).
  { unfold attached.
    repeat (match goal with |- _ /\ _ => split end);
      try (vm_compute; reflexivity); vm_compute; intro E; discriminate E. }
  assert (Hb : elementAt (body (page shownWorld)) (baseElement (instance shownWorld))
               = true) by (vm_compute; reflexivity).
  pose proof (press_and_release_restore_the_classes sampleBrowser shownWorld Ha Hb) as H.
  cbv zeta in H.
  assert (H1 : isAsciiText (classAt (body (page shownWorld))
                              (baseElement (instance shownWorld))) = true)
    by (vm_compute; reflexivity).
  assert (H2 : isAsciiText (classAt (body (page shownWorld))
                              (region (instance shownWorld))) = true)
    by (vm_compute; reflexivity).
  assert (H3 : hasClassAt (body (page shownWorld)) (baseElement (instance shownWorld))
                 "noselect" = false) by (vm_compute; reflexivity).
  assert (H4 : hasClassAt (body (page shownWorld)) (region (instance shownWorld))
                 "dragging" = false) by (vm_compute; reflexivity).
  destruct (H H1 H2 H3 H4) as (_ & _ & _ & _ & H5 & _).
  exact H5.
Defined.

(* ===================================================================== *)
(** ** Hovering *)
(* ===================================================================== *)

Section Hover.
Context {browser : Browser}.

(** Two [cssObjAssign] with the same object, on the preview and then on
    the region. *)
Lemma styleAt_both (css : list (string * option text)) (mini reg : path) (b : Node)
      (key : string) (p : path) :
  elementAt b mini = true ->
  elementAt b reg = true ->
  mini <> reg ->
  p = mini \/ p = reg ->
  styleAt (updateAt reg (fun el => cssObjAssign el css)
             (updateAt mini (fun el => cssObjAssign el css) b)) p key
  = match lastAssigned css key with
    | Some v => v
    | None => styleAt b p key
    end.
Proof.
  intros Hm Hr Hne [-> | ->].
  - rewrite styleAt_other
      by (try apply shallow_cssObjAssign; intro E; apply Hne; symmetry; exact E).
    now apply styleAt_assigned.
  - rewrite styleAt_assigned
      by (now rewrite elementAt_shallow by apply shallow_cssObjAssign).
    destruct (lastAssigned css key); [reflexivity | ].
    apply styleAt_other; [apply shallow_cssObjAssign | exact Hne].
Qed.

End Hover.

(** X18: the mouse-over handler followed by the mouse-out handler, for a
    minimap whose preview and region are two elements of the document.
    After the first, [opacity] is the text of [hoverOpacity] and [filter]
    is ['alpha(opacity=' + hoverOpacity * 100 + ')'] on both elements;
    after the second both properties are null on both elements, whatever
    they held before the pointer came. No other style property of the two
    elements, nothing of the instance, and neither the scrolling nor the
    listeners change. *)
Theorem hover_sets_and_clears_the_opacity (browser : Browser) (w : World) (p : path) :
  attached w ->
  p = miniElement (instance w) \/ p = region (instance w) ->
  let over := _genMouseOverHandler w in
  let out := _genMouseOutHandler over in
  styleAt (body (page over)) p "opacity" = Some [Shown (setting w "hoverOpacity")]
  /\ styleAt (body (page over)) p "filter"
     = Some [Lit "alpha(opacity=";
             Shown (VNum (mul (ToNumber (setting w "hoverOpacity")) (ofZ 100)));
             Lit ")"]
  /\ styleAt (body (page out)) p "opacity" = None
  /\ styleAt (body (page out)) p "filter" = None
  /\ (forall key, key <> "opacity" -> key <> "filter" ->
                  styleAt (body (page over)) p key = styleAt (body (page w)) p key
                  /\ styleAt (body (page out)) p key = styleAt (body (page w)) p key)
  /\ instance out = instance w
  /\ undisturbed w out.
Proof.
  intros (Hm & Hr & Hne & _) Hp over out.
  set (b := body (page w)).
  set (mini := miniElement (instance w)) in *.
  set (reg := region (instance w)) in *.
  set (css1 := [("opacity", Some [Shown (setting w "hoverOpacity")]);
                ("filter",
                 Some [Lit "alpha(opacity=";
                       Shown (VNum (mul (ToNumber (setting w "hoverOpacity")) (ofZ 100)));
                       Lit ")"])]).
  set (css2 := [("opacity", @None text); ("filter", @None text)]).
  set (b1 := updateAt reg (fun el => cssObjAssign el css1)
               (updateAt mini (fun el => cssObjAssign el css1) b)).
  assert (Eo : body (page over) = b1) by reflexivity.
  assert (Eu : body (page out)
               = updateAt reg (fun el => cssObjAssign el css2)
                   (updateAt mini (fun el => cssObjAssign el css2) b1)) by reflexivity.
  assert (Hm1 : elementAt b1 mini = true)
    by (unfold b1; now rewrite !elementAt_shallow by apply shallow_cssObjAssign).
  assert (Hr1 : elementAt b1 reg = true)
    by (unfold b1; now rewrite !elementAt_shallow by apply shallow_cssObjAssign).
  assert (Hother : forall key, key <> "opacity" -> key <> "filter" ->
             lastAssigned css1 key = None /\ lastAssigned css2 key = None).
  { intros key H1 H2. unfold lastAssigned, css1, css2. cbn [fold_left fst snd].
    destruct (String.eqb_spec "opacity" key); [congruence | ].
    destruct (String.eqb_spec "filter" key); [congruence | ]. split; reflexivity. }
  rewrite Eo, Eu. unfold b1 at 1 2 5.
  rewrite !(styleAt_both css1 mini reg b _ p Hm Hr Hne Hp).
  rewrite !(styleAt_both css2 mini reg b1 _ p Hm1 Hr1 Hne Hp).
  split; [reflexivity | ]. split; [reflexivity | ].
  split; [reflexivity | ]. split; [reflexivity | ].
  split; [ | split; [reflexivity | repeat split]].
  intros key H1 H2. destruct (Hother key H1 H2) as (L1 & L2).
  unfold b1.
  rewrite !(styleAt_both css1 mini reg b _ p Hm Hr Hne Hp).
  rewrite !(styleAt_both css2 mini reg b1 _ p Hm1 Hr1 Hne Hp).
  rewrite L1, L2. split; [reflexivity | ].
  unfold b1. now rewrite (styleAt_both css1 mini reg b _ p Hm Hr Hne Hp), L1.
Qed.

(** The theorem for the preview of the shown sample minimap. *)
Lemma hover_sets_and_clears_the_opacity_witness :
  styleAt (body (page (_genMouseOutHandler
                         (@_genMouseOverHandler sampleBrowser shownWorld))))
          (miniElement (instance shownWorld)) "opacity"
  = None.
Proof.
  assert (Ha : attached shownWorld).
  { unfold attached.
    repeat (match goal with |- _ /\ _ => split end);
      try (vm_compute; reflexivity); vm_compute; intro E; discriminate E. }
  pose proof (hover_sets_and_clears_the_opacity sampleBrowser shownWorld
                (miniElement (instance shownWorld)) Ha (or_introl eq_refl)) as H.
  cbv zeta in H. destruct H as (_ & _ & H & _).
  exact H.
Defined.

(* ===================================================================== *)
(** ** The positions of an animated scroll *)
(* ===================================================================== *)

Section Positions.
Context {browser : Browser}.



End Positions.




(* ===================================================================== *)
(** ** Selection and removal (jquery-ports.js) *)
(* ===================================================================== *)

Section Removal.

Lemma querySelectorAll_element (sel : selector) (anc : bool) (t cls : string)
      (s : list (string * option text)) (kids : list Node) :
  querySelectorAll sel anc (Element t cls s kids)
  = selectFrom sel (anc || isAncestorFor sel cls) O kids.
Proof.
  cbn [querySelectorAll]. generalize O.
  induction kids as [ | k kids IH]; intros i; [reflexivity | ].
  cbn [selectFrom]. now rewrite <- IH.
Qed.

Lemma remove_element (ps : list path) (t cls : string)
      (s : list (string * option text)) (kids : list Node) :
  remove ps (Element t cls s kids) = Element t cls s (removeFrom ps O kids).
Proof.
  cbn [remove]. f_equal. generalize O.
  induction kids as [ | k kids IH]; intros i; [reflexivity | ].
  cbn [removeFrom]. now rewrite <- IH.
Qed.

Lemma selectFrom_heads (sel : selector) (anc : bool) (ks : list Node) :
  forall i, headsFrom i (selectFrom sel anc i ks).
Proof.
  unfold headsFrom. induction ks as [ | k ks IH]; intros i; [constructor | ].
  cbn [selectFrom]. rewrite !Forall_app. split; [ | split].
  - destruct (matches sel anc k); repeat constructor.
  - apply Forall_forall. intros p Hp. apply in_map_iff in Hp.
    destruct Hp as (q & <- & _). apply Nat.le_refl.
  - eapply Forall_impl; [ | apply (IH (S i))].
    intros [ | j p]; [tauto | lia].
Qed.

Lemma below_app (i : nat) (ps qs : list path) :
  below i (ps ++ qs) = (below i ps ++ below i qs)%list.
Proof.
  induction ps as [ | [ | j p] ps IH]; cbn [app below]; auto.
  destruct (Nat.eqb i j); [cbn [app]; now rewrite IH | exact IH].
Qed.

Lemma below_other (i : nat) (ps : list path) :
  Forall (fun p => match p with [] => True | j :: _ => j <> i end) ps ->
  below i ps = [] /\ existsb (path_eqb [i]) ps = false.
Proof.
  induction 1 as [ | [ | j p] ps Hp _ [IH1 IH2]]; cbn [below existsb].
  - split; reflexivity.
  - split; [exact IH1 | ]. rewrite IH2. now rewrite path_eqb_neq.
  - destruct (Nat.eqb_spec i j) as [-> | Hne]; [contradiction | ].
    split; [exact IH1 | ]. rewrite IH2.
    rewrite path_eqb_neq; [reflexivity | ]. intro E. injection E as E _. contradiction.
Qed.

Lemma below_cons (i : nat) (ps : list path) :
  below i (map (cons i) ps) = ps
  /\ existsb (path_eqb [i]) (map (cons i) ps) = existsb (path_eqb []) ps.
Proof.
  induction ps as [ | p ps [IH1 IH2]]; [split; reflexivity | ].
  cbn [map below existsb]. rewrite Nat.eqb_refl, IH1, IH2. split; [reflexivity | ].
  f_equal. unfold path_eqb.
  destruct (list_eq_dec Nat.eq_dec [i] (i :: p)) as [E | E],
           (list_eq_dec Nat.eq_dec [] p) as [E' | E']; try reflexivity.
  - injection E as <-. contradiction.
  - subst p. contradiction.
Qed.

Lemma querySelectorAll_nonempty (sel : selector) (anc : bool) (n : Node) :
  existsb (path_eqb []) (querySelectorAll sel anc n) = false.
Proof.
  destruct n as [d | t cls s kids]; [reflexivity | ].
  rewrite querySelectorAll_element.
  pose proof (selectFrom_heads sel (anc || isAncestorFor sel cls) kids O) as H.
  unfold headsFrom in H.
  induction H as [ | [ | j p] ps Hp _ IH]; [reflexivity | contradiction | ].
  cbn [existsb]. rewrite IH. now rewrite path_eqb_neq.
Qed.

Lemma remove_nil_path (ps : list path) (n : Node) :
  remove ([] :: ps) n = remove ps n.
Proof.
  destruct n as [d | t cls s kids]; [reflexivity | ].
  rewrite !remove_element. f_equal. generalize O.
  induction kids as [ | k kids IH]; intros i; [reflexivity | ].
  cbn [removeFrom existsb below]. rewrite (path_eqb_neq [i] []) by discriminate.
  cbn [orb]. now rewrite IH.
Qed.

Lemma matches_remove (sel : selector) (anc : bool) (ps : list path) (n : Node) :
  matches sel anc (remove ps n) = matches sel anc n.
Proof.
  destruct n as [d | t cls s kids]; [reflexivity | ].
  now rewrite remove_element.
Qed.

(** What [remove] does with the children when it is given the selection
    itself, after paths that lie before them. *)
Lemma removeFrom_selected (sel : selector) (anc : bool) (ks : list Node) :
  forall i pre,
    headsBelow i pre ->
    removeFrom (pre ++ selectFrom sel anc i ks) i ks
    = flat_map (fun k => if matches sel anc k then []
                         else [remove (querySelectorAll sel anc k) k]) ks.
Proof.
  induction ks as [ | k ks IH]; intros i pre Hpre; [reflexivity | ].
  cbn [removeFrom selectFrom flat_map].
  assert (Hp : below i pre = [] /\ existsb (path_eqb [i]) pre = false).
  { apply below_other. eapply Forall_impl; [ | exact Hpre].
    intros [ | j p]; [tauto | lia]. }
  assert (Hs : below i (selectFrom sel anc (S i) ks) = []
               /\ existsb (path_eqb [i]) (selectFrom sel anc (S i) ks) = false).
  { apply below_other. eapply Forall_impl; [ | apply (selectFrom_heads sel anc ks (S i))].
    intros [ | j p]; [tauto | lia]. }
  destruct Hp as (Hp1 & Hp2). destruct Hs as (Hs1 & Hs2).
  destruct (below_cons i (querySelectorAll sel anc k)) as (Hc1 & Hc2).
  rewrite querySelectorAll_nonempty in Hc2.
  unfold path in *.
  rewrite !existsb_app, !below_app, Hp1, Hp2, Hs1, Hs2, Hc1, Hc2.
  assert (Hnext : removeFrom
                    (pre ++ (if matches sel anc k then [[i]] else [])
                         ++ map (cons i) (querySelectorAll sel anc k)
                         ++ selectFrom sel anc (S i) ks) (S i) ks
                  = flat_map (fun k => if matches sel anc k then []
                                       else [remove (querySelectorAll sel anc k) k]) ks).
  { replace (pre ++ (if matches sel anc k then [[i]] else [])
                 ++ map (cons i) (querySelectorAll sel anc k)
                 ++ selectFrom sel anc (S i) ks)%list
      with ((pre ++ (if matches sel anc k then [[i]] else [])
                 ++ map (cons i) (querySelectorAll sel anc k))
              ++ selectFrom sel anc (S i) ks)%list
      by (now rewrite <- !app_assoc).
    apply IH.
    unfold headsBelow. rewrite !Forall_app. split; [ | split].
    - eapply Forall_impl; [ | exact Hpre]. intros [ | j p]; [tauto | lia].
    - destruct (matches sel anc k); repeat constructor.
    - apply Forall_forall. intros p Hin. apply in_map_iff in Hin.
      destruct Hin as (q & <- & _). lia. }
  rewrite Hnext.
  destruct (matches sel anc k); cbn [existsb below orb app path_eqb].
  - rewrite path_eqb_refl. reflexivity.
  - rewrite app_nil_r. reflexivity.
Qed.

Lemma selectFrom_removed (sel : selector) (anc : bool) (ks : list Node) :
  Forall (fun k => forall a,
              querySelectorAll sel a (remove (querySelectorAll sel a k) k) = []) ks ->
  forall i,
    selectFrom sel anc i
      (flat_map (fun k => if matches sel anc k then []
                          else [remove (querySelectorAll sel anc k) k]) ks)
    = [].
Proof.
  induction 1 as [ | k ks Hk _ IH]; intros i; [reflexivity | ].
  cbn [flat_map]. destruct (matches sel anc k) eqn:M; cbn [app]; [apply IH | ].
  cbn [selectFrom]. rewrite matches_remove, M, Hk, IH. reflexivity.
Qed.

Lemma remove_selected (sel : selector) (n : Node) :
  forall anc, querySelectorAll sel anc (remove (querySelectorAll sel anc n) n) = [].
Proof.
  induction n as [d | t cls s kids IH] using Node_forall_ind; intros anc;
    [reflexivity | ].
  rewrite (querySelectorAll_element sel anc t cls s kids), remove_element.
  rewrite querySelectorAll_element.
  pose proof (removeFrom_selected sel (anc || isAncestorFor sel cls) kids O []
                (Forall_nil _)) as H.
  cbn [app] in H. rewrite H.
  now apply selectFrom_removed.
Qed.

Lemma remove_nothing (n : Node) : remove [] n = n.
Proof.
  induction n as [d | t cls s kids IH] using Node_forall_ind; [reflexivity | ].
  rewrite remove_element. f_equal. generalize O.
  induction IH as [ | k ks Hk _ IHks]; intros i; [reflexivity | ].
  cbn [removeFrom existsb below app]. now rewrite Hk, IHks.
Qed.

End Removal.

(** X20: [remove(selectAll(selector, element))], for the selectors
    ['.c'] and ['.a .c'] that minimap.js uses. Afterwards
    [selectAll(selector, element)] finds nothing; the element itself stays,
    with its tag, class attribute and style; and where the selection was
    empty the element is exactly as it was. *)
Theorem remove_of_the_selection_leaves_no_match (sel : selector) (element : Node) :
  selectAll sel (remove (selectAll sel element) element) = []
  /\ surface (remove (selectAll sel element) element) = surface element
  /\ (selectAll sel element = [] -> remove (selectAll sel element) element = element).
Proof.
  split; [apply remove_selected | ]. split.
  - destruct element as [d | t cls s kids]; [reflexivity | ].
    now rewrite remove_element.
  - intros ->. apply remove_nothing.
Qed.

(* ===================================================================== *)
(** ** The layout of the preview *)
(* ===================================================================== *)

Section PreviewLayout.
Context {browser : Browser}.

(** The entries of the two objects that the layout pass assigns, to the
    preview and to the region. *)
Lemma resize_layout (w : World) (pos : string) :
  shown (instance w) = true ->
  setting w "position" = VStr pos ->
  pos = "right" \/ pos = "left" ->
  let W := width (page w) Window in
  let H := height (page w) Window in
  let scale := _scale w in
  let transform :=
    Some [Lit "scale("; Shown (VNum (fst scale)); Lit ",";
          Shown (VNum (snd scale)); Lit ")"] in
  exists cssM cssR,
    body (page (_genOnResizeHandler w))
    = updateAt (region (instance w)) (fun el => cssObjAssign el cssR)
        (updateAt (miniElement (instance w)) (fun el => cssObjAssign el cssM)
           (body (page w)))
    /\ (forall key,
           In key ["-webkit-transform"; "-moz-transform"; "-ms-transform";
                   "-o-transform"; "transform"] ->
           lastAssigned cssM key = Some transform)
    /\ lastAssigned cssM "width"
       = Some (px (mul (mul W (div (ofZ 1) (fst scale)))
                       (ToNumber (setting w "widthRatio"))))
    /\ lastAssigned cssM "height"
       = Some (px (mul (mul H (div (ofZ 1) (snd scale)))
                       (ToNumber (setting w "heightRatio"))))
    /\ lastAssigned cssM "top"
       = Some (px (add (div (mul (height (page w) (base w))
                                 (sub (snd scale) (ofZ 1))) (ofZ 2))
                       (mul H (ToNumber (setting w "offsetHeightRatio")))))
    /\ lastAssigned cssM pos
       = Some (px (add (div (mul (width (page w) (base w))
                                 (sub (fst scale) (ofZ 1))) (ofZ 2))
                       (mul W (ToNumber (setting w "offsetWidthRatio")))))
    /\ lastAssigned cssM "margin" = Some (literal "0px")
    /\ lastAssigned cssM "padding" = Some (literal "0px")
    /\ lastAssigned cssR "height" = Some (px (mul H (snd scale)))
    /\ lastAssigned cssR pos
       = Some (px (mul W (ToNumber (setting w "offsetWidthRatio"))))
    /\ lastAssigned cssR "margin" = Some (literal "0px").
Proof.
  intros Hs Hp Hpos W H scale transform. unfold _genOnResizeHandler. rewrite Hs.
  cbv zeta. cbn [negb]. unfold setting in *. cbn [instance onElement onPage].
  rewrite Hp.
  destruct Hpos as [-> | ->];
    (eexists; eexists; split; [reflexivity | ];
     split;
     [ intros key Hk; simpl in Hk;
       destruct Hk as [<- | [<- | [<- | [<- | [<- | []]]]]]; reflexivity
     | repeat split; reflexivity ]).
Qed.

End PreviewLayout.

(** X21: the layout pass of a shown minimap whose preview and region
    are two elements of the document, with the position ['right'] or
    ['left']. With [x] and [y] the scale that [_scale] computes, the
    viewport width over the width of the source times [widthRatio] and
    the same of the heights with [heightRatio], the preview holds
    [scale(x,y)] under all five names of the transform, the width
    [viewportWidth * (1 / x) * widthRatio] and the height likewise,
    the top [sourceHeight * (y - 1) / 2 + viewportHeight *
    offsetHeightRatio] and, at the edge named by the position, the same
    of the widths, and no margin or padding; the region holds the height
    [viewportHeight * y] and, at that edge,
    [viewportWidth * offsetWidthRatio]; and [onPreviewChange] is called
    once more, with the preview and that scale. Each number is the
    expression the code computes it with. *)
Theorem layout_scales_the_preview_to_the_ratios
        (browser : Browser) (w : World) (pos : string) :
  attached w ->
  shown (instance w) = true ->
  setting w "position" = VStr pos ->
  pos = "right" \/ pos = "left" ->
  let W := width (page w) Window in
  let H := height (page w) Window in
  let x := mul (div W (width (page w) (base w))) (ToNumber (setting w "widthRatio")) in
  let y := mul (div H (height (page w) (base w))) (ToNumber (setting w "heightRatio")) in
  let b' := body (page (_genOnResizeHandler w)) in
  let mini := miniElement (instance w) in
  let reg := region (instance w) in
  _scale w = (x, y)
  /\ (forall key,
         In key ["-webkit-transform"; "-moz-transform"; "-ms-transform";
                 "-o-transform"; "transform"] ->
         styleAt b' mini key
         = Some [Lit "scale("; Shown (VNum x); Lit ","; Shown (VNum y); Lit ")"])
  /\ styleAt b' mini "width"
     = px (mul (mul W (div (ofZ 1) x)) (ToNumber (setting w "widthRatio")))
  /\ styleAt b' mini "height"
     = px (mul (mul H (div (ofZ 1) y)) (ToNumber (setting w "heightRatio")))
  /\ styleAt b' mini "top"
     = px (add (div (mul (height (page w) (base w)) (sub y (ofZ 1))) (ofZ 2))
               (mul H (ToNumber (setting w "offsetHeightRatio"))))
  /\ styleAt b' mini pos
     = px (add (div (mul (width (page w) (base w)) (sub x (ofZ 1))) (ofZ 2))
               (mul W (ToNumber (setting w "offsetWidthRatio"))))
  /\ styleAt b' mini "margin" = literal "0px"
  /\ styleAt b' mini "padding" = literal "0px"
  /\ styleAt b' reg "height" = px (mul H y)
  /\ styleAt b' reg pos = px (mul W (ToNumber (setting w "offsetWidthRatio")))
  /\ styleAt b' reg "margin" = literal "0px"
  /\ calls (page (_genOnResizeHandler w))
     = (calls (page w)
          ++ [ {| callee := setting w "onPreviewChange"; previewElement := mini;
                  scaleX := x; scaleY := y |} ])%list.
Proof.
  intros (Hm & Hr & Hne & _) Hs Hp Hpos W H x y b' mini reg.
  pose proof (resize_layout w pos Hs Hp Hpos) as L. cbv zeta in L.
  destruct L as (cssM & cssR & Eb & Lt & Lw & Lh & Ltop & Lpos & Lmar & Lpad
                 & Rh & Rpos & Rmar).
  change (_scale w) with (x, y) in *. cbn [fst snd] in *.
  fold W H in Lw, Lh, Ltop, Lpos, Rh, Rpos.
  assert (Hmini : forall key,
             styleAt b' mini key
             = match lastAssigned cssM key with
               | Some v => v
               | None => styleAt (body (page w)) mini key
               end).
  { intros key. unfold b'. rewrite Eb.
    rewrite styleAt_other
      by (try apply shallow_cssObjAssign; intro E; apply Hne; symmetry; exact E).
    now apply styleAt_assigned. }
  assert (Hreg : forall key,
             forall v, lastAssigned cssR key = Some v -> styleAt b' reg key = v).
  { intros key v E. unfold b'. rewrite Eb.
    rewrite styleAt_assigned, E; [reflexivity | ].
    rewrite elementAt_shallow by apply shallow_cssObjAssign. exact Hr. }
  split; [reflexivity | ].
  split; [intros key Hk; now rewrite Hmini, (Lt key Hk) | ].
  rewrite !Hmini, Lw, Lh, Ltop, Lpos, Lmar, Lpad.
  rewrite (Hreg _ _ Rh), (Hreg _ _ Rpos), (Hreg _ _ Rmar).
  repeat (split; [reflexivity | ]).
  rewrite resize_calls, Hs. reflexivity.
Qed.

(** The theorem for the shown sample minimap: the layout pass leaves the
    preview without margin, gives the region the viewport height times
    the vertical scale, and calls [onPreviewChange] once more. *)
Lemma layout_scales_the_preview_to_the_ratios_witness :
  let w' := @_genOnResizeHandler sampleBrowser shownWorld in
  styleAt (body (page w')) (miniElement (instance shownWorld)) "margin"
  = literal "0px"
  /\ styleAt (body (page w')) (region (instance shownWorld)) "height"
     = px (mul (@height sampleBrowser (page shownWorld) Window)
               (snd (@_scale sampleBrowser shownWorld)))
  /\ List.length (calls (page w')) = S (List.length (calls (page shownWorld))).
Proof.
  assert (Ha : attached shownWorld).
  { unfold attached.
    repeat (match goal with |- _ /\ _ => split end);
      try (vm_compute; reflexivity); vm_compute; intro E; discriminate E. }
  pose proof (layout_scales_the_preview_to_the_ratios
                sampleBrowser shownWorld "right" Ha eq_refl eq_refl
                (or_introl eq_refl)) as H.
  cbv zeta in H.
  destruct H as (H1 & _ & _ & _ & _ & _ & H2 & _ & H3 & _ & _ & H4).
  cbv zeta. split; [exact H2 | ]. split.
  - rewrite H3, H1. reflexivity.
  - rewrite H4, List.length_app. cbn [List.length]. apply Nat.add_1_r.
Defined.

(* ===================================================================== *)
(** ** Dragging *)
(* ===================================================================== *)

(** X22: a drag move on a shown minimap whose mouse is down and which
    is not in an animated scroll, and the scroll handler after it. The
    move asks the window at once, with [scrollTo], for the target of
    [scrollTop] at the horizontal offset it has, registers no timer,
    leaves the instance as it was and stops the propagation of the event;
    with the mouse up or the flag of an animated scroll set it does
    nothing at all. Whatever vertical offset the window then reports,
    the requested one or the nearest the page can scroll to, the scroll
    handler gives the region [display: none] and leaves its [top] when
    the scaled offset lies outside the scaled source, and otherwise gives
    it [display: block] and the [top]
    [viewportHeight * offsetHeightRatio + offset * y], with [y] the
    vertical scale. Each number is the expression the code computes it
    with. *)
Theorem a_drag_move_scrolls_at_once_and_the_region_follows
        (browser : Browser) (w : World) (e : Event) :
  attached w ->
  shown (instance w) = true ->
  type e <> "click" ->
  let moved := _genOnMouseMoveHandler w e in
  let reg := region (instance w) in
  (mousedown (instance w) = false \/ onSmoothScroll (instance w) = true ->
   moved = (w, e))
  /\ (mousedown (instance w) = true -> onSmoothScroll (instance w) = false ->
      fst moved = onPage (scrollTo (scrollX (page w)) (scrollTarget w e)) w
      /\ snd moved = stopPropagation e
      /\ timers (page (fst moved)) = timers (page w)
      /\ instance (fst moved) = instance w)
  /\ (forall offset : num,
         let reported := onPage (scrollTo (scrollX (page w)) offset) w in
         let scrolled := _genOnScrollHandler reported in
         let y := snd (_scale w) in
         let offsetTop :=
           mul (height (page w) Window) (ToNumber (setting w "offsetHeightRatio")) in
         let top :=
           mul (Host.offsetTop (measureOf (page w) (baseElement (instance w)))) y in
         let pos := mul offset y in
         let bottom :=
           add (mul (outerHeight (page w) (baseElement (instance w))) y) top in
         if ltb (add (add pos (outerHeight (page w) reg)) offsetTop) top
            || gtb pos bottom
         then styleAt (body (page scrolled)) reg "display" = Some [Lit "none"]
              /\ styleAt (body (page scrolled)) reg "top"
                 = styleAt (body (page w)) reg "top"
         else styleAt (body (page scrolled)) reg "display" = Some [Lit "block"]
              /\ styleAt (body (page scrolled)) reg "top" = px (add offsetTop pos)).
Proof.
  intros (_ & Hr & _) Hs Hty moved reg.
  split; [ | split].
  - intros Hidle. unfold moved, _genOnMouseMoveHandler.
    destruct Hidle as [-> | ->]; [reflexivity | now rewrite Bool.orb_true_r].
  - intros Hd Ha.
    assert (Em : moved
                 = (onPage (scrollTo (scrollX (page w)) (scrollTarget w e)) w,
                    stopPropagation e)).
    { unfold moved, _genOnMouseMoveHandler. rewrite Hd, Ha. cbn [negb orb].
      unfold scrollTop. rewrite Hs. cbn [negb]. cbv zeta.
      destruct (String.eqb_spec (type e) "click") as [E | _]; [contradiction | ].
      reflexivity. }
    rewrite Em. repeat split.
  - intros offset reported scrolled y offsetTop top pos bottom.
    unfold scrolled, _genOnScrollHandler.
    assert (Es : shown (instance reported) = true) by exact Hs.
    rewrite Es. cbn [negb]. cbv zeta.
    change (_scale reported) with (_scale w).
    change (height (page reported) Window) with (height (page w) Window).
    change (setting reported "offsetHeightRatio") with (setting w "offsetHeightRatio").
    change (scrollY (page reported)) with offset.
    change (measureOf (page reported) (baseElement (instance reported)))
      with (measureOf (page w) (baseElement (instance w))).
    change (outerHeight (page reported) (region (instance reported)))
      with (outerHeight (page w) reg).
    change (outerHeight (page reported) (baseElement (instance reported)))
      with (outerHeight (page w) (baseElement (instance w))).
    fold y. fold offsetTop. fold top. fold pos. fold bottom.
    assert (Er : elementAt (body (page reported)) (region (instance reported)) = true)
      by exact Hr.
    destruct (_ || _).
    + cbn [onElement onPage page withBody body].
      rewrite !(styleAt_assigned _ _ _ _ Er). split; reflexivity.
    + cbn [onElement onPage page withBody body].
      rewrite !(styleAt_assigned _ _ _ _ Er). split; reflexivity.
Qed.

(** The theorem for a drag move at height 300 on the shown sample
    minimap with the mouse down: the window is asked for the target of
    the move, the event goes no further, no timer is registered, and
    with that offset reported the region is displayed. *)
Lemma a_drag_move_scrolls_at_once_and_the_region_follows_witness :
  let w := _genOnMouseDownHandler shownWorld in
  let e := mouse "mousemove" 300 in
  let moved := @_genOnMouseMoveHandler sampleBrowser w e in
  scrollY (page (fst moved)) = @scrollTarget sampleBrowser w e
  /\ snd moved = stopPropagation e
  /\ timers (page (fst moved)) = []
  /\ styleAt (body (page (@_genOnScrollHandler sampleBrowser (fst moved))))
             (region (instance w)) "display"
     = Some [Lit "block"].
Proof.
  intros w e moved.
  assert (Ha : attached w).
  { unfold attached.
    repeat (match goal with |- _ /\ _ => split end);
      try (vm_compute; reflexivity); vm_compute; intro E; discriminate E. }
  assert (Hty : type e <> "click") by (intro E; discriminate E).
  pose proof (a_drag_move_scrolls_at_once_and_the_region_follows
                sampleBrowser w e Ha eq_refl Hty) as H.
  cbv zeta in H. destruct H as (_ & H1 & H2).
  destruct (H1 eq_refl eq_refl) as (E & Ee & Et & _).
  fold moved in E, Ee, Et.
  split; [rewrite E; reflexivity | ].
  split; [exact Ee | ].
  split; [rewrite Et; vm_compute; reflexivity | ].
  specialize (H2 (@scrollTarget sampleBrowser w e)).
  match type of H2 with
  | (if ?c then _ else _) =>
      let b := eval vm_compute in c in change c with b in H2
  end.
  cbv iota in H2. destruct H2 as (H2 & _). rewrite E. exact H2.
Defined.

(* ===================================================================== *)
(** ** The animated scroll of the earlier implementation *)
(* ===================================================================== *)

Section EarlierScroll.

Lemma sameTimers_refl (w : World) : sameTimers w w.
Proof. repeat split. Qed.

(** The two callbacks do the same to the timers and the offsets. *)
Lemma fireEarlier_sameTimers (timer : nat) (w w' : World) :
  sameTimers w w' -> sameTimers (fire timer w) (fireEarlier timer w').
Proof.
  intros (Ht & Hn & Hx & Hy). unfold fire, fireEarlier. rewrite Ht.
  destruct (lookupTimer timer (timers (page w))) as [T | ];
    [ | repeat split; assumption].
  unfold smoothScroll. cbv zeta.
  destruct (leb (sub (count T) (ofZ 1)) (ofZ 0));
    unfold sameTimers; cbn; rewrite Ht, Hn, Hx; repeat split.
Qed.

Lemma fireEarlierTimes_sameTimers (timer : nat) :
  forall n w w',
    sameTimers w w' -> sameTimers (fireTimes n timer w) (fireEarlierTimes n timer w').
Proof.
  induction n as [ | n IH]; intros w w' H; [exact H | ].
  cbn [fireTimes fireEarlierTimes]. apply IH. now apply fireEarlier_sameTimers.
Qed.

(** The firing with the last step clears the flag. *)
Lemma fireEarlier_last (timer : nat) (w : World) (T : Timer) (z : Z) :
  lookupTimer timer (timers (page w)) = Some T ->
  count T = ofZ z ->
  (z <= 1)%Z ->
  onSmoothScroll (instance (fireEarlier timer w)) = false.
Proof.
  intros Hl Hc Hz. unfold fireEarlier. rewrite Hl. unfold smoothScroll.
  rewrite Hc, sub_ofZ, leb_ofZ.
  destruct (z - 1 <=? 0)%Z eqn:E; [reflexivity | ].
  apply Z.leb_gt in E. lia.
Qed.

Lemma fireEarlierTimes_last (n timer : nat) (w : World) :
  fireEarlierTimes (S n) timer w = fireEarlier timer (fireEarlierTimes n timer w).
Proof.
  revert w. induction n as [ | n IH]; intros w; [reflexivity | ].
  cbn [fireEarlierTimes] in *. now rewrite IH.
Qed.

End EarlierScroll.

(** X23: the animated scroll of the earlier implementation and of the
    class, from the same click under the conditions in which the
    animation ends. After the same number of firings both have cleared the
    timer and left the window at the target; the earlier implementation,
    whose callback is a closure over the flag, has [onSmoothScroll] false
    again, while the class, whose callback assigns through [this], still
    has it true. *)
Theorem earlier_animation_clears_the_flag
        (browser : Browser) (w : World) (e : Event) (c t m : Q) :
  shown (instance w) = true ->
  type e = "click" ->
  truthy (setting w "smoothScroll") = true ->
  isOk (validate_smoothScrollDelay (setting w "smoothScrollDelay")) = true ->
  scrollY (page w) = Finite c ->
  scrollTarget w e = Finite t ->
  outerHeight (page w) (baseElement (instance w)) = Finite m ->
  freshTimer w ->
  let timer := nextTimer (page w) in
  let w1 := fst (scrollTop w e) in
  exists steps,
    (0 < steps)%nat
    /\ running timer (fireEarlierTimes steps timer w1) = false
    /\ running timer (fireTimes steps timer w1) = false
    /\ scrollY (page (fireEarlierTimes steps timer w1)) = Finite t
    /\ scrollY (page (fireTimes steps timer w1)) = Finite t
    /\ onSmoothScroll (instance (fireEarlierTimes steps timer w1)) = false
    /\ onSmoothScroll (instance (fireTimes steps timer w1)) = true.
Proof.
  intros Hs Hty Hsm Hv Hy Ht Hm Hfresh timer w1.
  destruct (startSmoothScroll_timer w c t m Hv Hy Hm Hfresh)
    as (u & i & x & dist & _ & _ & _ & Hl & Hflag).
  assert (Hw1 : w1 = fst (startSmoothScroll (Finite t) w)).
  { unfold w1. rewrite (scrollTop_click w e Hs Hty Hsm), Ht. reflexivity. }
  rewrite <- Hw1 in Hl, Hflag. fold timer in Hl.
  set (n := readInt x) in *.
  assert (Hsteps : exists k, Z.max 1 n = Z.of_nat (S k)).
  { exists (Nat.pred (Z.to_nat (Z.max 1 n))). lia. }
  destruct Hsteps as (k & Hmax).
  destruct (fireTimes_reaches_target timer k w1 _ n Hl eq_refl Hmax)
    as (Hrun & Hend & Hfin).
  exists (S k). split; [lia | ].
  destruct (fireEarlierTimes_sameTimers timer (S k) w1 w1 (sameTimers_refl w1))
    as (E1 & _ & _ & E4).
  destruct (fireEarlierTimes_sameTimers timer k w1 w1 (sameTimers_refl w1))
    as (F1 & _).
  unfold running. rewrite E1, E4, Hend, Hfin.
  split; [reflexivity | ]. split; [reflexivity | ].
  split; [reflexivity | ]. split; [reflexivity | ].
  split.
  - rewrite fireEarlierTimes_last.
    destruct (Hrun k (Nat.le_refl k)) as (Tk & Hlk & Hck).
    rewrite <- F1 in Hlk.
    apply (fireEarlier_last timer _ Tk (n - Z.of_nat k) Hlk Hck). lia.
  - now rewrite fireTimes_keeps_instance.
Qed.

(** The theorem for the click of the sample page. *)
Lemma earlier_animation_clears_the_flag_witness :
  exists steps,
    (0 < steps)%nat
    /\ onSmoothScroll
         (instance (fireEarlierTimes steps O
                      (fst (@scrollTop sampleBrowser shownWorld (mouse "click" 151)))))
       = false.
Proof.
  assert (H : exists steps,
             (0 < steps)%nat
             /\ running O (fireEarlierTimes steps O
                             (fst (@scrollTop sampleBrowser shownWorld
                                     (mouse "click" 151)))) = false
             /\ running O (fireTimes steps O
                             (fst (@scrollTop sampleBrowser shownWorld
                                     (mouse "click" 151)))) = false
             /\ scrollY (page (fireEarlierTimes steps O
                                 (fst (@scrollTop sampleBrowser shownWorld
                                         (mouse "click" 151))))) = Finite 1000
             /\ scrollY (page (fireTimes steps O
                                 (fst (@scrollTop sampleBrowser shownWorld
                                         (mouse "click" 151))))) = Finite 1000
             /\ onSmoothScroll
                  (instance (fireEarlierTimes steps O
                               (fst (@scrollTop sampleBrowser shownWorld
                                       (mouse "click" 151))))) = false
             /\ onSmoothScroll
                  (instance (fireTimes steps O
                               (fst (@scrollTop sampleBrowser shownWorld
                                       (mouse "click" 151))))) = true).
  { apply (earlier_animation_clears_the_flag
             sampleBrowser shownWorld (mouse "click" 151) 0 1000 3600);
      vm_compute; reflexivity. }
  destruct H as (steps & H0 & _ & _ & _ & _ & H1 & _).
  exists steps. split; [exact H0 | exact H1].
Defined.
